(** * Roll-forward recovery of fsync'ed data: fs/f3fs/recovery.c

    A shallow embedding of the recovery engine of ScaleLFS (f3fs).  Every
    function of recovery.c is a Rocq function of the same name, written in a
    state monad over a [world]: the state of the rest of the kernel together
    with the log of the calls recovery.c has made into it.

    recovery.c is the only translation unit modelled.  Whatever it uses from
    f3fs.h, node.h, segment.h and the Linux headers is an interface here:
    - functions that may change kernel state are constructors of [call];
    - functions and macros that only read kernel state are constructors of
      [query];
    - both get their meaning from a [Kernel] instance, over which every
      definition and every theorem is generic.
    Kernel log output (f3fs_notice, f3fs_warn, f3fs_info) is left out. *)

From Stdlib Require Import ZArith List Bool Lia Permutation.
Import ListNotations.
Local Open Scope Z_scope.

(** ** Machine integers and errno values *)

(** [unsigned int] and [block_t] arithmetic wraps at 32 bits. *)
Definition u32 (x : Z) : Z := x mod 2 ^ 32.

(** The value an __le64 field has once it is stored as [loff_t] or
    [time64_t], both signed 64-bit integers. *)
Definition s64 (x : Z) : Z := (x + 2 ^ 63) mod 2 ^ 64 - 2 ^ 63.

(** The truth value C gives an [int]. *)
Definition nz (x : Z) : bool := negb (x =? 0).

(** include/uapi/asm-generic/errno-base.h and errno.h. *)
Definition ENOENT : Z := 2.
Definition ENOMEM : Z := 12.
Definition EEXIST : Z := 17.
Definition EINVAL : Z := 22.
Definition ENAMETOOLONG : Z := 36.
Definition EUCLEAN : Z := 117.
Definition EFSCORRUPTED : Z := EUCLEAN.

(** include/linux/fs.h. *)
Definition SB_RDONLY : Z := 1.
Definition SB_ACTIVE : Z := 2 ^ 30.
Definition ATTR_UID : Z := 2.
Definition ATTR_GID : Z := 4.

(** sizeof(f3fs_hash_t): an __le32. *)
Definition sizeof_f3fs_hash_t : Z := 4.

(** ** Data *)

Definition nid_t := Z.
Definition block_t := Z.

(** A [struct page *] of a live page-cache page, as the integer the pointer
    is; 0 is NULL, and include/linux/err.h reads the top 4095 values as
    ERR_PTR(-errno). *)
Definition pgref := Z.
Definition MAX_ERRNO : Z := 4095.
Definition IS_ERR (p : pgref) : bool := (- MAX_ERRNO <=? p) && (p <? 0).
Definition PTR_ERR (p : pgref) : Z := p.

(** A [struct inode *]: the in-memory inode.  [i_ino] is the one field
    recovery.c reads directly; the others go through [query] and [call]. *)
Record inode := { i_ino : nid_t }.

(** [struct f3fs_inode]: the on-disk inode body of an inode page.  A field
    holds the value of the little-endian on-disk field (what le16_to_cpu,
    le32_to_cpu and le64_to_cpu return). *)
Record f3fs_inode := {
  i_mode : Z; i_advise : Z; i_inline : Z;
  i_uid : Z; i_gid : Z; i_size : Z;
  i_atime : Z; i_ctime : Z; i_mtime : Z;
  i_atime_nsec : Z; i_ctime_nsec : Z; i_mtime_nsec : Z;
  i_flags : Z; i_pino : nid_t;
  i_namelen : Z; i_name : list Z;
  i_extra_isize : Z; i_projid : Z; i_gc_failures : Z
}.

(** A node page read from the log, as its decoders (node.h) see it. *)
Record page := {
  page_ref : pgref;
  ino_of_node : nid_t;
  nid_of_node : nid_t;
  ofs_of_node : Z;
  next_blkaddr_of_node : block_t;
  is_fsync_dnode : bool;
  is_dent_dnode : bool;
  is_recoverable_dnode : bool;
  IS_INODE : bool;
  F3FS_INODE : f3fs_inode
}.

(** [struct fsync_inode_entry], allocated zeroed. *)
Record fsync_inode_entry := {
  e_inode : inode;          (* entry->inode *)
  e_blkaddr : block_t;      (* entry->blkaddr *)
  e_last_dentry : block_t   (* entry->last_dentry *)
}.

(** [struct dnode_of_data]. *)
Record dnode_of_data := {
  dn_inode : inode;
  dn_inode_page : pgref;
  dn_node_page : pgref;
  dn_nid : nid_t;
  dn_ofs_in_node : Z;
  dn_inode_page_locked : bool;
  dn_node_changed : bool;
  dn_cur_level : Z;
  dn_max_level : Z;
  dn_data_blkaddr : block_t
}.

(** [struct f3fs_summary]. *)
Record f3fs_summary := { sum_nid : nid_t; sum_ofs_in_node : Z; sum_version : Z }.

(** A summary page and its [entries] array. *)
Record sum_page := { sum_ref : pgref; entries : Z -> f3fs_summary }.

(** [struct node_info]. *)
Record node_info := {
  ni_nid : nid_t; ni_ino : nid_t; ni_blk_addr : block_t; ni_version : Z; ni_flag : Z
}.

(** [struct f3fs_dir_entry]. *)
Record f3fs_dir_entry := { de_hash_code : Z; de_ino : nid_t; de_name_len : Z; de_file_type : Z }.

(** [struct iattr], the fields recover_quota_data sets. *)
Record iattr := { ia_valid : Z; ia_vfsuid : Z; ia_vfsgid : Z }.

(** [struct f3fs_filename]; a name is its bytes and its length. *)
Record f3fs_filename := {
  usr_fname : option (list Z * Z);
  disk_name : list Z * Z;
  fn_hash : Z;
  cf_name : option (list Z)
}.

Inductive curseg_type :=
| CURSEG_HOT_DATA | CURSEG_WARM_DATA | CURSEG_COLD_DATA
| CURSEG_HOT_NODE | CURSEG_WARM_NODE | CURSEG_COLD_NODE.

Inductive sbi_flag := SBI_QUOTA_NEED_REPAIR | SBI_POR_DOING | SBI_IS_RECOVERED.
Inductive inode_flag := FI_PIN_FILE | FI_DATA_EXIST.
Inductive dnode_mode := ALLOC_NODE | LOOKUP_NODE.
Inductive mapping := META_MAPPING | NODE_MAPPING.
Inductive cp_reason := CP_RECOVERY.
Inductive blkaddr_type := META_POR.

(** The in-memory inode fields recover_inode stores into. *)
Inductive inode_field :=
| fld_i_mode
| fld_i_projid
| fld_i_atime_sec | fld_i_ctime_sec | fld_i_mtime_sec
| fld_i_atime_nsec | fld_i_ctime_nsec | fld_i_mtime_nsec
| fld_i_advise | fld_i_flags | fld_i_gc_failures_PIN.

(** ** The interface to the rest of the kernel *)

(** Reads of kernel state: inline accessors and macros of the headers. *)
Inductive query : Type -> Type :=
| IS_ENCRYPTED : inode -> query bool
| IS_CASEFOLDED : inode -> query bool
| file_keep_isize : inode -> query bool
| i_size_read : inode -> query Z
| inode_i_mode : inode -> query Z                 (* inode->i_mode *)
| inode_i_projid : inode -> query Z               (* F3FS_I(inode)->i_projid *)
| i_uid_into_vfsuid : inode -> query Z
| i_gid_into_vfsgid : inode -> query Z
| make_kuid : Z -> query Z
| make_kgid : Z -> query Z
| make_kprojid : Z -> query Z
| f3fs_sb_has_project_quota : query bool
| f3fs_sb_has_blkzoned : query bool
| f3fs_readonly : query bool
| sb_s_flags : query Z                            (* sbi->sb->s_flags *)
| valid_user_blocks : query Z
| NEXT_FREE_BLKADDR : curseg_type -> query block_t
| curseg_segno : curseg_type -> query Z           (* CURSEG_I(sbi, i)->segno *)
| curseg_sum_entry : curseg_type -> Z -> query f3fs_summary
                                                  (* ...->sum_blk->entries[blkoff] *)
| test_cur_valid_map : Z -> Z -> query bool
      (* f3fs_test_bit(blkoff, get_seg_entry(sbi, segno)->cur_valid_map) *)
| f3fs_data_blkaddr : dnode_of_data -> query block_t
| data_blkaddr : inode -> page -> Z -> query block_t
| ADDRS_PER_PAGE : page -> inode -> query Z
| f3fs_start_bidx_of_node : Z -> inode -> query Z
| ofs_of_node_page : pgref -> query Z             (* ofs_of_node(dn.node_page) *).

(** Calls that may change kernel state.  A call that takes a
    [struct dnode_of_data *] and may store into it returns the new value. *)
Inductive call : Type -> Type :=
(* inode cache and quota *)
| f3fs_iget_retry : nid_t -> call (Z + inode)
| iput : inode -> call unit
| f3fs_inode_synced : inode -> call unit
| f3fs_dquot_initialize : inode -> call Z
| dquot_alloc_inode : inode -> call Z
| dquot_transfer : inode -> iattr -> call Z
| f3fs_transfer_project_quota : inode -> Z -> call Z
| f3fs_acquire_orphan_inode : call Z
(* in-memory inode *)
| inode_store : inode -> inode_field -> Z -> call unit
| i_uid_write : inode -> Z -> call unit
| i_gid_write : inode -> Z -> call unit
| f3fs_i_size_write : inode -> Z -> call unit
| f3fs_set_inode_flags : inode -> call unit
| set_inode_flag : inode -> inode_flag -> call unit
| clear_inode_flag : inode -> inode_flag -> call unit
| f3fs_mark_inode_dirty_sync : inode -> bool -> call unit
(* superblock *)
| set_sbi_flag : sbi_flag -> call unit
| clear_sbi_flag : sbi_flag -> call unit
| sb_s_flags_store : Z -> call unit                (* sbi->sb->s_flags = v *)
| f3fs_bug_on : bool -> call unit
| f3fs_enable_quota_files : bool -> call Z
| f3fs_quota_off_umount : call unit
| f3fs_down_write_cp_global_sem : call unit
| f3fs_up_write_cp_global_sem : call unit
| f3fs_write_checkpoint : cp_reason -> call Z
| f3fs_fix_curseg_write_pointer : call Z
| f3fs_allocate_new_segments : call unit
(* directories *)
| f3fs_init_casefolded_name : inode -> f3fs_filename -> call (Z * f3fs_filename)
| f3fs_hash_filename : inode -> f3fs_filename -> call f3fs_filename
| kmem_cache_free_cf_name : f3fs_filename -> call unit
| __f3fs_find_entry : inode -> f3fs_filename -> call (option f3fs_dir_entry * pgref)
| f3fs_delete_entry : f3fs_dir_entry -> pgref -> inode -> inode -> call unit
| f3fs_add_dentry : inode -> f3fs_filename -> inode -> nid_t -> Z -> call Z
(* page cache *)
| f3fs_get_tmp_page : block_t -> call (Z + page)
| f3fs_get_node_page : nid_t -> call (Z + page)
| f3fs_get_sum_page : Z -> call (Z + sum_page)
| f3fs_put_page : pgref -> Z -> call unit
| f3fs_ra_meta_pages_cond : block_t -> Z -> call unit
| lock_page : pgref -> call unit
| unlock_page : pgref -> call unit
| set_page_dirty : pgref -> call unit
| f3fs_wait_on_page_writeback : pgref -> call unit
| truncate_inode_pages_range : mapping -> Z -> Z -> call unit
| truncate_inode_pages_final : mapping -> call unit
| memalloc_retry_wait : call unit
(* node layer *)
| f3fs_recover_inode_page : page -> call Z
| f3fs_recover_inline_xattr : inode -> page -> call Z
| f3fs_recover_xattr_data : inode -> page -> call Z
| f3fs_recover_inline_data : inode -> page -> call Z
| f3fs_get_dnode_of_data : dnode_of_data -> Z -> dnode_mode -> call (Z * dnode_of_data)
| f3fs_put_dnode : dnode_of_data -> call unit
| f3fs_get_node_info : nid_t -> call (Z * node_info)
| f3fs_truncate_data_blocks_range : dnode_of_data -> Z -> call dnode_of_data
| f3fs_reserve_new_block : dnode_of_data -> call (Z * dnode_of_data)
| f3fs_replace_block :
    dnode_of_data -> block_t -> block_t -> Z -> bool -> bool -> call dnode_of_data
| copy_node_footer : pgref -> page -> call unit
| fill_node_footer : pgref -> nid_t -> nid_t -> Z -> bool -> call unit.

(** A call made by recovery.c, without its answer. *)
Inductive action := Act : forall R : Type, call R -> action.
Arguments Act {R} _.

(** The rest of the kernel: its state, what reads and calls do to it, and the
    constants, configuration options and pure macros of the headers that are
    not part of recovery.c.  [f3fs_is_valid_blkaddr] is the range check of a
    block address against the fixed layout of the mounted image. *)
Class Kernel := {
  kstate : Type;
  rd : forall R : Type, query R -> kstate -> R;
  sem : forall R : Type, call R -> kstate -> R * kstate;
  NULL_ADDR : block_t;
  NEW_ADDR : block_t;
  F3FS_NAME_LEN : Z;
  PAGE_SHIFT : Z;
  RECOVERY_MAX_RA_BLOCKS : Z;
  RECOVERY_MIN_RA_BLOCKS : Z;
  F3FS_PIN_FILE : Z;
  F3FS_DATA_EXIST : Z;
  F3FS_EXTRA_ATTR : Z;
  blocks_per_seg : Z;                            (* sbi->blocks_per_seg *)
  MAIN_SEGS : Z;
  MAIN_BLKADDR : block_t;
  GET_SEGNO : block_t -> Z;
  GET_BLKOFF_FROM_SEG0 : block_t -> Z;
  f3fs_is_valid_blkaddr : block_t -> blkaddr_type -> bool;
  f3fs_has_xattr_block : Z -> bool;
  F3FS_FITS_IN_INODE_i_projid : Z -> bool;
      (* F3FS_FITS_IN_INODE(raw, extra_isize, i_projid) *)
  get_unaligned_hash : list Z -> Z -> Z;
      (* get_unaligned((f3fs_hash_t * ) &i_name[len]) *)
  CONFIG_QUOTA : bool;
  CONFIG_UNICODE : bool;
  CONFIG_F3FS_FAULT_INJECTION : bool
}.
Arguments rd {_ R} _ _.
Arguments sem {_ R} _ _.

(** ** The monad of recovery.c *)

Section Model.
Context {K : Kernel}.

(** One entry of the log: the state in which a call was made, the call and
    its answer. *)
Inductive event := Ev : forall R : Type, kstate -> call R -> R -> event.
Arguments Ev {R} _ _ _.

Definition action_of (e : event) : action :=
  match e with Ev _ c _ => Act c end.

(** The kernel state and the log of calls, oldest first. *)
Record world := { w_st : kstate; w_trace : list event }.

(** The calls of a log, in order. *)
Definition calls (l : list event) : list action := map action_of l.

(** A computation returns [None] when a loop of the source has not come to
    an end within the number of rounds it was given. *)
Definition M (A : Type) : Type := world -> option (A * world).

Definition ret {A} (a : A) : M A := fun w => Some (a, w).

Definition bind {A B} (m : M A) (k : A -> M B) : M B :=
  fun w => match m w with
           | Some (a, w') => k a w'
           | None => None
           end.

Definition out_of_rounds {A} : M A := fun _ => None.

(** Make a call: the kernel answers and moves on, and the call is logged. *)
Definition perform {R} (c : call R) : M R :=
  fun w => let (r, s) := sem c (w_st w) in
           Some (r, {| w_st := s; w_trace := w_trace w ++ [Ev (w_st w) c r] |}).

(** Read kernel state. *)
Definition read {R} (q : query R) : M R :=
  fun w => Some (rd q (w_st w), w).

Notation "x <- m ;; k" := (bind m (fun x => k))
  (at level 61, m at next level, right associativity).
Notation "' p <- m ;; k" := (bind m (fun p => k))
  (at level 61, p pattern, m at next level, right associativity).
Notation "m ;; k" := (bind m (fun _ => k))
  (at level 61, right associativity).

(** Spec-modelled header predicate.
    Modelled from the spec: [__is_valid_data_blkaddr] is declared in f3fs.h,
    which is not part of the sources; the spec separates the two sentinels
    NULL_ADDR (unallocated) and NEW_ADDR (reserved, not written) from the
    block addresses that must pass META_POR. *)
Definition __is_valid_data_blkaddr (blkaddr : block_t) : bool :=
  negb (blkaddr =? NEW_ADDR) && negb (blkaddr =? NULL_ADDR).

(** Modelled from the spec: [set_new_dnode] is an inline function of f3fs.h,
    which is not part of the sources; the dnode locator it initialises is
    the spec's [{inode, inode_page, node_page, nid, ...}] with every other
    field cleared. *)
Definition set_new_dnode (i : inode) (ipage npage : pgref) (nid : nid_t)
  : dnode_of_data :=
  {| dn_inode := i; dn_inode_page := ipage; dn_node_page := npage;
     dn_nid := nid; dn_ofs_in_node := 0; dn_inode_page_locked := false;
     dn_node_changed := false; dn_cur_level := 0; dn_max_level := 0;
     dn_data_blkaddr := 0 |}.

(** ** The fsync-inode lists

    A [struct list_head] of entries is the list of its entries, head first.
    A pointer to an entry of a list is the position of the entry in it,
    paired with the entry as it was when the pointer was taken. *)

Definition fsync_list := list fsync_inode_entry.

(** recovery.c:66 *)
Definition entry_ptr : Type := nat * fsync_inode_entry.

Fixpoint get_fsync_inode (head : fsync_list) (ino : nid_t) : option entry_ptr :=
  match head with
  | [] => None
  | entry :: rest =>
      if i_ino (e_inode entry) =? ino then Some (0%nat, entry)
      else option_map (fun p => (S (fst p), snd p)) (get_fsync_inode rest ino)
  end.

(** A store through a pointer to an entry. *)
Fixpoint entry_store (head : fsync_list) (p : nat)
    (f : fsync_inode_entry -> fsync_inode_entry) : fsync_list :=
  match head, p with
  | [], _ => []
  | entry :: rest, O => f entry :: rest
  | entry :: rest, S p' => entry :: entry_store rest p' f
  end.

(** list_del: unlink the entry a pointer designates. *)
Fixpoint list_del (head : fsync_list) (p : nat) : fsync_list :=
  match head, p with
  | [], _ => []
  | _ :: rest, O => rest
  | entry :: rest, S p' => entry :: list_del rest p'
  end.

(** recovery.c:78.  Returns ERR_PTR(err) as [inl err] and the new entry, now
    the tail of [head], as [inr] of its position.  f3fs_kmem_cache_alloc is
    called with GFP_F3FS_ZERO and nofail: it returns a zeroed entry. *)
Definition add_fsync_inode (head : fsync_list) (ino : nid_t) (quota_inode : bool)
  : M ((Z + entry_ptr) * fsync_list) :=
  r <- perform (f3fs_iget_retry ino) ;;
  match r with
  | inl e => ret (inl e, head)                       (* IS_ERR(inode) *)
  | inr i =>
      err <- perform (f3fs_dquot_initialize i) ;;
      if nz err then
        perform (iput i) ;; ret (inl err, head)      (* err_out *)
      else
        err <- (if quota_inode then perform (dquot_alloc_inode i) else ret err) ;;
        if nz err then
          perform (iput i) ;; ret (inl err, head)    (* err_out *)
        else
          let entry := {| e_inode := i; e_blkaddr := 0; e_last_dentry := 0 |} in
          ret (inr (length head, entry), head ++ [entry])   (* list_add_tail *)
  end.

(** recovery.c:110, without the list_del, which [destroy_fsync_dnodes] does. *)
Definition del_fsync_inode (entry : fsync_inode_entry) (drop : Z) : M unit :=
  (if nz drop then perform (f3fs_inode_synced (e_inode entry)) else ret tt) ;;
  perform (iput (e_inode entry)).

(** recovery.c:457: every entry is deleted, head first; the list ends empty. *)
Fixpoint destroy_fsync_dnodes (head : fsync_list) (drop : Z) : M fsync_list :=
  match head with
  | [] => ret []
  | entry :: rest => del_fsync_inode entry drop ;; destroy_fsync_dnodes rest drop
  end.

(** ** Directory repair *)

(** recovery.c:121.  Returns [err] and the filled [fname]. *)
Definition init_recovered_filename (dir : inode) (raw_inode : f3fs_inode)
  : M (Z * f3fs_filename) :=
  let len := i_namelen raw_inode in
  let fname := {| usr_fname := None; disk_name := (i_name raw_inode, len);
                  fn_hash := 0; cf_name := None |} in
  if F3FS_NAME_LEN <? len then ret (- ENAMETOOLONG, fname)
  else
    enc <- read (IS_ENCRYPTED dir) ;;
    let fname :=
      if negb enc
      then {| usr_fname := Some (disk_name fname); disk_name := disk_name fname;
              fn_hash := fn_hash fname; cf_name := cf_name fname |}
      else fname in
    (* Compute the hash of the filename *)
    enc <- read (IS_ENCRYPTED dir) ;;
    cf <- read (IS_CASEFOLDED dir) ;;
    if enc && cf then
      if F3FS_NAME_LEN <? len + sizeof_f3fs_hash_t then ret (- EINVAL, fname)
      else
        ret (0, {| usr_fname := usr_fname fname; disk_name := disk_name fname;
                   fn_hash := get_unaligned_hash (i_name raw_inode) len;
                   cf_name := cf_name fname |})
    else if cf then
      '(err, fname) <- perform (f3fs_init_casefolded_name dir fname) ;;
      if nz err then ret (err, fname)
      else
        fname <- perform (f3fs_hash_filename dir fname) ;;
        if CONFIG_UNICODE then
          (* Case-sensitive match is fine for recovery *)
          perform (kmem_cache_free_cf_name fname) ;;
          ret (0, {| usr_fname := usr_fname fname; disk_name := disk_name fname;
                     fn_hash := fn_hash fname; cf_name := None |})
        else ret (0, fname)
    else
      fname <- perform (f3fs_hash_filename dir fname) ;;
      ret (0, fname).

(** recovery.c:235, the exit [out_put:] of recover_dentry. *)
Definition recover_dentry_out_put (page : pgref) (err : Z) : M Z :=
  perform (f3fs_put_page page 0) ;; ret err.

(** recovery.c:196, recover_dentry from [retry:] on; [err] is the value the
    variable has when control reaches the label. *)
Fixpoint recover_dentry_retry (rounds : nat) (i dir : inode)
    (fname : f3fs_filename) (err : Z) : M Z :=
  match rounds with
  | O => out_of_rounds
  | S rounds' =>
      '(de, page) <- perform (__f3fs_find_entry dir fname) ;;
      match de with
      | Some de =>
          if i_ino i =? de_ino de then recover_dentry_out_put page err
          else
            r <- perform (f3fs_iget_retry (de_ino de)) ;;
            match r with
            | inl e =>                                  (* IS_ERR(einode) *)
                let err := e in
                let err := if err =? - ENOENT then - EEXIST else err in
                recover_dentry_out_put page err
            | inr einode =>
                err <- perform (f3fs_dquot_initialize einode) ;;
                if nz err then
                  perform (iput einode) ;; recover_dentry_out_put page err
                else
                  err <- perform f3fs_acquire_orphan_inode ;;
                  if nz err then
                    perform (iput einode) ;; recover_dentry_out_put page err
                  else
                    perform (f3fs_delete_entry de page dir einode) ;;
                    perform (iput einode) ;;
                    recover_dentry_retry rounds' i dir fname err
            end
      | None =>
          err <- (if IS_ERR page then ret (PTR_ERR page)
                  else
                    mode <- read (inode_i_mode i) ;;
                    perform (f3fs_add_dentry dir fname i (i_ino i) mode)) ;;
          if err =? - ENOMEM then recover_dentry_retry rounds' i dir fname err
          else ret err
      end
  end.

(** recovery.c:167. *)
Definition recover_dentry (rounds : nat) (i : inode) (ipage : page)
    (dir_list : fsync_list) : M (Z * fsync_list) :=
  let raw_inode := F3FS_INODE ipage in
  let pino := i_pino raw_inode in
  '(r, dir_list) <- match get_fsync_inode dir_list pino with
                    | Some entry => ret (inr entry, dir_list)
                    | None => add_fsync_inode dir_list pino false
                    end ;;
  match r with
  | inl e => ret (e, dir_list)                          (* IS_ERR(entry) *)
  | inr entry =>
      let dir := e_inode (snd entry) in
      '(err, fname) <- init_recovered_filename dir raw_inode ;;
      if nz err then ret (err, dir_list)
      else
        err <- recover_dentry_retry rounds i dir fname err ;;
        ret (err, dir_list)
  end.

(** ** Inode reconstruction *)

(** recovery.c:248. *)
Definition recover_quota_data (i : inode) (page : page) : M Z :=
  let raw := F3FS_INODE page in
  vfsuid <- read (make_kuid (i_uid raw)) ;;
  vfsgid <- read (make_kgid (i_gid raw)) ;;
  cur_uid <- read (i_uid_into_vfsuid i) ;;
  cur_gid <- read (i_gid_into_vfsgid i) ;;
  let valid := 0 in
  let valid := if negb (vfsuid =? cur_uid) then Z.lor valid ATTR_UID else valid in
  let valid := if negb (vfsgid =? cur_gid) then Z.lor valid ATTR_GID else valid in
  if negb (nz valid) then ret 0
  else
    err <- perform (dquot_transfer i
                      {| ia_valid := valid; ia_vfsuid := vfsuid; ia_vfsgid := vfsgid |}) ;;
    (if nz err then perform (set_sbi_flag SBI_QUOTA_NEED_REPAIR) else ret tt) ;;
    ret err.

(** recovery.c:275. *)
Definition recover_inline_flags (i : inode) (ri : f3fs_inode) : M unit :=
  (if nz (Z.land (i_inline ri) F3FS_PIN_FILE)
   then perform (set_inode_flag i FI_PIN_FILE)
   else perform (clear_inode_flag i FI_PIN_FILE)) ;;
  (if nz (Z.land (i_inline ri) F3FS_DATA_EXIST)
   then perform (set_inode_flag i FI_DATA_EXIST)
   else perform (clear_inode_flag i FI_DATA_EXIST)).

(** recovery.c:302-320, the project-quota block of recover_inode: the error
    it returns with, or 0 when control falls through. *)
Definition recover_inode_projid (i : inode) (raw : f3fs_inode) : M Z :=
  if nz (Z.land (i_inline raw) F3FS_EXTRA_ATTR) then
    has <- read f3fs_sb_has_project_quota ;;
    if has && F3FS_FITS_IN_INODE_i_projid (i_extra_isize raw) then
      kprojid <- read (make_kprojid (i_projid raw)) ;;
      cur <- read (inode_i_projid i) ;;
      if negb (kprojid =? cur) then
        err <- perform (f3fs_transfer_project_quota i kprojid) ;;
        if nz err then ret err
        else perform (inode_store i fld_i_projid kprojid) ;; ret 0
      else ret 0
    else ret 0
  else ret 0.

(** recovery.c:287. *)
Definition recover_inode (i : inode) (page : page) : M Z :=
  let raw := F3FS_INODE page in
  perform (inode_store i fld_i_mode (i_mode raw)) ;;
  err <- recover_quota_data i page ;;
  if nz err then ret err
  else
    perform (i_uid_write i (i_uid raw)) ;;
    perform (i_gid_write i (i_gid raw)) ;;
    err <- recover_inode_projid i raw ;;
    if nz err then ret err
    else
      perform (f3fs_i_size_write i (s64 (i_size raw))) ;;
      perform (inode_store i fld_i_atime_sec (s64 (i_atime raw))) ;;
      perform (inode_store i fld_i_ctime_sec (s64 (i_ctime raw))) ;;
      perform (inode_store i fld_i_mtime_sec (s64 (i_mtime raw))) ;;
      perform (inode_store i fld_i_atime_nsec (i_atime_nsec raw)) ;;
      perform (inode_store i fld_i_ctime_nsec (i_ctime_nsec raw)) ;;
      perform (inode_store i fld_i_mtime_nsec (i_mtime_nsec raw)) ;;
      perform (inode_store i fld_i_advise (i_advise raw)) ;;
      perform (inode_store i fld_i_flags (i_flags raw)) ;;
      perform (f3fs_set_inode_flags i) ;;
      perform (inode_store i fld_i_gc_failures_PIN (i_gc_failures raw)) ;;
      recover_inline_flags i raw ;;
      perform (f3fs_mark_inode_dirty_sync i true) ;;
      ret 0.

(** ** Discovery *)

(** recovery.c:350. *)
Definition adjust_por_ra_blocks (ra_blocks blkaddr next_blkaddr : Z) : Z :=
  if u32 (blkaddr + 1) =? next_blkaddr then
    Z.min RECOVERY_MAX_RA_BLOCKS (u32 (ra_blocks * 2))
  else if nz (next_blkaddr mod blocks_per_seg) then
    Z.max RECOVERY_MIN_RA_BLOCKS (ra_blocks / 2)
  else ra_blocks.

(** The two stores of recovery.c:429-432 through [entry]. *)
Definition find_fsync_dnodes_mark (head : fsync_list) (entry : entry_ptr)
    (blkaddr : block_t) (page : page) : fsync_list :=
  entry_store head (fst entry) (fun e =>
    {| e_inode := e_inode e;
       e_blkaddr := blkaddr;
       e_last_dentry := if IS_INODE page && is_dent_dnode page
                        then blkaddr else e_last_dentry e |}).

(** recovery.c:396-432, one block of find_fsync_dnodes between the test of
    the fsync mark and the label [next:].  [inl e]: the loop is left by
    [break] with [err = e]; [inr e]: control reaches [next:] with [err = e]. *)
Definition find_fsync_dnodes_block (check_only : bool) (head : fsync_list)
    (blkaddr : block_t) (page : page) (err : Z) : M ((Z + Z) * fsync_list) :=
  if negb (is_fsync_dnode page) then ret (inr err, head)
  else
    match get_fsync_inode head (ino_of_node page) with
    | Some entry => ret (inr err, find_fsync_dnodes_mark head entry blkaddr page)
    | None =>
        let fresh := negb check_only && IS_INODE page && is_dent_dnode page in
        err <- (if fresh then perform (f3fs_recover_inode_page page) else ret err) ;;
        if fresh && nz err then ret (inl err, head)
        else
          let quota_inode := fresh in
          (* CP | dnode(F) | inode(DF): we should not give up now. *)
          '(r, head) <- add_fsync_inode head (ino_of_node page) quota_inode ;;
          match r with
          | inl e =>
              if e =? - ENOENT then ret (inr 0, head) else ret (inl e, head)
          | inr entry =>
              ret (inr err, find_fsync_dnodes_mark head entry blkaddr page)
          end
    end.

(** recovery.c:379, the [while (1)] of find_fsync_dnodes. *)
Fixpoint find_fsync_dnodes_loop (rounds : nat) (check_only : bool)
    (free_blocks : Z) (head : fsync_list)
    (blkaddr : block_t) (loop_cnt ra_blocks err : Z) : M (Z * fsync_list) :=
  match rounds with
  | O => out_of_rounds
  | S rounds' =>
      if negb (f3fs_is_valid_blkaddr blkaddr META_POR) then ret (0, head)
      else
        r <- perform (f3fs_get_tmp_page blkaddr) ;;
        match r with
        | inl e => ret (e, head)                        (* IS_ERR(page) *)
        | inr page =>
            if negb (is_recoverable_dnode page) then
              perform (f3fs_put_page (page_ref page) 1) ;; ret (err, head)
            else
              '(r, head) <- find_fsync_dnodes_block check_only head blkaddr page err ;;
              match r with
              | inl e => perform (f3fs_put_page (page_ref page) 1) ;; ret (e, head)
              | inr err =>
                  (* sanity check in order to detect looped node chain *)
                  let loop_cnt := u32 (loop_cnt + 1) in
                  if (free_blocks <=? loop_cnt)
                     || (blkaddr =? next_blkaddr_of_node page) then
                    perform (f3fs_put_page (page_ref page) 1) ;;
                    ret (- EINVAL, head)
                  else
                    let ra_blocks := adjust_por_ra_blocks ra_blocks blkaddr
                                       (next_blkaddr_of_node page) in
                    (* check next segment *)
                    let blkaddr := next_blkaddr_of_node page in
                    perform (f3fs_put_page (page_ref page) 1) ;;
                    perform (f3fs_ra_meta_pages_cond blkaddr ra_blocks) ;;
                    find_fsync_dnodes_loop rounds' check_only free_blocks head
                      blkaddr loop_cnt ra_blocks err
              end
        end
  end.

(** The loop bound of recovery.c:371. *)
Definition free_blocks_of (valid_blocks : Z) : Z :=
  u32 (MAIN_SEGS * blocks_per_seg - valid_blocks).

(** recovery.c:363. *)
Definition find_fsync_dnodes (rounds : nat) (head : fsync_list) (check_only : bool)
  : M (Z * fsync_list) :=
  valid_blocks <- read valid_user_blocks ;;
  let free_blocks := free_blocks_of valid_blocks in
  (* get node pages in the current segment *)
  blkaddr <- read (NEXT_FREE_BLKADDR CURSEG_WARM_NODE) ;;
  find_fsync_dnodes_loop rounds check_only free_blocks head
    blkaddr 0 RECOVERY_MAX_RA_BLOCKS 0.

(** ** The collision resolver *)

(** Stores into the fields of a [struct dnode_of_data]. *)
Definition dn_set_nid (dn : dnode_of_data) (v : nid_t) : dnode_of_data :=
  {| dn_inode := dn_inode dn; dn_inode_page := dn_inode_page dn;
     dn_node_page := dn_node_page dn; dn_nid := v;
     dn_ofs_in_node := dn_ofs_in_node dn;
     dn_inode_page_locked := dn_inode_page_locked dn;
     dn_node_changed := dn_node_changed dn; dn_cur_level := dn_cur_level dn;
     dn_max_level := dn_max_level dn; dn_data_blkaddr := dn_data_blkaddr dn |}.

Definition dn_set_node_page (dn : dnode_of_data) (v : pgref) : dnode_of_data :=
  {| dn_inode := dn_inode dn; dn_inode_page := dn_inode_page dn;
     dn_node_page := v; dn_nid := dn_nid dn;
     dn_ofs_in_node := dn_ofs_in_node dn;
     dn_inode_page_locked := dn_inode_page_locked dn;
     dn_node_changed := dn_node_changed dn; dn_cur_level := dn_cur_level dn;
     dn_max_level := dn_max_level dn; dn_data_blkaddr := dn_data_blkaddr dn |}.

Definition dn_set_ofs_in_node (dn : dnode_of_data) (v : Z) : dnode_of_data :=
  {| dn_inode := dn_inode dn; dn_inode_page := dn_inode_page dn;
     dn_node_page := dn_node_page dn; dn_nid := dn_nid dn;
     dn_ofs_in_node := v;
     dn_inode_page_locked := dn_inode_page_locked dn;
     dn_node_changed := dn_node_changed dn; dn_cur_level := dn_cur_level dn;
     dn_max_level := dn_max_level dn; dn_data_blkaddr := dn_data_blkaddr dn |}.

(** recovery.c:486-493, the search of the data current segments for
    [segno]: the summary entry of the first that covers it. *)
Fixpoint check_index_curseg_sum (types : list curseg_type) (segno blkoff : Z)
  : M (option f3fs_summary) :=
  match types with
  | [] => ret None
  | i :: rest =>
      s <- read (curseg_segno i) ;;
      if s =? segno then
        sum <- read (curseg_sum_entry i blkoff) ;; ret (Some sum)
      else check_index_curseg_sum rest segno blkoff
  end.

(** recovery.c:567, the exit [truncate_out:] of check_index_in_prev_nodes. *)
Definition check_index_truncate_out (blkaddr : block_t) (dn tdn : dnode_of_data)
    (nid : nid_t) : M Z :=
  a <- read (f3fs_data_blkaddr tdn) ;;
  (if a =? blkaddr
   then perform (f3fs_truncate_data_blocks_range tdn 1) ;; ret tt
   else ret tt) ;;
  (if (i_ino (dn_inode dn) =? nid) && negb (dn_inode_page_locked dn)
   then perform (unlock_page (dn_inode_page dn))
   else ret tt) ;;
  ret 0.

(** recovery.c:465. *)
Definition check_index_in_prev_nodes (blkaddr : block_t) (dn : dnode_of_data) : M Z :=
  let segno := GET_SEGNO blkaddr in
  let blkoff := GET_BLKOFF_FROM_SEG0 blkaddr in
  let tdn := dn in
  valid <- read (test_cur_valid_map segno blkoff) ;;
  if negb valid then ret 0
  else
    (* Get the previous summary *)
    cur <- check_index_curseg_sum
             [CURSEG_HOT_DATA; CURSEG_WARM_DATA; CURSEG_COLD_DATA] segno blkoff ;;
    r <- match cur with
         | Some sum => ret (inr sum)
         | None =>
             p <- perform (f3fs_get_sum_page segno) ;;
             match p with
             | inl e => ret (inl e)                     (* IS_ERR(sum_page) *)
             | inr sum_page =>
                 let sum := entries sum_page blkoff in
                 perform (f3fs_put_page (sum_ref sum_page) 1) ;;
                 ret (inr sum)
             end
         end ;;
    match r with
    | inl e => ret e
    | inr sum =>
        (* got_it: use the locked dnode page and inode *)
        let nid := sum_nid sum in
        if i_ino (dn_inode dn) =? nid then
          let tdn := dn_set_nid tdn nid in
          (if negb (dn_inode_page_locked dn)
           then perform (lock_page (dn_inode_page dn)) else ret tt) ;;
          let tdn := dn_set_node_page tdn (dn_inode_page dn) in
          let tdn := dn_set_ofs_in_node tdn (sum_ofs_in_node sum) in
          check_index_truncate_out blkaddr dn tdn nid
        else if dn_nid dn =? nid then
          let tdn := dn_set_ofs_in_node tdn (sum_ofs_in_node sum) in
          check_index_truncate_out blkaddr dn tdn nid
        else
          (* Get the node page *)
          np <- perform (f3fs_get_node_page nid) ;;
          match np with
          | inl e => ret e                              (* IS_ERR(node_page) *)
          | inr node_page =>
              let offset := ofs_of_node node_page in
              let ino := ino_of_node node_page in
              perform (f3fs_put_page (page_ref node_page) 1) ;;
              r <- (if negb (ino =? i_ino (dn_inode dn)) then
                      (* Deallocate previous index in the node page *)
                      r <- perform (f3fs_iget_retry ino) ;;
                      match r with
                      | inl e => ret (inl e)
                      | inr i =>
                          e <- perform (f3fs_dquot_initialize i) ;;
                          if nz e then perform (iput i) ;; ret (inl e)
                          else ret (inr i)
                      end
                    else ret (inr (dn_inode dn))) ;;
              match r with
              | inl e => ret e
              | inr i =>
                  start <- read (f3fs_start_bidx_of_node offset i) ;;
                  let bidx := u32 (start + sum_ofs_in_node sum) in
                  (* if inode page is locked, unlock temporarily *)
                  (if (ino =? i_ino (dn_inode dn)) && dn_inode_page_locked dn
                   then perform (unlock_page (dn_inode_page dn)) else ret tt) ;;
                  let tdn := set_new_dnode i 0 0 0 in
                  '(e, tdn) <- perform (f3fs_get_dnode_of_data tdn bidx LOOKUP_NODE) ;;
                  (if nz e then ret tt                   (* goto out *)
                   else
                     tdn <- (if dn_data_blkaddr tdn =? blkaddr
                             then perform (f3fs_truncate_data_blocks_range tdn 1)
                             else ret tdn) ;;
                     perform (f3fs_put_dnode tdn)) ;;
                  (* out: *)
                  (if negb (ino =? i_ino (dn_inode dn)) then perform (iput i)
                   else if dn_inode_page_locked dn
                        then perform (lock_page (dn_inode_page dn))
                        else ret tt) ;;
                  ret 0
              end
          end
    end.

(** ** Data-index repair *)

(** recovery.c:608, [retry_dn:]: ask for the dnode until the answer is not
    -ENOMEM. *)
Fixpoint do_recover_data_get_dnode (rounds : nat) (dn : dnode_of_data) (start : Z)
  : M (Z * dnode_of_data) :=
  match rounds with
  | O => out_of_rounds
  | S rounds' =>
      '(err, dn) <- perform (f3fs_get_dnode_of_data dn start ALLOC_NODE) ;;
      if nz err && (err =? - ENOMEM) then
        perform memalloc_retry_wait ;;
        do_recover_data_get_dnode rounds' dn start
      else ret (err, dn)
  end.

(** recovery.c:681-684: reserve a block, again and again while it fails and
    fault injection is configured. *)
Fixpoint do_recover_data_reserve (rounds : nat) (dn : dnode_of_data)
  : M (Z * dnode_of_data) :=
  match rounds with
  | O => out_of_rounds
  | S rounds' =>
      '(err, dn) <- perform (f3fs_reserve_new_block dn) ;;
      if nz err && CONFIG_F3FS_FAULT_INJECTION
      then do_recover_data_reserve rounds' dn
      else ret (err, dn)
  end.

(** recovery.c:690, [retry_prev:]: run the collision resolver until its
    answer is not -ENOMEM. *)
Fixpoint do_recover_data_check_prev (rounds : nat) (dest : block_t)
    (dn : dnode_of_data) : M Z :=
  match rounds with
  | O => out_of_rounds
  | S rounds' =>
      err <- check_index_in_prev_nodes dest dn ;;
      if nz err && (err =? - ENOMEM) then
        perform memalloc_retry_wait ;;
        do_recover_data_check_prev rounds' dest dn
      else ret err
  end.

(** recovery.c:635-705, the body of the loop over the index range for the
    slot [start].  The first component is 0 when the loop goes on to the
    next slot (by [continue] or by reaching the end of the body) and the
    error with which control jumps to [err:] otherwise.  The counter
    [recovered] only feeds the log and is left out. *)
Definition do_recover_data_index (rounds : nat) (i : inode) (page : page)
    (ni : node_info) (start : Z) (dn : dnode_of_data) : M (Z * dnode_of_data) :=
  src <- read (f3fs_data_blkaddr dn) ;;
  dest <- read (data_blkaddr (dn_inode dn) page (dn_ofs_in_node dn)) ;;
  if __is_valid_data_blkaddr src && negb (f3fs_is_valid_blkaddr src META_POR) then
    ret (- EFSCORRUPTED, dn)
  else if __is_valid_data_blkaddr dest && negb (f3fs_is_valid_blkaddr dest META_POR) then
    ret (- EFSCORRUPTED, dn)
  (* skip recovering if dest is the same as src *)
  else if src =? dest then ret (0, dn)
  (* dest is invalid, just invalidate src block *)
  else if dest =? NULL_ADDR then
    dn <- perform (f3fs_truncate_data_blocks_range dn 1) ;;
    ret (0, dn)
  else
    keep <- read (file_keep_isize i) ;;
    size <- read (i_size_read i) ;;
    (if negb keep && (size <=? Z.shiftl start PAGE_SHIFT)
     then perform (f3fs_i_size_write i (Z.shiftl (start + 1) PAGE_SHIFT))
     else ret tt) ;;
    (* dest is reserved block, invalidate src block and then reserve one new
       block in dnode page. *)
    if dest =? NEW_ADDR then
      dn <- perform (f3fs_truncate_data_blocks_range dn 1) ;;
      '(_, dn) <- perform (f3fs_reserve_new_block dn) ;;
      ret (0, dn)
    (* dest is valid block, try to recover from src to dest *)
    else if f3fs_is_valid_blkaddr dest META_POR then
      '(err, dn) <- (if src =? NULL_ADDR then
                       '(err, dn) <- do_recover_data_reserve rounds dn ;;
                       (* We should not get -ENOSPC *)
                       perform (f3fs_bug_on (nz err)) ;;
                       ret (err, dn)
                     else ret (0, dn)) ;;
      if nz err then ret (err, dn)
      else
        (* Check the previous node page having this index *)
        err <- do_recover_data_check_prev rounds dest dn ;;
        if nz err then ret (err, dn)
        else
          (* write dummy data page *)
          dn <- perform (f3fs_replace_block dn src dest (ni_version ni) false false) ;;
          ret (0, dn)
    else ret (0, dn).

(** recovery.c:634, [for (; start < end; start++, dn.ofs_in_node++)]: [n]
    is the number of slots left, end - start. *)
Fixpoint do_recover_data_indices (rounds : nat) (n : nat) (i : inode) (page : page)
    (ni : node_info) (start : Z) (dn : dnode_of_data) : M (Z * dnode_of_data) :=
  match n with
  | O => ret (0, dn)
  | S n' =>
      '(err, dn) <- do_recover_data_index rounds i page ni start dn ;;
      if nz err then ret (err, dn)
      else
        do_recover_data_indices rounds n' i page ni (start + 1)
          (dn_set_ofs_in_node dn (u32 (dn_ofs_in_node dn + 1)))
  end.

(** recovery.c:634-713, do_recover_data from the loop over the index range
    [start, end_) down to the label [out:]. *)
Definition do_recover_data_slots (rounds : nat) (i : inode) (page : page)
    (ni : node_info) (start end_ : Z) (dn : dnode_of_data) : M Z :=
  '(err, dn) <- do_recover_data_indices rounds (Z.to_nat (end_ - start))
                  i page ni start dn ;;
  if nz err then perform (f3fs_put_dnode dn) ;; ret err        (* err: *)
  else
    perform (copy_node_footer (dn_node_page dn) page) ;;
    perform (fill_node_footer (dn_node_page dn) (dn_nid dn) (ni_ino ni)
               (ofs_of_node page) false) ;;
    perform (set_page_dirty (dn_node_page dn)) ;;
    perform (f3fs_put_dnode dn) ;;                              (* err: *)
    ret err.

(** recovery.c:662-665, the extension of i_size to cover the slot [start]
    of a file that does not keep its size and ends before the slot. *)
Definition do_recover_data_i_size (i : inode) (start : Z) : M unit :=
  keep <- read (file_keep_isize i) ;;
  size <- read (i_size_read i) ;;
  if negb keep && (size <=? Z.shiftl start PAGE_SHIFT)
  then perform (f3fs_i_size_write i (Z.shiftl (start + 1) PAGE_SHIFT))
  else ret tt.

(** recovery.c:583-632, do_recover_data down to the loop over the index
    range.  [inl err]: control has left for [out:], or for [err:] where the
    dnode is put, and do_recover_data returns [err].  [inr]: control is at
    the loop, with the bounds [start] and [end_] of the index range, the
    dnode of the live node page and the node info. *)
Definition do_recover_data_prepare (rounds : nat) (i : inode) (page : page)
  : M (Z + Z * Z * dnode_of_data * node_info) :=
  (* step 1: recover xattr *)
  '(err, out) <- (if IS_INODE page then
                    err <- perform (f3fs_recover_inline_xattr i page) ;;
                    ret (err, nz err)
                  else if f3fs_has_xattr_block (ofs_of_node page) then
                    err <- perform (f3fs_recover_xattr_data i page) ;;
                    ret (err, true)
                  else ret (0, false)) ;;
  if out then ret (inl err)
  else
    (* step 2: recover inline data *)
    err <- perform (f3fs_recover_inline_data i page) ;;
    if nz err then ret (inl (if err =? 1 then 0 else err))
    else
      (* step 3: recover data indices *)
      start <- read (f3fs_start_bidx_of_node (ofs_of_node page) i) ;;
      addrs <- read (ADDRS_PER_PAGE page i) ;;
      let end_ := u32 (start + addrs) in
      let dn := set_new_dnode i 0 0 0 in
      '(err, dn) <- do_recover_data_get_dnode rounds dn start ;;
      if nz err then ret (inl err)                      (* goto out *)
      else
        perform (f3fs_wait_on_page_writeback (dn_node_page dn)) ;;
        '(err, ni) <- perform (f3fs_get_node_info (dn_nid dn)) ;;
        if nz err then perform (f3fs_put_dnode dn) ;; ret (inl err)
        else
          perform (f3fs_bug_on (negb (ni_ino ni =? ino_of_node page))) ;;
          ofs <- read (ofs_of_node_page (dn_node_page dn)) ;;
          if negb (ofs =? ofs_of_node page) then
            perform (f3fs_put_dnode dn) ;; ret (inl (- EFSCORRUPTED))
          else ret (inr (start, end_, dn, ni)).

(** recovery.c:575. *)
Definition do_recover_data (rounds : nat) (i : inode) (page : page) : M Z :=
  (* step 1: recover xattr *)
  '(err, out) <- (if IS_INODE page then
                    err <- perform (f3fs_recover_inline_xattr i page) ;;
                    ret (err, nz err)
                  else if f3fs_has_xattr_block (ofs_of_node page) then
                    err <- perform (f3fs_recover_xattr_data i page) ;;
                    ret (err, true)
                  else ret (0, false)) ;;
  if out then ret err
  else
    (* step 2: recover inline data *)
    err <- perform (f3fs_recover_inline_data i page) ;;
    if nz err then ret (if err =? 1 then 0 else err)
    else
      (* step 3: recover data indices *)
      start <- read (f3fs_start_bidx_of_node (ofs_of_node page) i) ;;
      addrs <- read (ADDRS_PER_PAGE page i) ;;
      let end_ := u32 (start + addrs) in
      let dn := set_new_dnode i 0 0 0 in
      '(err, dn) <- do_recover_data_get_dnode rounds dn start ;;
      if nz err then ret err                            (* goto out *)
      else
        perform (f3fs_wait_on_page_writeback (dn_node_page dn)) ;;
        '(err, ni) <- perform (f3fs_get_node_info (dn_nid dn)) ;;
        if nz err then perform (f3fs_put_dnode dn) ;; ret err
        else
          perform (f3fs_bug_on (negb (ni_ino ni =? ino_of_node page))) ;;
          ofs <- read (ofs_of_node_page (dn_node_page dn)) ;;
          if negb (ofs =? ofs_of_node page) then
            perform (f3fs_put_dnode dn) ;; ret (- EFSCORRUPTED)
          else do_recover_data_slots rounds i page ni start end_ dn.

(** ** The repair pass *)

(** The three lists recover_data works on. *)
Record fsync_lists := {
  inode_list : fsync_list;
  tmp_inode_list : fsync_list;
  dir_list : fsync_list
}.

(** recovery.c:751-780, one block of recover_data between the lookup of the
    entry and the label [next:].  [inl e]: the loop is left by [break] with
    [err = e]; [inr e]: control reaches [next:] with [err = e]. *)
Definition recover_data_block (rounds : nat) (ls : fsync_lists)
    (blkaddr : block_t) (page : page) (err : Z) : M ((Z + Z) * fsync_lists) :=
  match get_fsync_inode (inode_list ls) (ino_of_node page) with
  | None => ret (inr err, ls)
  | Some entry =>
      let e := snd entry in
      (* inode(x) | CP | inode(x) | dnode(F): we can lose the latest inode(x),
         so call recover_inode for the inode update. *)
      err <- (if IS_INODE page then recover_inode (e_inode e) page else ret err) ;;
      if IS_INODE page && nz err then ret (inl err, ls)
      else
        '(err, dl) <- (if e_last_dentry e =? blkaddr
                       then recover_dentry rounds (e_inode e) page (dir_list ls)
                       else ret (err, dir_list ls)) ;;
        let ls := {| inode_list := inode_list ls;
                     tmp_inode_list := tmp_inode_list ls; dir_list := dl |} in
        if (e_last_dentry e =? blkaddr) && nz err then ret (inl err, ls)
        else
          err <- do_recover_data rounds (e_inode e) page ;;
          if nz err then ret (inl err, ls)
          else if e_blkaddr e =? blkaddr then
            (* list_move_tail(&entry->list, tmp_inode_list) *)
            ret (inr err,
                 {| inode_list := list_del (inode_list ls) (fst entry);
                    tmp_inode_list := tmp_inode_list ls ++ [e];
                    dir_list := dir_list ls |})
          else ret (inr err, ls)
  end.

(** recovery.c:734, the [while (1)] of recover_data. *)
Fixpoint recover_data_loop (rounds : nat) (n : nat) (ls : fsync_lists)
    (blkaddr : block_t) (ra_blocks err : Z) : M (Z * fsync_lists) :=
  match n with
  | O => out_of_rounds
  | S n' =>
      if negb (f3fs_is_valid_blkaddr blkaddr META_POR) then ret (err, ls)
      else
        r <- perform (f3fs_get_tmp_page blkaddr) ;;
        match r with
        | inl e => ret (e, ls)                          (* IS_ERR(page) *)
        | inr page =>
            if negb (is_recoverable_dnode page) then
              perform (f3fs_put_page (page_ref page) 1) ;; ret (err, ls)
            else
              '(r, ls) <- recover_data_block rounds ls blkaddr page err ;;
              match r with
              | inl e => perform (f3fs_put_page (page_ref page) 1) ;; ret (e, ls)
              | inr err =>
                  let ra_blocks := adjust_por_ra_blocks ra_blocks blkaddr
                                     (next_blkaddr_of_node page) in
                  (* check next segment *)
                  let blkaddr := next_blkaddr_of_node page in
                  perform (f3fs_put_page (page_ref page) 1) ;;
                  perform (f3fs_ra_meta_pages_cond blkaddr ra_blocks) ;;
                  recover_data_loop rounds n' ls blkaddr ra_blocks err
              end
        end
  end.

(** recovery.c:721. *)
Definition recover_data (rounds : nat) (ls : fsync_lists) : M (Z * fsync_lists) :=
  (* get node pages in the current segment *)
  blkaddr <- read (NEXT_FREE_BLKADDR CURSEG_WARM_NODE) ;;
  '(err, ls) <- recover_data_loop rounds rounds ls blkaddr RECOVERY_MAX_RA_BLOCKS 0 ;;
  (if negb (nz err) then perform f3fs_allocate_new_segments else ret tt) ;;
  ret (err, ls).

(** ** The orchestrator *)

Definition list_empty (head : fsync_list) : bool :=
  match head with [] => true | _ => false end.

(** What f3fs_recover_fsync_data holds when control reaches [skip:]. *)
Record at_skip := {
  sk_err : Z;
  sk_ret : Z;
  sk_need_writecp : bool;
  sk_lists : fsync_lists
}.

(** recovery.c:826-843: step #1 and step #2, down to the label [skip:]. *)
Definition f3fs_recover_fsync_data_steps (rounds : nat) (check_only : bool)
  : M at_skip :=
  (* step #1: find fsynced inode numbers *)
  '(err, il) <- find_fsync_dnodes rounds [] check_only ;;
  let ls := {| inode_list := il; tmp_inode_list := []; dir_list := [] |} in
  if nz err || list_empty il then
    ret {| sk_err := err; sk_ret := 0; sk_need_writecp := false; sk_lists := ls |}
  else if check_only then
    ret {| sk_err := err; sk_ret := 1; sk_need_writecp := false; sk_lists := ls |}
  else
    (* step #2: recover data *)
    '(err, ls) <- recover_data rounds ls ;;
    (if negb (nz err) then
       perform (f3fs_bug_on (negb (list_empty (inode_list ls))))
     else
       flags <- read sb_s_flags ;;
       perform (f3fs_bug_on (nz (Z.land flags SB_ACTIVE)))) ;;
    ret {| sk_err := err; sk_ret := 0; sk_need_writecp := true; sk_lists := ls |}.

(** recovery.c:844-896, f3fs_recover_fsync_data from the label [skip:] on;
    [s_flags] and [quota_enabled] are the two locals set before step #1. *)
Definition f3fs_recover_fsync_data_skip (check_only : bool)
    (s_flags quota_enabled : Z) (sk : at_skip) : M Z :=
  let err := sk_err sk in
  let fix_curseg_write_pointer :=
    negb check_only || list_empty (inode_list (sk_lists sk)) in
  destroy_fsync_dnodes (inode_list (sk_lists sk)) err ;;
  destroy_fsync_dnodes (tmp_inode_list (sk_lists sk)) err ;;
  (* truncate meta pages to be used by the recovery *)
  perform (truncate_inode_pages_range META_MAPPING
             (Z.shiftl MAIN_BLKADDR PAGE_SHIFT) (-1)) ;;
  (if nz err then
     perform (truncate_inode_pages_final NODE_MAPPING) ;;
     perform (truncate_inode_pages_final META_MAPPING)
   else ret tt) ;;
  (* If fsync data succeeds or there is no fsync data to recover, and the
     f3fs is not read only, check and fix zoned block devices' write pointer
     consistency. *)
  ro <- read f3fs_readonly ;;
  zoned <- read f3fs_sb_has_blkzoned ;;
  '(err, ret_) <- (if negb (nz err) && fix_curseg_write_pointer && negb ro && zoned
                   then
                     err <- perform f3fs_fix_curseg_write_pointer ;;
                     ret (err, err)
                   else ret (err, sk_ret sk)) ;;
  (if negb (nz err) then perform (clear_sbi_flag SBI_POR_DOING) else ret tt) ;;
  perform f3fs_up_write_cp_global_sem ;;
  (* let's drop all the directory inodes for clean checkpoint *)
  destroy_fsync_dnodes (dir_list (sk_lists sk)) err ;;
  err <- (if sk_need_writecp sk then
            perform (set_sbi_flag SBI_IS_RECOVERED) ;;
            if negb (nz err) then perform (f3fs_write_checkpoint CP_RECOVERY)
            else ret err
          else ret err) ;;
  (* Turn quotas off *)
  (if CONFIG_QUOTA && nz quota_enabled then perform f3fs_quota_off_umount
   else ret tt) ;;
  perform (sb_s_flags_store s_flags) ;;               (* Restore SB_RDONLY status *)
  ret (if nz ret_ then ret_ else err).

(** recovery.c:802-824, f3fs_recover_fsync_data down to step #1: the
    values of its locals [s_flags] and [quota_enabled]. *)
Definition f3fs_recover_fsync_data_preamble : M (Z * Z) :=
  s_flags <- read sb_s_flags ;;
  (if nz (Z.land s_flags SB_RDONLY) then
     cur <- read sb_s_flags ;;
     perform (sb_s_flags_store (Z.land cur (Z.lnot SB_RDONLY)))
   else ret tt) ;;
  (* Turn on quotas so that they are updated correctly *)
  quota_enabled <- (if CONFIG_QUOTA
                    then perform (f3fs_enable_quota_files (nz (Z.land s_flags SB_RDONLY)))
                    else ret 0) ;;
  (* prevent checkpoint *)
  perform f3fs_down_write_cp_global_sem ;;
  ret (s_flags, quota_enabled).

(** recovery.c:796. *)
Definition f3fs_recover_fsync_data (rounds : nat) (check_only : bool) : M Z :=
  s_flags <- read sb_s_flags ;;
  (if nz (Z.land s_flags SB_RDONLY) then
     cur <- read sb_s_flags ;;
     perform (sb_s_flags_store (Z.land cur (Z.lnot SB_RDONLY)))
   else ret tt) ;;
  (* Turn on quotas so that they are updated correctly *)
  quota_enabled <- (if CONFIG_QUOTA
                    then perform (f3fs_enable_quota_files (nz (Z.land s_flags SB_RDONLY)))
                    else ret 0) ;;
  (* prevent checkpoint *)
  perform f3fs_down_write_cp_global_sem ;;
  sk <- f3fs_recover_fsync_data_steps rounds check_only ;;
  f3fs_recover_fsync_data_skip check_only s_flags quota_enabled sk.

End Model.

Arguments Ev {K R} _ _ _.

(** ** A test kernel

    The kernel of the worked traces: a 32-segment main area of 8-block
    segments that starts at block 64, and collaborators that answer a call
    from a table or, where the table is silent, with success.  It keeps no
    state of its own. *)

Module Sim.

Record config := {
  disk : block_t -> option page;          (* the node pages of the log *)
  start_blkaddr : block_t;                (* next free block of the warm node segment *)
  valid_blocks : Z;                       (* valid_user_blocks(sbi) *)
  answer : forall R : Type, call R -> option R;
  look : forall R : Type, query R -> option R;
  fault_injection : bool
}.

Definition EIO : Z := 5.

Definition zero_summary : f3fs_summary :=
  {| sum_nid := 0; sum_ofs_in_node := 0; sum_version := 0 |}.

Definition default_answer (cfg : config) (R : Type) (c : call R) : R :=
  match c in call R return R with
  | f3fs_iget_retry ino => inr {| i_ino := ino |}
  | iput _ => tt
  | f3fs_inode_synced _ => tt
  | f3fs_dquot_initialize _ => 0
  | dquot_alloc_inode _ => 0
  | dquot_transfer _ _ => 0
  | f3fs_transfer_project_quota _ _ => 0
  | f3fs_acquire_orphan_inode => 0
  | inode_store _ _ _ => tt
  | i_uid_write _ _ => tt
  | i_gid_write _ _ => tt
  | f3fs_i_size_write _ _ => tt
  | f3fs_set_inode_flags _ => tt
  | set_inode_flag _ _ => tt
  | clear_inode_flag _ _ => tt
  | f3fs_mark_inode_dirty_sync _ _ => tt
  | set_sbi_flag _ => tt
  | clear_sbi_flag _ => tt
  | sb_s_flags_store _ => tt
  | f3fs_bug_on _ => tt
  | f3fs_enable_quota_files _ => 0
  | f3fs_quota_off_umount => tt
  | f3fs_down_write_cp_global_sem => tt
  | f3fs_up_write_cp_global_sem => tt
  | f3fs_write_checkpoint _ => 0
  | f3fs_fix_curseg_write_pointer => 0
  | f3fs_allocate_new_segments => tt
  | f3fs_init_casefolded_name _ fname => (0, fname)
  | f3fs_hash_filename _ fname => fname
  | kmem_cache_free_cf_name _ => tt
  | __f3fs_find_entry _ _ => (None, 0)
  | f3fs_delete_entry _ _ _ _ => tt
  | f3fs_add_dentry _ _ _ _ _ => 0
  | f3fs_get_tmp_page blkaddr =>
      match disk cfg blkaddr with Some p => inr p | None => inl (- EIO) end
  | f3fs_get_node_page _ => inl (- EIO)
  | f3fs_get_sum_page _ => inl (- EIO)
  | f3fs_put_page _ _ => tt
  | f3fs_ra_meta_pages_cond _ _ => tt
  | lock_page _ => tt
  | unlock_page _ => tt
  | set_page_dirty _ => tt
  | f3fs_wait_on_page_writeback _ => tt
  | truncate_inode_pages_range _ _ _ => tt
  | truncate_inode_pages_final _ => tt
  | memalloc_retry_wait => tt
  | f3fs_recover_inode_page _ => 0
  | f3fs_recover_inline_xattr _ _ => 0
  | f3fs_recover_xattr_data _ _ => 0
  | f3fs_recover_inline_data _ _ => 0
  | f3fs_get_dnode_of_data dn _ _ => (0, dn)
  | f3fs_put_dnode _ => tt
  | f3fs_get_node_info nid =>
      (0, {| ni_nid := nid; ni_ino := 0; ni_blk_addr := 0; ni_version := 0; ni_flag := 0 |})
  | f3fs_truncate_data_blocks_range dn _ => dn
  | f3fs_reserve_new_block dn => (0, dn)
  | f3fs_replace_block dn _ _ _ _ _ => dn
  | copy_node_footer _ _ => tt
  | fill_node_footer _ _ _ _ _ => tt
  end.

Definition default_look (cfg : config) (R : Type) (q : query R) : R :=
  match q in query R return R with
  | IS_ENCRYPTED _ => false
  | IS_CASEFOLDED _ => false
  | file_keep_isize _ => false
  | i_size_read _ => 0
  | inode_i_mode _ => 0
  | inode_i_projid _ => 0
  | i_uid_into_vfsuid _ => 0
  | i_gid_into_vfsgid _ => 0
  | make_kuid uid => uid
  | make_kgid gid => gid
  | make_kprojid projid => projid
  | f3fs_sb_has_project_quota => false
  | f3fs_sb_has_blkzoned => false
  | f3fs_readonly => false
  | sb_s_flags => 0
  | valid_user_blocks => valid_blocks cfg
  | NEXT_FREE_BLKADDR _ => start_blkaddr cfg
  | curseg_segno _ => -1
  | curseg_sum_entry _ _ => zero_summary
  | test_cur_valid_map _ _ => false
  | f3fs_data_blkaddr _ => 0
  | data_blkaddr _ _ _ => 0
  | ADDRS_PER_PAGE _ _ => 0
  | f3fs_start_bidx_of_node _ _ => 0
  | ofs_of_node_page _ => 0
  end.

(** The four bytes at [off] of [name], read as a little-endian word. *)
Definition le32_at (name : list Z) (off : Z) : Z :=
  let b k := nth (Z.to_nat (off + k)) name 0 in
  b 0 + 2 ^ 8 * b 1 + 2 ^ 16 * b 2 + 2 ^ 24 * b 3.

Definition kernel (cfg : config) : Kernel := {|
  kstate := unit;
  rd R q _ := match look cfg R q with Some r => r | None => default_look cfg R q end;
  sem R c s := (match answer cfg R c with Some r => r | None => default_answer cfg R c end, s);
  NULL_ADDR := 0;
  NEW_ADDR := 2 ^ 32 - 1;
  F3FS_NAME_LEN := 255;
  PAGE_SHIFT := 12;
  RECOVERY_MAX_RA_BLOCKS := 256;
  RECOVERY_MIN_RA_BLOCKS := 1;
  F3FS_PIN_FILE := 64;
  F3FS_DATA_EXIST := 8;
  F3FS_EXTRA_ATTR := 32;
  blocks_per_seg := 8;
  MAIN_SEGS := 32;
  MAIN_BLKADDR := 64;
  GET_SEGNO blkaddr := (blkaddr - 64) / 8;
  GET_BLKOFF_FROM_SEG0 blkaddr := (blkaddr - 64) mod 8;
  f3fs_is_valid_blkaddr blkaddr _ := (64 <=? blkaddr) && (blkaddr <? 64 + 32 * 8);
  f3fs_has_xattr_block ofs := ofs =? 2 ^ 29 - 1;
  F3FS_FITS_IN_INODE_i_projid extra_isize := 12 <=? extra_isize;
  get_unaligned_hash := le32_at;
  CONFIG_QUOTA := true;
  CONFIG_UNICODE := true;
  CONFIG_F3FS_FAULT_INJECTION := fault_injection cfg
|}.

(** No table: every collaborator succeeds. *)
Definition no_answer (R : Type) (c : call R) : option R := None.
Definition no_look (R : Type) (q : query R) : option R := None.

(** An empty log. *)
Definition boot (cfg : config) : @world (kernel cfg) :=
  {| w_st := tt : @kstate (kernel cfg); w_trace := [] |}.

(** A raw inode with every field zero but those given. *)
Definition raw_inode (mode uid pino : Z) (name : list Z) : f3fs_inode :=
  {| i_mode := mode; i_advise := 0; i_inline := 0; i_uid := uid; i_gid := 0;
     i_size := 0; i_atime := 0; i_ctime := 0; i_mtime := 0;
     i_atime_nsec := 0; i_ctime_nsec := 0; i_mtime_nsec := 0;
     i_flags := 0; i_pino := pino; i_namelen := Z.of_nat (length name);
     i_name := name; i_extra_isize := 0; i_projid := 0; i_gc_failures := 0 |}.

(** A recoverable direct node of [ino] in the log. *)
Definition dnode (ref : pgref) (ino nid : nid_t) (fsync : bool) (next : block_t) : page :=
  {| page_ref := ref; ino_of_node := ino; nid_of_node := nid; ofs_of_node := 1;
     next_blkaddr_of_node := next; is_fsync_dnode := fsync; is_dent_dnode := false;
     is_recoverable_dnode := true; IS_INODE := false;
     F3FS_INODE := raw_inode 0 0 0 [] |}.

(** A recoverable inode page of [ino] in the log. *)
Definition inode_page (ref : pgref) (ino : nid_t) (fsync dent : bool)
    (raw : f3fs_inode) (next : block_t) : page :=
  {| page_ref := ref; ino_of_node := ino; nid_of_node := ino; ofs_of_node := 0;
     next_blkaddr_of_node := next; is_fsync_dnode := fsync; is_dent_dnode := dent;
     is_recoverable_dnode := true; IS_INODE := true; F3FS_INODE := raw |}.

End Sim.

(** * Reading the log *)

Section Log.
Context {K : Kernel}.

(** What the log has gained between two worlds. *)
Definition grows (w w' : world) (l : list event) : Prop :=
  w_trace w' = w_trace w ++ l.

(** A computation that returns from every world. *)
Definition returns {A} (m : M A) : Prop :=
  forall w, exists a w', m w = Some (a, w').






(** The answer of a lookup of a dnode in LOOKUP_NODE mode, if [ev] is one. *)
Definition lookup_answer (ev : event) : option (Z * dnode_of_data) :=
  match ev with
  | Ev _ c r =>
      match c in call R return R -> option (Z * dnode_of_data) with
      | f3fs_get_dnode_of_data _ _ LOOKUP_NODE => fun r => Some r
      | _ => fun _ => None
      end r
  end.

(** Calls that take or give back a reference (to a page, an inode with its
    quota context, a dnode) or a page lock, and change no index. *)
Definition acquires_or_releases (ev : event) : bool :=
  match ev with
  | Ev _ c _ =>
      match c with
      | f3fs_get_sum_page _ | f3fs_get_node_page _ | f3fs_put_page _ _
      | lock_page _ | unlock_page _
      | f3fs_iget_retry _ | f3fs_dquot_initialize _ | iput _
      | f3fs_get_dnode_of_data _ _ LOOKUP_NODE | f3fs_put_dnode _ => true
      | _ => false
      end
  end.

(** The calls of a log that are none of these. *)
Definition mutations (l : list event) : list event :=
  filter (fun ev => negb (acquires_or_releases ev)) l.

(** The error with which [ev] failed to get a summary page, a node page,
    an inode or its quota context, if [ev] is such a call and failed. *)
Definition acquire_error (ev : event) : option Z :=
  match ev with
  | Ev _ c r =>
      match c in call R return R -> option Z with
      | f3fs_get_sum_page _ =>
          fun r => match r with inl e => Some e | inr _ => None end
      | f3fs_get_node_page _ =>
          fun r => match r with inl e => Some e | inr _ => None end
      | f3fs_iget_retry _ =>
          fun r => match r with inl e => Some e | inr _ => None end
      | f3fs_dquot_initialize _ => fun r => if nz r then Some r else None
      | _ => fun _ => None
      end r
  end.


(** recovery.c:662-665: the call that extends i_size to cover the slot
    [start], when the file does not keep its size and ends before the slot. *)
Definition size_extension (i : inode) (start : Z) (w : world) : list action :=
  if negb (rd (file_keep_isize i) (w_st w))
     && (rd (i_size_read i) (w_st w) <=? Z.shiftl start PAGE_SHIFT)
  then [Act (f3fs_i_size_write i (Z.shiftl (start + 1) PAGE_SHIFT))]
  else [].

(** The two addresses of a slot: the one the live dnode holds and the one
    the recovered node page records. *)
Definition slot_src (dn : dnode_of_data) (w : world) : block_t :=
  rd (f3fs_data_blkaddr dn) (w_st w).

Definition slot_dest (page : page) (dn : dnode_of_data) (w : world) : block_t :=
  rd (data_blkaddr (dn_inode dn) page (dn_ofs_in_node dn)) (w_st w).

(** An address fails the sanity check of recovery.c:640-650: it is neither
    of the two sentinels and META_POR refuses it. *)
Definition corrupt_blkaddr (a : block_t) : bool :=
  __is_valid_data_blkaddr a && negb (f3fs_is_valid_blkaddr a META_POR).

(** The loop of recovery.c:634 over the index range [start, end_), slot by
    slot: every slot is repaired in the dnode and the world the slot before
    it left, [ofs_in_node] moving on with [start]; the loop ends behind the
    last slot of the range with 0, or at the first slot that is left with
    an error, with that error. *)
Inductive index_range_repaired (rounds : nat) (i : inode) (page : page)
    (ni : node_info)
  : Z -> Z -> dnode_of_data -> world -> Z -> dnode_of_data -> world -> Prop :=
| range_done (start end_ : Z) (dn : dnode_of_data) (w : world) :
    end_ <= start ->
    index_range_repaired rounds i page ni start end_ dn w 0 dn w
| range_stop (start end_ : Z) (dn dn' : dnode_of_data) (w w' : world) (e : Z) :
    start < end_ ->
    do_recover_data_index rounds i page ni start dn w = Some (e, dn', w') ->
    e <> 0 ->
    index_range_repaired rounds i page ni start end_ dn w e dn' w'
| range_next (start end_ : Z) (dn dn1 dn' : dnode_of_data) (w w1 w' : world) (e : Z) :
    start < end_ ->
    do_recover_data_index rounds i page ni start dn w = Some (0, dn1, w1) ->
    index_range_repaired rounds i page ni (start + 1) end_
      (dn_set_ofs_in_node dn1 (u32 (dn_ofs_in_node dn1 + 1))) w1 e dn' w' ->
    index_range_repaired rounds i page ni start end_ dn w e dn' w'.

(** Every call a computation makes satisfies [P]. *)
Definition all_calls (P : event -> Prop) {A} (m : M A) : Prop :=
  forall w a w', m w = Some (a, w') -> exists l, grows w w' l /\ Forall P l.



(** The block a page of the log was asked for and the answer, if [ev] is an
    f3fs_get_tmp_page. *)
Definition tmp_read (ev : event) : option (block_t * (Z + page)) :=
  match ev with
  | Ev _ c r =>
      match c in call R return R -> option (block_t * (Z + page)) with
      | f3fs_get_tmp_page blkaddr => fun r => Some (blkaddr, r)
      | _ => fun _ => None
      end r
  end.

(** The reads of the log a computation has made, in order. *)
Fixpoint tmp_reads (l : list event) : list (block_t * (Z + page)) :=
  match l with
  | [] => []
  | ev :: rest =>
      match tmp_read ev with
      | Some x => x :: tmp_reads rest
      | None => tmp_reads rest
      end
  end.

(** A call that is no read of the log. *)
Definition no_tmp_read (ev : event) : Prop := tmp_read ev = None.

(** The last block of [reads] that was read as a recoverable node page with
    the fsync mark of the inode [ino]. *)
Fixpoint last_fsync_block (ino : nid_t) (reads : list (block_t * (Z + page)))
  : option block_t :=
  match reads with
  | [] => None
  | (b, r) :: rest =>
      match last_fsync_block ino rest with
      | Some b' => Some b'
      | None =>
          match r with
          | inr p =>
              if is_recoverable_dnode p && is_fsync_dnode p && (ino_of_node p =? ino)
              then Some b else None
          | inl _ => None
          end
      end
  end.

(** Every entry of the table records the last block of [reads] that
    carries the fsync mark of its inode. *)
Definition records_last (head : fsync_list) (reads : list (block_t * (Z + page)))
  : Prop :=
  forall ino q e, get_fsync_inode head ino = Some (q, e) ->
    last_fsync_block ino reads = Some (e_blkaddr e).

(** Every read but the last got a page, and the next read is of the block
    the footer of that page names, which is another block. *)
Fixpoint follows_chain (reads : list (block_t * (Z + page))) : Prop :=
  match reads with
  | [] => True
  | (blkaddr, r) :: rest =>
      match rest with
      | [] => True
      | (blkaddr', _) :: _ =>
          (exists p, r = inr p /\ blkaddr' = next_blkaddr_of_node p /\
                     blkaddr' <> blkaddr) /\
          follows_chain rest
      end
  end.

(** Some block occurs twice in a list of blocks. *)
Fixpoint revisits (blocks : list block_t) : bool :=
  match blocks with
  | [] => false
  | b :: rest => existsb (Z.eqb b) rest || revisits rest
  end.

(** [R] holds of the blocks of a chain that never ends: each is accepted
    by META_POR and read, in whatever state, as a recoverable page whose
    footer names another block of the chain. *)
Definition chain_never_ends (R : block_t -> Prop) : Prop :=
  forall a, R a ->
    f3fs_is_valid_blkaddr a META_POR = true /\
    forall s, exists p s',
      sem (f3fs_get_tmp_page a) s = (inr p, s') /\
      is_recoverable_dnode p = true /\
      R (next_blkaddr_of_node p).

(** The calls of discovery into the node layer, the inode cache and quota
    do not fail, but for an inode that is not there. *)
Definition discovery_calls_succeed : Prop :=
  (forall p s, fst (sem (f3fs_recover_inode_page p) s) = 0) /\
  (forall i s, fst (sem (f3fs_dquot_initialize i) s) = 0) /\
  (forall i s, fst (sem (dquot_alloc_inode i) s) = 0) /\
  (forall ino s e, fst (sem (f3fs_iget_retry ino) s) = inl e -> e = - ENOENT).


(** A call that is no write of a checkpoint. *)
Definition no_checkpoint (ev : event) : Prop :=
  match ev with
  | Ev _ (f3fs_write_checkpoint _) _ => False
  | _ => True
  end.

(** The answer of an f3fs_fix_curseg_write_pointer, if [ev] is one. *)
Definition fix_answer (ev : event) : option Z :=
  match ev with
  | Ev _ c r =>
      match c in call R return R -> option Z with
      | f3fs_fix_curseg_write_pointer => fun r => Some r
      | _ => fun _ => None
      end r
  end.

(** The answers of the f3fs_fix_curseg_write_pointer calls of a log. *)
Fixpoint fix_answers (l : list event) : list Z :=
  match l with
  | [] => []
  | ev :: rest =>
      match fix_answer ev with
      | Some e => e :: fix_answers rest
      | None => fix_answers rest
      end
  end.

(** The calls f3fs_recover_fsync_data makes before step #1. *)
Definition preamble_call (ev : event) : Prop :=
  match ev with
  | Ev _ c _ =>
      match c with
      | sb_s_flags_store _ | f3fs_enable_quota_files _
      | f3fs_down_write_cp_global_sem => True
      | _ => False
      end
  end.


(** What f3fs_recover_fsync_data holds at [skip:] when discovery has come
    back with [err] and the table [il] and the repair pass is not entered. *)
Definition skipped (check_only : bool) (err : Z) (il : fsync_list) : at_skip :=
  {| sk_err := err;
     sk_ret := if nz err || list_empty il then 0 else if check_only then 1 else 0;
     sk_need_writecp := false;
     sk_lists := {| inode_list := il; tmp_inode_list := []; dir_list := [] |} |}.

End Log.

(** * Reading the log: the passes and the orchestrator *)

Section Coverage.
Context {K : Kernel}.

(** What destroy_fsync_dnodes does for the entries of a list, head first:
    the inode of an entry that is dropped is marked synced, and every
    inode is put. *)
Definition releases (drop : Z) (head : fsync_list) : list action :=
  flat_map (fun e =>
              (if nz drop then [Act (f3fs_inode_synced (e_inode e))] else [])
              ++ [Act (iput (e_inode e))]) head.

(** The calls f3fs_recover_fsync_data makes in its own body. *)
Definition orchestrator_action (a : action) : bool :=
  match a with
  | Act c =>
      match c with
      | sb_s_flags_store _ | f3fs_enable_quota_files _ | f3fs_quota_off_umount
      | f3fs_down_write_cp_global_sem | f3fs_up_write_cp_global_sem
      | truncate_inode_pages_range _ _ _ | truncate_inode_pages_final _
      | f3fs_fix_curseg_write_pointer | clear_sbi_flag _
      | set_sbi_flag SBI_POR_DOING | set_sbi_flag SBI_IS_RECOVERED
      | f3fs_write_checkpoint _ => true
      | _ => false
      end
  end.

Definition orchestrator_call (ev : event) : bool := orchestrator_action (action_of ev).

(** The calls of a log that f3fs_recover_fsync_data made in its own body. *)
Definition orchestration (l : list event) : list action :=
  filter orchestrator_action (calls l).

(** The checkpoint lock and the checkpoint. *)
Definition sync_action (a : action) : bool :=
  match a with
  | Act c =>
      match c with
      | f3fs_down_write_cp_global_sem | f3fs_up_write_cp_global_sem
      | f3fs_write_checkpoint _ => true
      | _ => false
      end
  end.

(** The answer of an f3fs_enable_quota_files, if [ev] is one. *)
Definition quota_on_answer (ev : event) : option Z :=
  match ev with
  | Ev _ c r =>
      match c in call R return R -> option Z with
      | f3fs_enable_quota_files _ => fun r => Some r
      | _ => fun _ => None
      end r
  end.

(** The answers of the f3fs_enable_quota_files calls of a log. *)
Definition quota_on_answers (l : list event) : list Z :=
  flat_map (fun ev => match quota_on_answer ev with Some e => [e] | None => [] end) l.

(** A call of the catalogue [f]. *)
Definition calls_only (f : action -> bool) (ev : event) : Prop :=
  f (action_of ev) = true.

(** The calls of recover_inode. *)
Definition inode_action (a : action) : bool :=
  match a with
  | Act c =>
      match c with
      | inode_store _ _ _ | dquot_transfer _ _ | set_sbi_flag SBI_QUOTA_NEED_REPAIR
      | i_uid_write _ _ | i_gid_write _ _ | f3fs_transfer_project_quota _ _
      | f3fs_i_size_write _ _ | f3fs_set_inode_flags _
      | set_inode_flag _ _ | clear_inode_flag _ _
      | f3fs_mark_inode_dirty_sync _ _ => true
      | _ => false
      end
  end.

(** The calls that look into a directory or change it. *)
Definition directory_action (a : action) : bool :=
  match a with
  | Act c =>
      match c with
      | f3fs_init_casefolded_name _ _ | f3fs_hash_filename _ _
      | __f3fs_find_entry _ _ | f3fs_delete_entry _ _ _ _
      | f3fs_add_dentry _ _ _ _ _ => true
      | _ => false
      end
  end.

(** The calls of recover_dentry. *)
Definition dentry_action (a : action) : bool :=
  match a with
  | Act c =>
      match c with
      | f3fs_iget_retry _ | f3fs_dquot_initialize _ | iput _
      | f3fs_init_casefolded_name _ _ | f3fs_hash_filename _ _
      | kmem_cache_free_cf_name _ | __f3fs_find_entry _ _ | f3fs_put_page _ _
      | f3fs_acquire_orphan_inode | f3fs_delete_entry _ _ _ _
      | f3fs_add_dentry _ _ _ _ _ => true
      | _ => false
      end
  end.

(** The calls of the loop of do_recover_data over the slots, with those of
    the collision resolver. *)
Definition index_action (a : action) : bool :=
  match a with
  | Act c =>
      match c with
      | f3fs_truncate_data_blocks_range _ _ | f3fs_i_size_write _ _
      | f3fs_reserve_new_block _ | f3fs_bug_on _ | f3fs_replace_block _ _ _ _ _ _
      | memalloc_retry_wait
      | f3fs_get_sum_page _ | f3fs_get_node_page _ | f3fs_put_page _ _
      | lock_page _ | unlock_page _
      | f3fs_iget_retry _ | f3fs_dquot_initialize _ | iput _
      | f3fs_get_dnode_of_data _ _ LOOKUP_NODE | f3fs_put_dnode _ => true
      | _ => false
      end
  end.

(** The calls of do_recover_data. *)
Definition data_action (a : action) : bool :=
  index_action a ||
  match a with
  | Act c =>
      match c with
      | f3fs_recover_inline_xattr _ _ | f3fs_recover_xattr_data _ _
      | f3fs_recover_inline_data _ _ | f3fs_get_dnode_of_data _ _ ALLOC_NODE
      | f3fs_wait_on_page_writeback _ | f3fs_get_node_info _
      | copy_node_footer _ _ | fill_node_footer _ _ _ _ _ | set_page_dirty _ => true
      | _ => false
      end
  end.


(** The calls with which a pass walks the chain. *)
Definition walk_action (a : action) : bool :=
  match a with
  | Act c =>
      match c with
      | f3fs_get_tmp_page _ | f3fs_put_page _ _ | f3fs_ra_meta_pages_cond _ _ => true
      | _ => false
      end
  end.

(** The calls recover_data makes for one block of the chain. *)
Definition block_action (a : action) : bool :=
  inode_action a || dentry_action a || data_action a.

(** The calls of the loop of recover_data. *)
Definition repair_action (a : action) : bool :=
  walk_action a || block_action a.

(** The number of blocks an f3fs_ra_meta_pages_cond asks to read ahead, if
    [ev] is one. *)
Definition ra_request (ev : event) : option Z :=
  match ev with
  | Ev _ (f3fs_ra_meta_pages_cond _ ra_blocks) _ => Some ra_blocks
  | _ => None
  end.

(** A read-ahead request, if [ev] is one, is for a number of blocks within
    the bounds. *)
Definition ra_bounded (ev : event) : Prop :=
  forall ra_blocks, ra_request ev = Some ra_blocks ->
    RECOVERY_MIN_RA_BLOCKS <= ra_blocks <= RECOVERY_MAX_RA_BLOCKS.

(** The calls the repair pass may make: none of the orchestrator's, no
    materialisation of an inode page, no charge for a quota inode, and no
    inode is marked synced. *)
Definition repair_call (ev : event) : Prop :=
  match ev with
  | Ev _ c _ =>
      match c with
      | sb_s_flags_store _ | f3fs_enable_quota_files _ | f3fs_quota_off_umount
      | f3fs_down_write_cp_global_sem | f3fs_up_write_cp_global_sem
      | truncate_inode_pages_range _ _ _ | truncate_inode_pages_final _
      | f3fs_fix_curseg_write_pointer | clear_sbi_flag _
      | set_sbi_flag SBI_POR_DOING | set_sbi_flag SBI_IS_RECOVERED
      | f3fs_write_checkpoint _
      | f3fs_recover_inode_page _ | dquot_alloc_inode _ | f3fs_inode_synced _ => False
      | _ => True
      end
  end.

(** The answer of an f3fs_write_checkpoint, if [ev] is one. *)
Definition cp_answer (ev : event) : option Z :=
  match ev with
  | Ev _ c r =>
      match c in call R return R -> option Z with
      | f3fs_write_checkpoint _ => fun r => Some r
      | _ => fun _ => None
      end r
  end.

(** The answers of the f3fs_write_checkpoint calls of a log. *)
Definition cp_answers (l : list event) : list Z :=
  flat_map (fun ev => match cp_answer ev with Some e => [e] | None => [] end) l.

(** The error a dquot_transfer answered, if [ev] is a dquot_transfer that
    failed. *)
Definition transfer_failure (ev : event) : option Z :=
  match ev with
  | Ev _ c r =>
      match c in call R return R -> option Z with
      | dquot_transfer _ _ => fun r => if nz r then Some r else None
      | _ => fun _ => None
      end r
  end.

(** The errors of the failed dquot_transfer calls of a log. *)
Definition transfer_failures (l : list event) : list Z :=
  flat_map (fun ev => match transfer_failure ev with Some e => [e] | None => [] end) l.

(** The calls with which a run that has failed in the repair pass comes to
    its end: pages and inodes are released, the page caches recovery used
    are dropped, the checkpoint lock is released, IS_RECOVERED is set, the
    quota files are switched off and s_flags is restored.  No block of the
    log is read, nothing is repaired, no checkpoint is written and
    POR_DOING is not cleared. *)
Definition release_call (ev : event) : Prop :=
  match ev with
  | Ev _ c _ =>
      match c with
      | f3fs_put_page _ _ | f3fs_bug_on _ | iput _ | f3fs_inode_synced _
      | truncate_inode_pages_range _ _ _ | truncate_inode_pages_final _
      | f3fs_up_write_cp_global_sem | set_sbi_flag SBI_IS_RECOVERED
      | f3fs_quota_off_umount | sb_s_flags_store _ => True
      | _ => False
      end
  end.

(** The log [l] holds one failed dquot_transfer, with the error [e]:
    SBI_QUOTA_NEED_REPAIR is set right after it, and only release calls
    follow. *)
Definition transfer_aborts (l : list event) (e : Z) : Prop :=
  exists l1 s i attr s2 l3,
    l = l1 ++ Ev s (dquot_transfer i attr) e
            :: Ev s2 (set_sbi_flag SBI_QUOTA_NEED_REPAIR) tt :: l3 /\
    e <> 0 /\ transfer_failures l1 = [] /\ Forall release_call l3.
End Coverage.
(** * Counting references *)

Section Weights.
Context {K : Kernel}.

(** The references to inodes a call takes (1), gives back (-1) or neither:
    f3fs_iget_retry takes one when it succeeds, iput gives one back. *)
Definition inode_ref (ev : event) : Z :=
  match ev with
  | Ev _ c r =>
      match c in call R return R -> Z with
      | f3fs_iget_retry _ => fun r => match r with inl _ => 0 | inr _ => 1 end
      | iput _ => fun _ => -1
      | _ => fun _ => 0
      end r
  end.

(** The same for dnodes: f3fs_get_dnode_of_data takes one when it answers
    0, f3fs_put_dnode gives one back. *)
Definition dnode_ref (ev : event) : Z :=
  match ev with
  | Ev _ c r =>
      match c in call R return R -> Z with
      | f3fs_get_dnode_of_data _ _ _ => fun r => if nz (fst r) then 0 else 1
      | f3fs_put_dnode _ => fun _ => -1
      | _ => fun _ => 0
      end r
  end.

(** The same for page locks taken with lock_page. *)
Definition page_lock (ev : event) : Z :=
  match ev with
  | Ev _ c _ =>
      match c with
      | lock_page _ => 1
      | unlock_page _ => -1
      | _ => 0
      end
  end.

(** The same for the pages a pass gets locked: a node page of the chain, a
    summary page, a node page the resolver looks at; f3fs_put_page with
    unlock gives one back. *)
Definition locked_page_ref (ev : event) : Z :=
  match ev with
  | Ev _ c r =>
      match c in call R return R -> Z with
      | f3fs_get_tmp_page _ => fun r => match r with inl _ => 0 | inr _ => 1 end
      | f3fs_get_sum_page _ => fun r => match r with inl _ => 0 | inr _ => 1 end
      | f3fs_get_node_page _ => fun r => match r with inl _ => 0 | inr _ => 1 end
      | f3fs_put_page _ unlock => fun _ => if unlock =? 1 then -1 else 0
      | _ => fun _ => 0
      end r
  end.

(** The same for orphan slots: f3fs_acquire_orphan_inode takes one when it
    answers 0, and the deletion of a directory entry uses one up. *)
Definition orphan_slot (ev : event) : Z :=
  match ev with
  | Ev _ c r =>
      match c in call R return R -> Z with
      | f3fs_acquire_orphan_inode => fun r => if nz r then 0 else 1
      | f3fs_delete_entry _ _ _ _ => fun _ => -1
      | _ => fun _ => 0
      end r
  end.

(** What a log adds up to. *)
Definition weight (wt : event -> Z) (l : list event) : Z :=
  fold_right (fun ev z => wt ev + z) 0 l.

(** Every run of [m] that starts with the count [acc] ends with the count
    [h] of its result. *)
Definition weighs_from (wt : event -> Z) (acc : Z) {A} (h : A -> Z) (m : M A) : Prop :=
  forall w a w', m w = Some (a, w') ->
    exists l, grows w w' l /\ acc + weight wt l = h a.

(** [m] is balanced: a run takes [fi] references to inodes and [fd]
    references to dnodes more than it gives back, where [fi] and [fd] look
    at the result, releases every page lock it takes, puts every page it
    gets locked, and deletes one directory entry for every orphan slot it
    acquires. *)
Definition balanced {A} (fi fd : A -> Z) (m : M A) : Prop :=
  weighs_from inode_ref 0 fi m /\
  weighs_from dnode_ref 0 fd m /\
  weighs_from page_lock 0 (fun _ => 0) m /\
  weighs_from locked_page_ref 0 (fun _ => 0) m /\
  weighs_from orphan_slot 0 (fun _ => 0) m.

(** The entries of the three lists. *)
Definition entries_held (ls : fsync_lists) : Z :=
  Z.of_nat (length (inode_list ls)) + Z.of_nat (length (tmp_inode_list ls))
  + Z.of_nat (length (dir_list ls)).

End Weights.
(** * Worked traces: the inputs *)

Module Trace.





(** Data-index repair of a direct node of inode 7: the live dnode holds
    [src] at the slot and the recovered page records [dest]. *)
Definition slot_look (src dest : block_t) (R : Type) (q : query R) : option R :=
  match q in query R return option R with
  | f3fs_data_blkaddr _ => Some src
  | data_blkaddr _ _ _ => Some dest
  | _ => None
  end.

Definition slot_cfg (src dest : block_t) : Sim.config :=
  {| Sim.disk := fun _ => None; Sim.start_blkaddr := 100; Sim.valid_blocks := 0;
     Sim.answer := Sim.no_answer; Sim.look := slot_look src dest;
     Sim.fault_injection := false |}.

Definition inode7 : inode := {| i_ino := 7 |}.
Definition dnode7 : page := Sim.dnode 501 7 8 true 0.
Definition dn7 : dnode_of_data := set_new_dnode inode7 0 601 8.
Definition ni7 : node_info :=
  {| ni_nid := 8; ni_ino := 7; ni_blk_addr := 90; ni_version := 3; ni_flag := 0 |}.

(** A looped node chain: the node at block 100 names block 101 as its
    successor, and the node at block 101 names block 100.  Neither carries
    an fsync mark. *)
Definition cycle_disk (blkaddr : block_t) : option page :=
  if blkaddr =? 100 then Some (Sim.dnode 500 7 8 false 101)
  else if blkaddr =? 101 then Some (Sim.dnode 501 7 8 false 100)
  else None.

(** The main area has 256 blocks; [valid] of them are in use. *)
Definition cycle_cfg (valid : Z) : Sim.config :=
  {| Sim.disk := cycle_disk; Sim.start_blkaddr := 100; Sim.valid_blocks := valid;
     Sim.answer := Sim.no_answer; Sim.look := Sim.no_look;
     Sim.fault_injection := false |}.

(** What a run of discovery gave: its return value and the blocks it read,
    in order. *)
Definition walked {K : Kernel} (run : option (Z * fsync_list * world))
  : option (Z * list block_t) :=
  option_map (fun x => (fst (fst x), map fst (tmp_reads (w_trace (snd x))))) run.




(** The spec's S6: the only block of the log is a direct node of inode 7,
    fsync-marked. *)
Definition fsynced_cfg : Sim.config :=
  {| Sim.disk := fun a => if a =? 100 then Some dnode7 else None;
     Sim.start_blkaddr := 100; Sim.valid_blocks := 0;
     Sim.answer := Sim.no_answer; Sim.look := Sim.no_look;
     Sim.fault_injection := false |}.

(** A zoned device, mounted writable, whose log holds one node block
    without fsync mark: there is nothing to recover. *)
Definition zoned_look (R : Type) (q : query R) : option R :=
  match q in query R return option R with
  | f3fs_sb_has_blkzoned => Some true
  | _ => None
  end.

Definition zoned_cfg : Sim.config :=
  {| Sim.disk := fun a => if a =? 100 then Some (Sim.dnode 500 7 8 false 0) else None;
     Sim.start_blkaddr := 100; Sim.valid_blocks := 0;
     Sim.answer := Sim.no_answer; Sim.look := zoned_look;
     Sim.fault_injection := false |}.

(** The log of S6 on a kernel whose node pages answer offset 1: the
    direct node of inode 7 is recovered and a checkpoint is written. *)
Definition repaired_look (R : Type) (q : query R) : option R :=
  match q in query R return option R with
  | ofs_of_node_page _ => Some 1
  | _ => None
  end.

Definition repaired_cfg : Sim.config :=
  {| Sim.disk := fun a => if a =? 100 then Some dnode7 else None;
     Sim.start_blkaddr := 100; Sim.valid_blocks := 0;
     Sim.answer := Sim.no_answer; Sim.look := repaired_look;
     Sim.fault_injection := false |}.

(** Two direct nodes of inode 7 in the log, both fsync-marked: block 100,
    then block 101. *)
Definition twice_disk (blkaddr : block_t) : option page :=
  if blkaddr =? 100 then Some (Sim.dnode 500 7 8 true 101)
  else if blkaddr =? 101 then Some (Sim.dnode 501 7 8 true 0)
  else None.

Definition twice_cfg : Sim.config :=
  {| Sim.disk := twice_disk; Sim.start_blkaddr := 100; Sim.valid_blocks := 0;
     Sim.answer := Sim.no_answer; Sim.look := repaired_look;
     Sim.fault_injection := false |}.

(** What discovery records for the direct node of inode 7 at block 100. *)
Definition entry7 : fsync_inode_entry :=
  {| e_inode := inode7; e_blkaddr := 100; e_last_dentry := 0 |}.

Definition lists7 : fsync_lists :=
  {| inode_list := [entry7]; tmp_inode_list := []; dir_list := [] |}.

(** A file system mounted read-only whose log holds one node block
    without fsync mark. *)
Definition rdonly_look (R : Type) (q : query R) : option R :=
  match q in query R return option R with
  | sb_s_flags => Some SB_RDONLY
  | _ => None
  end.

Definition rdonly_cfg : Sim.config :=
  {| Sim.disk := fun a => if a =? 100 then Some (Sim.dnode 500 7 8 false 0) else None;
     Sim.start_blkaddr := 100; Sim.valid_blocks := 0;
     Sim.answer := Sim.no_answer; Sim.look := rdonly_look;
     Sim.fault_injection := false |}.

(** The owner of inode 50 changes from 0 to 1000 and the quota transfer is
    refused. *)
Definition refused_answer (R : Type) (c : call R) : option R :=
  match c in call R return option R with
  | dquot_transfer _ _ => Some (- ENOMEM)
  | _ => None
  end.

Definition refused_cfg : Sim.config :=
  {| Sim.disk := fun _ => None; Sim.start_blkaddr := 100; Sim.valid_blocks := 0;
     Sim.answer := refused_answer; Sim.look := Sim.no_look;
     Sim.fault_injection := false |}.

Definition chowned_page : page :=
  Sim.inode_page 500 50 true false (Sim.raw_inode 420 1000 5 [102; 111; 111]) 0.

(** The log holds the inode page of inode 7, fsync-marked and recorded
    with the owner 1000, at block 100, and a direct node of inode 9,
    fsync-marked, at block 101; dquot_transfer answers -ENOMEM. *)
Definition chown_disk (blkaddr : block_t) : option page :=
  if blkaddr =? 100
  then Some (Sim.inode_page 500 7 true false (Sim.raw_inode 420 1000 5 [102; 111; 111]) 101)
  else if blkaddr =? 101 then Some (Sim.dnode 501 9 10 true 0)
  else None.

Definition chown_cfg : Sim.config :=
  {| Sim.disk := chown_disk; Sim.start_blkaddr := 100; Sim.valid_blocks := 0;
     Sim.answer := refused_answer; Sim.look := Sim.no_look;
     Sim.fault_injection := false |}.

(** An inode page whose recorded name has 300 bytes. *)
Definition long_page : page :=
  Sim.inode_page 500 50 true true (Sim.raw_inode 420 0 5 (repeat 97 300)) 0.

(** Three slots of a direct node of inode 7: the first holds no block and
    the recovered page records block 200 there; the second holds block 90
    and the recovered page records none; the third holds block 91 in
    both. *)
Definition range_look (R : Type) (q : query R) : option R :=
  match q in query R return option R with
  | f3fs_data_blkaddr dn =>
      Some (if dn_ofs_in_node dn =? 0 then 0
            else if dn_ofs_in_node dn =? 1 then 90 else 91)
  | data_blkaddr _ _ ofs =>
      Some (if ofs =? 0 then 200 else if ofs =? 1 then 0 else 91)
  | ADDRS_PER_PAGE _ _ => Some 3
  | ofs_of_node_page _ => Some 1
  | _ => None
  end.

Definition range_answer (R : Type) (c : call R) : option R :=
  match c in call R return option R with
  | f3fs_get_node_info _ => Some (0, ni7)
  | _ => None
  end.

Definition range_cfg : Sim.config :=
  {| Sim.disk := fun _ => None; Sim.start_blkaddr := 100; Sim.valid_blocks := 0;
     Sim.answer := range_answer; Sim.look := range_look;
     Sim.fault_injection := false |}.

(** The slot holds block 90, the recovered page records block 200, and
    block 200 is marked valid in its segment, whose summary page cannot be
    read. *)
Definition collide_look (R : Type) (q : query R) : option R :=
  match q in query R return option R with
  | f3fs_data_blkaddr _ => Some 90
  | data_blkaddr _ _ _ => Some 200
  | test_cur_valid_map _ _ => Some true
  | _ => None
  end.

Definition collide_cfg : Sim.config :=
  {| Sim.disk := fun _ => None; Sim.start_blkaddr := 100; Sim.valid_blocks := 0;
     Sim.answer := Sim.no_answer; Sim.look := collide_look;
     Sim.fault_injection := false |}.

(** The slot holds no block, the recovered page records block 200, and no
    block can be reserved (-ENOSPC). *)
Definition full_answer (R : Type) (c : call R) : option R :=
  match c in call R return option R with
  | f3fs_reserve_new_block dn => Some (-28, dn)
  | _ => None
  end.

Definition full_cfg : Sim.config :=
  {| Sim.disk := fun _ => None; Sim.start_blkaddr := 100; Sim.valid_blocks := 0;
     Sim.answer := full_answer; Sim.look := slot_look 0 200;
     Sim.fault_injection := false |}.




(** What a run gave: its return value and the calls it made, in order. *)
Definition outcome {K : Kernel} (run : option (Z * world))
  : option (Z * list action) :=
  option_map (fun x => (fst x, calls (w_trace (snd x)))) run.

(** What the repair of a slot gave: its return value and the calls it
    made, in order. *)
Definition slot_outcome {K : Kernel} (run : option (Z * dnode_of_data * world))
  : option (Z * list action) :=
  option_map (fun x => (fst (fst x), calls (w_trace (snd x)))) run.

(** The dnode do_recover_data works in, at the slot [ofs]. *)
Definition dn_at (ofs : Z) : dnode_of_data :=
  dn_set_ofs_in_node (set_new_dnode inode7 0 0 0) ofs.


End Trace.

(** * Properties *)

Section Properties.
Context {K : Kernel}.

(** ** Running the monad *)

Lemma bind_Some {A B} (m : M A) (k : A -> M B) (w : world) (a : A) (w1 : world) :
  m w = Some (a, w1) -> bind m k w = k a w1.
Proof. intros H. unfold bind. now rewrite H. Qed.

Lemma bind_None {A B} (m : M A) (k : A -> M B) (w : world) :
  m w = None -> bind m k w = None.
Proof. intros H. unfold bind. now rewrite H. Qed.

Lemma perform_run {R} (c : call R) (w : world) :
  perform c w =
  Some (fst (sem c (w_st w)),
        {| w_st := snd (sem c (w_st w));
           w_trace := w_trace w ++ [Ev (w_st w) c (fst (sem c (w_st w)))] |}).
Proof. unfold perform. now destruct (sem c (w_st w)). Qed.

Lemma read_run {R} (q : query R) (w : world) :
  read q w = Some (rd q (w_st w), w).
Proof. reflexivity. Qed.

Lemma nz_true (x : Z) : nz x = true <-> x <> 0.
Proof. unfold nz. destruct (Z.eqb_spec x 0); split; intros; try easy. Qed.

Lemma nz_false (x : Z) : nz x = false <-> x = 0.
Proof. unfold nz. destruct (Z.eqb_spec x 0); split; intros; try easy. Qed.

Lemma bind_inv {A B} (m : M A) (k : A -> M B) (w w' : world) (b : B) :
  bind m k w = Some (b, w') ->
  exists a w1, m w = Some (a, w1) /\ k a w1 = Some (b, w').
Proof.
  unfold bind. destruct (m w) as [[a w1] |]; [| discriminate].
  intros H. now exists a, w1.
Qed.

Lemma perform_inv {R} (c : call R) (w w' : world) (r : R) :
  perform c w = Some (r, w') ->
  exists s', sem c (w_st w) = (r, s') /\
    w' = {| w_st := s'; w_trace := w_trace w ++ [Ev (w_st w) c r] |}.
Proof.
  unfold perform. destruct (sem c (w_st w)) as [r0 s0]. intros H.
  injection H as <- <-. now exists s0.
Qed.

Lemma ret_inv {A} (a b : A) (w w' : world) :
  ret a w = Some (b, w') -> b = a /\ w' = w.
Proof. unfold ret. intros H. now injection H as <- <-. Qed.

Lemma read_inv {R} (q : query R) (w w' : world) (r : R) :
  read q w = Some (r, w') -> r = rd q (w_st w) /\ w' = w.
Proof. unfold read. intros H. now injection H as <- <-. Qed.

Lemma grows_refl (w : world) : grows w w [].
Proof. unfold grows. now rewrite app_nil_r. Qed.

Lemma grows_trans (w1 w2 w3 : world) (l1 l2 : list event) :
  grows w1 w2 l1 -> grows w2 w3 l2 -> grows w1 w3 (l1 ++ l2).
Proof. unfold grows. intros H1 H2. now rewrite H2, H1, app_assoc. Qed.

Lemma grows_inj (w w' : world) (l1 l2 : list event) :
  grows w w' l1 -> grows w w' l2 -> l1 = l2.
Proof. unfold grows. intros H1 H2. rewrite H1 in H2. now apply app_inv_head in H2. Qed.

(** Run a computation that is known to return: every bind is split, every
    call is replaced by its answer and the log entry it leaves, every test
    is decided both ways. *)
Ltac mexec H :=
  cbv beta in H; cbn [w_st w_trace fst snd] in H;
  lazymatch type of H with
  | bind _ _ _ = Some _ =>
      let a := fresh "a" in let w1 := fresh "w" in let H1 := fresh "H" in
      apply bind_inv in H as (a & w1 & H1 & H); mexec H1; mexec H
  | perform _ _ = Some _ =>
      let s := fresh "s" in let E := fresh "E" in
      apply perform_inv in H as (s & E & ->); cbn [w_st w_trace] in *
  | ret _ _ = Some _ => apply ret_inv in H as [? ?]; subst
  | read _ _ = Some _ => apply read_inv in H as [? ?]; subst
  | out_of_rounds _ = Some _ => discriminate H
  | (if ?b then _ else _) _ = Some _ => destruct b eqn:?; mexec H
  | (match ?x with inl _ => _ | inr _ => _ end) _ = Some _ =>
      destruct x eqn:?; mexec H
  | (match ?x with Some _ => _ | None => _ end) _ = Some _ =>
      destruct x eqn:?; mexec H
  | (let (_, _) := ?x in _) _ = Some _ => destruct x eqn:?; mexec H
  | _ => idtac
  end.

Lemma bind_None_inv {A B} (m : M A) (k : A -> M B) (w : world) :
  bind m k w = None ->
  m w = None \/ exists a w1, m w = Some (a, w1) /\ k a w1 = None.
Proof.
  unfold bind. destruct (m w) as [[a w1] |]; intros H.
  - right. now exists a, w1.
  - now left.
Qed.

(** Run a computation that is known not to return: what is left is the
    loop that ran out of rounds. *)
Ltac mnone H :=
  cbv beta in H; cbn [w_st w_trace fst snd] in H;
  lazymatch type of H with
  | bind _ _ _ = None =>
      let a := fresh "a" in let w1 := fresh "w" in let H1 := fresh "H" in
      apply bind_None_inv in H as [H | (a & w1 & H1 & H)];
      [ mnone H | mexec H1; mnone H ]
  | perform _ _ = None => rewrite perform_run in H; discriminate H
  | ret _ _ = None => discriminate H
  | read _ _ = None => discriminate H
  | (if ?b then _ else _) _ = None => destruct b eqn:?; mnone H
  | (match ?x with inl _ => _ | inr _ => _ end) _ = None =>
      destruct x eqn:?; mnone H
  | (match ?x with Some _ => _ | None => _ end) _ = None =>
      destruct x eqn:?; mnone H
  | (let (_, _) := ?x in _) _ = None => destruct x eqn:?; mnone H
  | _ => idtac
  end.

(** The log of an explicit world, against the log it started from. *)
Ltac grows_now :=
  unfold grows; cbn [w_trace]; rewrite <- ?app_assoc; cbn [app]; reflexivity.

(** Turn [Hl : grows w W l], with the log of [W] explicit, into the value
    of [l]. *)
Ltac fix_log Hl :=
  match type of Hl with
  | grows ?w ?W ?l =>
      let Hg := fresh "Hg" in
      first [ pose proof (grows_inj _ _ _ _ Hl (grows_refl w)) as Hg
            | eassert (Hg : grows w W _) by grows_now;
              apply (grows_inj _ _ _ _ Hl) in Hg ];
      subst l
  end.

Lemma returns_ret {A} (a : A) : returns (ret a).
Proof. intros w. now exists a, w. Qed.

Lemma returns_perform {R} (c : call R) : returns (perform c).
Proof. intros w. rewrite perform_run. now do 2 eexists. Qed.

Lemma returns_read {R} (q : query R) : returns (read q).
Proof. intros w. now do 2 eexists. Qed.

Lemma returns_bind {A B} (m : M A) (k : A -> M B) :
  returns m -> (forall a, returns (k a)) -> returns (bind m k).
Proof.
  intros Hm Hk w. destruct (Hm w) as (a & w1 & H1).
  rewrite (bind_Some _ _ _ _ _ H1). apply Hk.
Qed.

(** Show that a computation without loops returns. *)
Ltac mreturns :=
  repeat first
    [ apply returns_ret
    | apply returns_perform
    | apply returns_read
    | apply returns_bind; [| intros ?]
    | match goal with
      | |- returns (if ?b then _ else _) => destruct b
      | |- returns (match ?x with _ => _ end) => destruct x
      end ].

Lemma all_ret (P : event -> Prop) {A} (a : A) : all_calls P (ret a).
Proof.
  intros w a' w' H. apply ret_inv in H as [_ ->]. exists []. split.
  - apply grows_refl.
  - constructor.
Qed.

Lemma all_read (P : event -> Prop) {R} (q : query R) : all_calls P (read q).
Proof.
  intros w a' w' H. apply read_inv in H as [_ ->]. exists []. split.
  - apply grows_refl.
  - constructor.
Qed.

Lemma all_out_of_rounds (P : event -> Prop) {A} : all_calls P (@out_of_rounds K A).
Proof. intros w a w' H. discriminate H. Qed.

Lemma all_perform (P : event -> Prop) {R} (c : call R) :
  (forall s r, P (Ev s c r)) -> all_calls P (perform c).
Proof.
  intros HP w r w' H. apply perform_inv in H as (s' & _ & ->).
  eexists. split; [grows_now |]. constructor; [apply HP | constructor].
Qed.

Lemma all_bind (P : event -> Prop) {A B} (m : M A) (k : A -> M B) :
  all_calls P m -> (forall a, all_calls P (k a)) -> all_calls P (bind m k).
Proof.
  intros Hm Hk w b w' H. apply bind_inv in H as (a & w1 & H1 & H2).
  apply Hm in H1 as (l1 & Hl1 & HP1). apply Hk in H2 as (l2 & Hl2 & HP2).
  exists (l1 ++ l2). split.
  - eapply grows_trans; eassumption.
  - apply Forall_app. now split.
Qed.

(** Every call of a computation satisfies [P]; [tac] closes the goals for
    the loops and for the calls that need an argument. *)
Ltac mall tac :=
  repeat first
    [ solve [tac]
    | progress cbv zeta
    | match goal with
      | |- all_calls _ (ret _) => apply all_ret
      | |- all_calls _ (read _) => apply all_read
      | |- all_calls _ out_of_rounds => apply all_out_of_rounds
      | |- all_calls _ (bind _ _) => apply all_bind; [| intros ?]
      | |- all_calls _ (if ?b then _ else _) => destruct b eqn:?
      | |- all_calls _ (match ?x with _ => _ end) => destruct x eqn:?
      | |- all_calls _ (perform _) =>
          apply all_perform; intros ? ?; cbn;
          solve [tac | intros; discriminate | exact I]
      end ].

(** ** The fsync-inode table *)

(** C9.  add_fsync_inode is atomic on failure.  Every call returns.  When it
    returns an error the list is the one it was given; if the inode handle
    had been acquired, the error is the non-zero answer of the quota step
    that failed (f3fs_dquot_initialize, or dquot_alloc_inode for a quota
    inode) and the last call made is the iput of that handle.  When it
    returns an entry, every fallible step has answered 0, no iput was made,
    and the list is the given one with the new zeroed entry, which holds the
    handle, appended at its tail. *)
Theorem add_fsync_inode_atomic
    (head : fsync_list) (ino : nid_t) (quota_inode : bool) (w : world) :
  exists r head' w' l,
    add_fsync_inode head ino quota_inode w = Some (r, head', w') /\
    w_trace w' = w_trace w ++ l /\
    match r with
    | inl err =>
        head' = head /\
        ((exists s0, l = [Ev s0 (f3fs_iget_retry ino) (inl err)]) \/
         (exists i s0 s1 s2 s3,
            err <> 0 /\
            (l = [Ev s0 (f3fs_iget_retry ino) (inr i);
                  Ev s1 (f3fs_dquot_initialize i) err;
                  Ev s3 (iput i) tt] \/
             quota_inode = true /\
             l = [Ev s0 (f3fs_iget_retry ino) (inr i);
                  Ev s1 (f3fs_dquot_initialize i) 0;
                  Ev s2 (dquot_alloc_inode i) err;
                  Ev s3 (iput i) tt])))
    | inr (p, entry) =>
        head' = head ++ [entry] /\
        p = length head /\
        e_blkaddr entry = 0 /\ e_last_dentry entry = 0 /\
        exists s0 s1 s2,
          l = [Ev s0 (f3fs_iget_retry ino) (inr (e_inode entry));
               Ev s1 (f3fs_dquot_initialize (e_inode entry)) 0]
              ++ (if quota_inode
                  then [Ev s2 (dquot_alloc_inode (e_inode entry)) 0] else [])
    end.
Proof.
  unfold add_fsync_inode, bind, perform, ret.
  destruct (sem (f3fs_iget_retry ino) (w_st w)) as [[e | i] s1] eqn:E0; cbn.
  - do 4 eexists. split; [reflexivity |]. split; [reflexivity |].
    split; [reflexivity |]. left. now eexists.
  - destruct (sem (f3fs_dquot_initialize i) s1) as [e1 s2] eqn:E1; cbn.
    destruct (nz e1) eqn:N1; cbn.
    + destruct (sem (iput i) s2) as [[] s3] eqn:E2; cbn.
      do 4 eexists. split; [reflexivity |].
      rewrite <- !app_assoc. split; [reflexivity |].
      split; [reflexivity |]. right. exists i, (w_st w), s1, s2, s2.
      apply nz_true in N1. split; [assumption |]. now left.
    + apply nz_false in N1. subst e1.
      destruct quota_inode; cbn.
      * destruct (sem (dquot_alloc_inode i) s2) as [e2 s3] eqn:E2; cbn.
        destruct (nz e2) eqn:N2; cbn.
        -- destruct (sem (iput i) s3) as [[] s4] eqn:E3; cbn.
           do 4 eexists. split; [reflexivity |].
           rewrite <- !app_assoc. split; [reflexivity |].
           split; [reflexivity |]. right. exists i, (w_st w), s1, s2, s3.
           apply nz_true in N2. split; [assumption |]. now right.
        -- apply nz_false in N2. subst e2.
           do 4 eexists. split; [reflexivity |].
           rewrite <- !app_assoc. split; [reflexivity |].
           cbn. repeat split. now exists (w_st w), s1, s2.
      * do 4 eexists. split; [reflexivity |].
        rewrite <- !app_assoc. split; [reflexivity |].
        cbn. repeat split. now exists (w_st w), s1, s1.
Qed.


(** ** Directory repair *)




(** ** The collision resolver *)

Lemma check_index_curseg_sum_returns (types : list curseg_type) (segno blkoff : Z) :
  returns (check_index_curseg_sum types segno blkoff).
Proof. induction types as [| i rest IH]; cbn [check_index_curseg_sum]; mreturns; exact IH. Qed.

Lemma check_index_in_prev_nodes_returns (blkaddr : block_t) (dn : dnode_of_data) :
  returns (check_index_in_prev_nodes blkaddr dn).
Proof.
  unfold check_index_in_prev_nodes, check_index_truncate_out.
  mreturns.
Qed.

Lemma check_index_curseg_sum_pure (types : list curseg_type) (segno blkoff : Z)
    (w w' : world) (cur : option f3fs_summary) :
  check_index_curseg_sum types segno blkoff w = Some (cur, w') -> w' = w.
Proof.
  induction types as [| i rest IH]; cbn [check_index_curseg_sum]; intros H; mexec H.
  - reflexivity.
  - reflexivity.
  - auto.
Qed.

(** C10.  check_index_in_prev_nodes always returns, and
    - when the block is not marked valid in the validity bitmap of its
      segment it returns 0 and leaves the world as it found it: no call is
      made;
    - when the LOOKUP_NODE lookup of the dnode fails, or the address it
      locates is not [blkaddr], it returns 0 and mutates nothing;
    - it returns a non-zero value only as the error of a summary page, node
      page, inode or quota context it could not get, and then it has
      mutated nothing;
    - apart from taking and giving back references and page locks, the only
      call it ever makes is one f3fs_truncate_data_blocks_range of a single
      index, and then it returns 0.  It makes it either for the dnode a
      successful LOOKUP_NODE lookup of this run has filled, whose address is
      [blkaddr]; or, when it has made no lookup because the summary names
      the inode or the node page it holds, for an index that
      f3fs_data_blkaddr reads, at that moment, as [blkaddr]. *)
Theorem check_index_in_prev_nodes_effect
    (blkaddr : block_t) (dn : dnode_of_data) (w : world) :
  exists r w' l,
    check_index_in_prev_nodes blkaddr dn w = Some (r, w') /\
    grows w w' l /\
    (rd (test_cur_valid_map (GET_SEGNO blkaddr) (GET_BLKOFF_FROM_SEG0 blkaddr))
        (w_st w) = false ->
     r = 0 /\ w' = w) /\
    (forall e tdn, In (Some (e, tdn)) (map lookup_answer l) ->
       e <> 0 \/ dn_data_blkaddr tdn <> blkaddr ->
       r = 0 /\ mutations l = []) /\
    (r <> 0 -> mutations l = [] /\ In (Some r) (map acquire_error l)) /\
    (mutations l = [] \/
     exists s tdn tdn',
       mutations l = [Ev s (f3fs_truncate_data_blocks_range tdn 1) tdn'] /\
       r = 0 /\
       ((exists s0 tdn0 bidx,
           In (Ev s0 (f3fs_get_dnode_of_data tdn0 bidx LOOKUP_NODE) (0, tdn)) l /\
           dn_data_blkaddr tdn = blkaddr) \/
        (Forall (fun ev => lookup_answer ev = None) l /\
         rd (f3fs_data_blkaddr tdn) s = blkaddr))).
Proof.
  destruct (check_index_in_prev_nodes_returns blkaddr dn w) as (r & w' & H).
  exists r, w'.
  enough (Hl : exists l, grows w w' l /\
    (rd (test_cur_valid_map (GET_SEGNO blkaddr) (GET_BLKOFF_FROM_SEG0 blkaddr))
        (w_st w) = false ->
     r = 0 /\ w' = w) /\
    (forall e tdn, In (Some (e, tdn)) (map lookup_answer l) ->
       e <> 0 \/ dn_data_blkaddr tdn <> blkaddr ->
       r = 0 /\ mutations l = []) /\
    (r <> 0 -> mutations l = [] /\ In (Some r) (map acquire_error l)) /\
    (mutations l = [] \/
     exists s tdn tdn',
       mutations l = [Ev s (f3fs_truncate_data_blocks_range tdn 1) tdn'] /\
       r = 0 /\
       ((exists s0 tdn0 bidx,
           In (Ev s0 (f3fs_get_dnode_of_data tdn0 bidx LOOKUP_NODE) (0, tdn)) l /\
           dn_data_blkaddr tdn = blkaddr) \/
        (Forall (fun ev => lookup_answer ev = None) l /\
         rd (f3fs_data_blkaddr tdn) s = blkaddr)))).
  { destruct Hl as (l & Hl). exists l. split; [exact H | exact Hl]. }
  unfold check_index_in_prev_nodes, check_index_truncate_out in H.
  mexec H.
  all: repeat match goal with
         | Hc : check_index_curseg_sum _ _ _ _ = Some (_, ?w1) |- _ =>
             pose proof (check_index_curseg_sum_pure _ _ _ _ _ _ Hc); subst w1; clear Hc
         end.
  all: repeat match goal with
         | Hn : nz _ = true |- _ => apply nz_true in Hn
         | Hn : nz ?e = false |- _ => apply nz_false in Hn; try subst e
         | Hn : (_ =? _) = true |- _ => apply Z.eqb_eq in Hn
         | Hn : (_ =? _) = false |- _ => apply Z.eqb_neq in Hn
         end.
  all: eexists; split; [first [apply grows_refl | grows_now] |].
  all: split;
    [ intros Hv;
      first [ split; reflexivity
            | exfalso;
              match goal with
              | Hb : negb (rd _ _) = false |- _ => rewrite Hv in Hb; discriminate Hb
              end ] |].
  all: split;
    [ intros e' tdn' Hin Hc; cbn in Hin;
      repeat (destruct Hin as [Hin | Hin]; try discriminate Hin);
      try contradiction;
      injection Hin as <- <-;
      first [ split; reflexivity
            | exfalso; destruct Hc as [Hc | Hc]; apply Hc; congruence ] |].
  all: split;
    [ intros Hr;
      first [ exfalso; apply Hr; reflexivity
            | split;
              [ reflexivity
              | cbn;
                repeat match goal with
                       | Hx : ?x <> 0 |- context [nz ?x] =>
                           rewrite (proj2 (nz_true x) Hx)
                       end;
                repeat (first [left; reflexivity | right]) ] ] |].
  all: first [ left; reflexivity
             | right; do 3 eexists; split; [reflexivity |]; split; [reflexivity |];
               first [ left; do 3 eexists; split; [| assumption];
                       cbn [In app]; repeat (first [left; reflexivity | right])
                     | right; split; [repeat constructor | assumption] ] ].
Qed.
(** ** Data-index repair *)



Lemma check_index_curseg_sum_silent (P : event -> Prop)
    (types : list curseg_type) (segno blkoff : Z) :
  all_calls P (check_index_curseg_sum types segno blkoff).
Proof.
  induction types as [| i rest IH]; cbn [check_index_curseg_sum]; mall ltac:(apply IH).
Qed.









Lemma check_index_in_prev_nodes_not_None (blkaddr : block_t) (dn : dnode_of_data)
    (w : world) : check_index_in_prev_nodes blkaddr dn w <> None.
Proof.
  destruct (check_index_in_prev_nodes_returns blkaddr dn w) as (r & w' & H).
  now rewrite H.
Qed.

Lemma do_recover_data_reserve_once (rounds : nat) (dn : dnode_of_data) (w : world) :
  CONFIG_F3FS_FAULT_INJECTION = false ->
  do_recover_data_reserve (S rounds) dn w <> None.
Proof.
  intros Hfi H. cbn [do_recover_data_reserve] in H. rewrite Hfi in H.
  mnone H. all: rewrite andb_false_r in *; discriminate.
Qed.

Lemma do_recover_data_check_prev_once (rounds : nat) (dest : block_t)
    (dn : dnode_of_data) (w : world) :
  (forall dn1 w1 w2, check_index_in_prev_nodes dest dn1 w1 <> Some (- ENOMEM, w2)) ->
  do_recover_data_check_prev (S rounds) dest dn w <> None.
Proof.
  intros Hmem H. cbn [do_recover_data_check_prev] in H.
  apply bind_None_inv in H as [H | (e & w1 & H1 & H)].
  - now apply check_index_in_prev_nodes_not_None in H.
  - destruct (nz e && (e =? - ENOMEM)) eqn:He.
    + apply andb_true_iff in He as [_ He]. apply Z.eqb_eq in He. subst e.
      now apply Hmem in H1.
    + discriminate H.
Qed.

(** recovery.c:583-632: do_recover_data is its part down to the loop,
    followed by the loop and what comes after it. *)
Lemma do_recover_data_prepare_run (rounds : nat) (i : inode) (page : page)
    (w w' : world) (err : Z) :
  do_recover_data rounds i page w = Some (err, w') ->
  exists r w0,
    do_recover_data_prepare rounds i page w = Some (r, w0) /\
    match r with
    | inl e => err = e /\ w' = w0
    | inr (start, end_, dn, ni) =>
        (exists s,
           start = rd (f3fs_start_bidx_of_node (ofs_of_node page) i) s /\
           end_ = u32 (start + rd (ADDRS_PER_PAGE page i) s)) /\
        do_recover_data_slots rounds i page ni start end_ dn w0 = Some (err, w')
    end.
Proof.
  intros H. unfold do_recover_data in H. mexec H.
  all: do 2 eexists; split;
    [ unfold do_recover_data_prepare, bind, read, perform, ret;
      repeat match goal with
             | Hb : _ = true |- _ => rewrite Hb
             | Hb : _ = false |- _ => rewrite Hb
             | E : sem _ _ = _ |- _ => rewrite E
             | Hg : do_recover_data_get_dnode _ _ _ _ = Some _ |- _ => rewrite Hg
             | |- _ => progress cbn [w_st w_trace fst snd]
             end;
      reflexivity
    | cbv beta iota;
      first [ split; reflexivity
            | split; [eexists; split; reflexivity | eassumption] ] ].
Qed.

Lemma do_recover_data_indices_range (rounds : nat) (i : inode) (page : page)
    (ni : node_info) (end_ : Z) (n : nat) :
  forall (start : Z) (dn dn' : dnode_of_data) (w w' : world) (e : Z),
    n = Z.to_nat (end_ - start) ->
    do_recover_data_indices rounds n i page ni start dn w = Some (e, dn', w') ->
    index_range_repaired rounds i page ni start end_ dn w e dn' w'.
Proof.
  induction n as [| n IH]; intros start dn dn' w w' e Hn H;
    cbn [do_recover_data_indices] in H.
  - apply ret_inv in H as [H ->]. injection H as -> ->.
    apply range_done. lia.
  - apply bind_inv in H as ([e1 dn1] & w1 & H1 & H).
    destruct (nz e1) eqn:He.
    + apply ret_inv in H as [H ->]. injection H as -> ->.
      apply range_stop; [lia | exact H1 | now apply nz_true].
    + apply nz_false in He. subst e1.
      eapply range_next; [lia | exact H1 |].
      apply IH; [lia | exact H].
Qed.

(** recovery.c:634-713: the loop over the index range and what follows it:
    on an error the dnode is put; otherwise the footer of the live node
    page is rewritten, the page is marked dirty and the dnode is put. *)
Lemma do_recover_data_slots_range (rounds : nat) (i : inode) (page : page)
    (ni : node_info) (start end_ : Z) (dn : dnode_of_data) (w w' : world) (err : Z) :
  do_recover_data_slots rounds i page ni start end_ dn w = Some (err, w') ->
  exists dn1 w1 l_end,
    index_range_repaired rounds i page ni start end_ dn w err dn1 w1 /\
    grows w1 w' l_end /\
    calls l_end =
      (if nz err then []
       else [Act (copy_node_footer (dn_node_page dn1) page);
             Act (fill_node_footer (dn_node_page dn1) (dn_nid dn1) (ni_ino ni)
                    (ofs_of_node page) false);
             Act (set_page_dirty (dn_node_page dn1))])
      ++ [Act (f3fs_put_dnode dn1)].
Proof.
  intros H. unfold do_recover_data_slots in H.
  apply bind_inv in H as ([e dn1] & w1 & H1 & H).
  apply (do_recover_data_indices_range _ _ _ _ end_ _ _ _ _ _ _ _ eq_refl) in H1.
  exists dn1, w1.
  destruct (nz e) eqn:He; mexec H.
  - eexists. split; [exact H1 |]. rewrite He. split; [grows_now | reflexivity].
  - eexists. split; [exact H1 |]. rewrite He. split; [grows_now | reflexivity].
Qed.

(** recovery.c:662-665 as a step of the slot. *)
Lemma do_recover_data_i_size_run (i : inode) (start : Z) (w : world) :
  exists ws l_size,
    do_recover_data_i_size i start w = Some (tt, ws) /\
    grows w ws l_size /\ calls l_size = size_extension i start w /\
    forall (A : Type) (k : unit -> M A),
      bind (read (file_keep_isize i)) (fun keep =>
      bind (read (i_size_read i)) (fun size =>
      bind (if negb keep && (size <=? Z.shiftl start PAGE_SHIFT)
            then perform (f3fs_i_size_write i (Z.shiftl (start + 1) PAGE_SHIFT))
            else ret tt) k)) w
      = k tt ws.
Proof.
  unfold size_extension, do_recover_data_i_size.
  rewrite (bind_Some _ _ _ _ _ (read_run _ w)).
  rewrite (bind_Some _ _ _ _ _ (read_run _ w)).
  destruct (negb (rd (file_keep_isize i) (w_st w))
            && (rd (i_size_read i) (w_st w) <=? Z.shiftl start PAGE_SHIFT)) eqn:Hc.
  - destruct (sem (f3fs_i_size_write i (Z.shiftl (start + 1) PAGE_SHIFT)) (w_st w))
      as [[] s1] eqn:E.
    exists {| w_st := s1;
              w_trace := w_trace w ++
                [Ev (w_st w) (f3fs_i_size_write i (Z.shiftl (start + 1) PAGE_SHIFT)) tt] |},
      [Ev (w_st w) (f3fs_i_size_write i (Z.shiftl (start + 1) PAGE_SHIFT)) tt].
    split; [rewrite perform_run, E; reflexivity |].
    split; [reflexivity |]. split; [reflexivity |]. intros A k.
    rewrite (bind_Some _ _ _ _ _ (read_run _ w)).
    rewrite (bind_Some _ _ _ _ _ (read_run _ w)).
    rewrite Hc. unfold bind. rewrite perform_run, E. reflexivity.
  - exists w, []. split; [reflexivity |]. split; [apply grows_refl |].
    split; [reflexivity |]. intros A k.
    rewrite (bind_Some _ _ _ _ _ (read_run _ w)).
    rewrite (bind_Some _ _ _ _ _ (read_run _ w)).
    rewrite Hc. reflexivity.
Qed.

(** recovery.c:652-705: the slot behind the sanity check. *)
Lemma do_recover_data_index_checked (rounds : nat) (i : inode) (page : page)
    (ni : node_info) (start : Z) (dn : dnode_of_data) (w : world) :
  let src := slot_src dn w in
  let dest := slot_dest page dn w in
  corrupt_blkaddr src = false -> corrupt_blkaddr dest = false ->
  do_recover_data_index rounds i page ni start dn w =
    (if src =? dest then ret (0, dn)
     else if dest =? NULL_ADDR then
       bind (perform (f3fs_truncate_data_blocks_range dn 1)) (fun dn => ret (0, dn))
     else
       bind (read (file_keep_isize i)) (fun keep =>
       bind (read (i_size_read i)) (fun size =>
       bind (if negb keep && (size <=? Z.shiftl start PAGE_SHIFT)
             then perform (f3fs_i_size_write i (Z.shiftl (start + 1) PAGE_SHIFT))
             else ret tt) (fun _ =>
       if dest =? NEW_ADDR then
         bind (perform (f3fs_truncate_data_blocks_range dn 1)) (fun dn =>
         bind (perform (f3fs_reserve_new_block dn)) (fun p =>
         let (_, dn) := p in ret (0, dn)))
       else if f3fs_is_valid_blkaddr dest META_POR then
         bind (if src =? NULL_ADDR then
                 bind (do_recover_data_reserve rounds dn) (fun p =>
                 let (err, dn) := p in
                 bind (perform (f3fs_bug_on (nz err))) (fun _ => ret (err, dn)))
               else ret (0, dn)) (fun p =>
         let (err, dn) := p in
         if nz err then ret (err, dn)
         else
           bind (do_recover_data_check_prev rounds dest dn) (fun err =>
           if nz err then ret (err, dn)
           else
             bind (perform (f3fs_replace_block dn src dest (ni_version ni) false false))
               (fun dn => ret (0, dn))))
       else ret (0, dn))))) w.
Proof.
  intros src dest Hsrc Hdest. unfold do_recover_data_index.
  rewrite (bind_Some _ _ _ _ _ (read_run (f3fs_data_blkaddr dn) w)).
  rewrite (bind_Some _ _ _ _ _ (read_run (data_blkaddr (dn_inode dn) page (dn_ofs_in_node dn)) w)).
  fold (slot_src dn w) (slot_dest page dn w). fold src dest.
  fold (corrupt_blkaddr src) (corrupt_blkaddr dest).
  now rewrite Hsrc, Hdest.
Qed.

(** recovery.c:671-704: a slot whose recovered address is a block of the
    main area.  A new block is reserved first when the live dnode holds
    none, and a failure ends the slot; then the collision resolver is run,
    and a failure ends the slot; then the index is replaced. *)
Lemma do_recover_data_index_valid_dest (rounds : nat) (i : inode) (page : page)
    (ni : node_info) (start : Z) (dn dn' : dnode_of_data) (w w' : world) (e : Z) :
  let src := slot_src dn w in
  let dest := slot_dest page dn w in
  corrupt_blkaddr src = false -> corrupt_blkaddr dest = false ->
  src <> dest -> dest <> NULL_ADDR -> dest <> NEW_ADDR ->
  do_recover_data_index rounds i page ni start dn w = Some (e, dn', w') ->
  exists ws er dnr wr,
    do_recover_data_i_size i start w = Some (tt, ws) /\
    (src = NULL_ADDR ->
     exists wr0,
       do_recover_data_reserve rounds dn ws = Some (er, dnr, wr0) /\
       perform (f3fs_bug_on (nz er)) wr0 = Some (tt, wr)) /\
    (src <> NULL_ADDR -> er = 0 /\ dnr = dn /\ wr = ws) /\
    (er <> 0 -> e = er /\ dn' = dnr /\ w' = wr) /\
    (er = 0 ->
     exists ep wp,
       do_recover_data_check_prev rounds dest dnr wr = Some (ep, wp) /\
       (ep <> 0 -> e = ep /\ dn' = dnr /\ w' = wp) /\
       (ep = 0 ->
        e = 0 /\
        perform (f3fs_replace_block dnr src dest (ni_version ni) false false) wp
          = Some (dn', w'))).
Proof.
  intros src dest Hsrc Hdest Hne Hn Hw H.
  rewrite (do_recover_data_index_checked _ _ _ _ _ _ _ Hsrc Hdest) in H.
  fold src dest in H.
  assert (Hv : f3fs_is_valid_blkaddr dest META_POR = true).
  { unfold corrupt_blkaddr, __is_valid_data_blkaddr in Hdest.
    rewrite (proj2 (Z.eqb_neq _ _) Hn), (proj2 (Z.eqb_neq _ _) Hw) in Hdest.
    cbn in Hdest. now destruct (f3fs_is_valid_blkaddr dest META_POR). }
  destruct (do_recover_data_i_size_run i start w) as (ws & l_size & Hsize & _ & _ & Hks).
  rewrite (proj2 (Z.eqb_neq _ _) Hne), (proj2 (Z.eqb_neq _ _) Hn), Hks,
    (proj2 (Z.eqb_neq _ _) Hw), Hv in H.
  apply bind_inv in H as ([er dnr] & wr & H1 & H2).
  exists ws, er, dnr, wr. split; [exact Hsize |].
  assert (Htail :
    (er <> 0 -> e = er /\ dn' = dnr /\ w' = wr) /\
    (er = 0 ->
     exists ep wp,
       do_recover_data_check_prev rounds dest dnr wr = Some (ep, wp) /\
       (ep <> 0 -> e = ep /\ dn' = dnr /\ w' = wp) /\
       (ep = 0 ->
        e = 0 /\
        perform (f3fs_replace_block dnr src dest (ni_version ni) false false) wp
          = Some (dn', w')))).
  { destruct (nz er) eqn:Her.
    - apply ret_inv in H2 as [Heq ->]. injection Heq as -> ->.
      apply nz_true in Her. split; [now intros _ | intros; contradiction].
    - apply nz_false in Her. split; [intros; contradiction | intros _].
      apply bind_inv in H2 as (ep & wp & Hp & H3).
      exists ep, wp. split; [exact Hp |].
      destruct (nz ep) eqn:Hep.
      + apply ret_inv in H3 as [Heq ->]. injection Heq as -> ->.
        apply nz_true in Hep. split; [now intros _ | intros; contradiction].
      + apply nz_false in Hep. split; [intros; contradiction | intros _].
        apply bind_inv in H3 as (dnx & wx & Hx & H4).
        apply ret_inv in H4 as [Heq ->]. injection Heq as -> ->.
        split; [reflexivity | exact Hx]. }
  destruct (Z.eqb_spec src NULL_ADDR) as [Hs | Hs].
  - apply bind_inv in H1 as ([e1 d1] & wr0 & Hres & H1).
    apply bind_inv in H1 as ([] & wb & Hbug & Hret).
    apply ret_inv in Hret as [Heq ->]. injection Heq as -> ->.
    split; [intros _; exists wr0; now split |].
    split; [intros Hx; contradiction | exact Htail].
  - apply ret_inv in H1 as [Heq ->]. injection Heq as -> ->.
    split; [intros Hx; contradiction |].
    split; [now intros _ | exact Htail].
Qed.

(** recovery.c:681-684: the reservation is not repeated when it succeeds,
    nor when fault injection is not configured. *)
Lemma do_recover_data_reserve_single (rounds : nat) (dn dn1 : dnode_of_data)
    (w w1 : world) (e1 : Z) :
  perform (f3fs_reserve_new_block dn) w = Some (e1, dn1, w1) ->
  e1 = 0 \/ CONFIG_F3FS_FAULT_INJECTION = false ->
  do_recover_data_reserve (S rounds) dn w = Some (e1, dn1, w1).
Proof.
  intros H Hc. cbn [do_recover_data_reserve].
  rewrite (bind_Some _ _ _ _ _ H).
  destruct Hc as [-> | ->]; [reflexivity | now rewrite andb_false_r].
Qed.

(** recovery.c:690-699: the resolver is not run again unless it answers
    -ENOMEM. *)
Lemma do_recover_data_check_prev_single (rounds : nat) (dest : block_t)
    (dn : dnode_of_data) (w w1 : world) (e : Z) :
  check_index_in_prev_nodes dest dn w = Some (e, w1) ->
  e <> - ENOMEM ->
  do_recover_data_check_prev (S rounds) dest dn w = Some (e, w1).
Proof.
  intros H Hc. cbn [do_recover_data_check_prev].
  rewrite (bind_Some _ _ _ _ _ H).
  rewrite (proj2 (Z.eqb_neq _ _) Hc). now rewrite andb_false_r.
Qed.

(** C1.  Data-index repair, slot by slot.
    The range.  A run of do_recover_data that gets as far as the loop
    repairs the slots of the index range [start, end_) of the page, where
    [start] is f3fs_start_bidx_of_node of the page and [end_] is [start]
    plus ADDRS_PER_PAGE in 32 bits, one after the other from [start] on,
    and stops behind the last with 0 or at the first slot that is left with
    an error; after the loop it puts the dnode, having rewritten the footer
    first when there was no error, and returns what the loop gave.
    A slot.  Let [src] be the address the live dnode holds at the slot and
    [dest] the address the recovered page records there, both past the
    sanity check, and let the two sentinels differ.  Then
    - (a) if [src = dest], nothing happens: no call is made;
    - (b) else if [dest] is NULL_ADDR, the one call made is the truncation of
      the single block of the slot;
    - (c) else if [dest] is NEW_ADDR, the slot is truncated and then a new
      block is reserved in it, after the extension of i_size where it is
      due, and nothing else is called;
    - (d), (e) else [dest] is an address META_POR accepts.  After the
      extension of i_size where it is due, a new block is reserved first if
      [src] is NULL_ADDR, and when that fails the slot is left with the
      error of the reservation and nothing more is done; then the collision
      resolver is run on [dest], and when it fails the slot is left with
      its error and nothing more is done; only when it answers 0 is [src]
      replaced by [dest] with the version of the node, and the slot left
      with 0.  Such a slot does return when fault injection is not
      configured and the resolver does not answer -ENOMEM.
    The two retries.  The reservation is made once when it succeeds or fault
    injection is not configured, and the resolver is run once unless it
    answers -ENOMEM. *)
Theorem do_recover_data_index_cases :
  (forall (rounds : nat) (i : inode) (page : page) (w w' : world) (err : Z),
     do_recover_data rounds i page w = Some (err, w') ->
     exists r w0,
       do_recover_data_prepare rounds i page w = Some (r, w0) /\
       match r with
       | inl e => err = e /\ w' = w0
       | inr (start, end_, dn, ni) =>
           (exists s,
              start = rd (f3fs_start_bidx_of_node (ofs_of_node page) i) s /\
              end_ = u32 (start + rd (ADDRS_PER_PAGE page i) s)) /\
           exists dn1 w1 l_end,
             index_range_repaired rounds i page ni start end_ dn w0 err dn1 w1 /\
             grows w1 w' l_end /\
             calls l_end =
               (if nz err then []
                else [Act (copy_node_footer (dn_node_page dn1) page);
                      Act (fill_node_footer (dn_node_page dn1) (dn_nid dn1)
                             (ni_ino ni) (ofs_of_node page) false);
                      Act (set_page_dirty (dn_node_page dn1))])
               ++ [Act (f3fs_put_dnode dn1)]
       end) /\
  (forall (rounds : nat) (i : inode) (page : page) (ni : node_info)
          (start : Z) (dn : dnode_of_data) (w : world),
     let src := slot_src dn w in
     let dest := slot_dest page dn w in
     let run := do_recover_data_index rounds i page ni start dn w in
     corrupt_blkaddr src = false -> corrupt_blkaddr dest = false ->
     NULL_ADDR <> NEW_ADDR ->
     (src = dest -> run = Some (0, dn, w)) /\
     (src <> dest -> dest = NULL_ADDR ->
      exists dn' w',
        run = Some (0, dn', w') /\
        grows w w' [Ev (w_st w) (f3fs_truncate_data_blocks_range dn 1) dn']) /\
     (src <> dest -> dest = NEW_ADDR ->
      exists dn' w' l_size s1 dn1 s2 e2,
        run = Some (0, dn', w') /\
        grows w w' (l_size ++ [Ev s1 (f3fs_truncate_data_blocks_range dn 1) dn1;
                               Ev s2 (f3fs_reserve_new_block dn1) (e2, dn')]) /\
        calls l_size = size_extension i start w) /\
     (src <> dest -> dest <> NULL_ADDR -> dest <> NEW_ADDR ->
      f3fs_is_valid_blkaddr dest META_POR = true /\
      (forall e dn' w',
         run = Some (e, dn', w') ->
         exists ws er dnr wr l_size,
           do_recover_data_i_size i start w = Some (tt, ws) /\
           grows w ws l_size /\ calls l_size = size_extension i start w /\
           (src = NULL_ADDR ->
            exists wr0,
              do_recover_data_reserve rounds dn ws = Some (er, dnr, wr0) /\
              perform (f3fs_bug_on (nz er)) wr0 = Some (tt, wr)) /\
           (src <> NULL_ADDR -> er = 0 /\ dnr = dn /\ wr = ws) /\
           (er <> 0 -> e = er /\ dn' = dnr /\ w' = wr) /\
           (er = 0 ->
            exists ep wp,
              do_recover_data_check_prev rounds dest dnr wr = Some (ep, wp) /\
              (ep <> 0 -> e = ep /\ dn' = dnr /\ w' = wp) /\
              (ep = 0 ->
               e = 0 /\
               perform (f3fs_replace_block dnr src dest (ni_version ni) false false) wp
                 = Some (dn', w')))) /\
      (rounds <> 0%nat -> CONFIG_F3FS_FAULT_INJECTION = false ->
       (forall dn1 w1 w2, check_index_in_prev_nodes dest dn1 w1 <> Some (- ENOMEM, w2)) ->
       run <> None))) /\
  (forall (rounds : nat) (dest : block_t) (dn dn1 : dnode_of_data) (w w1 : world)
          (e : Z),
     (perform (f3fs_reserve_new_block dn) w = Some (e, dn1, w1) ->
      e = 0 \/ CONFIG_F3FS_FAULT_INJECTION = false ->
      do_recover_data_reserve (S rounds) dn w = Some (e, dn1, w1)) /\
     (check_index_in_prev_nodes dest dn w = Some (e, w1) ->
      e <> - ENOMEM ->
      do_recover_data_check_prev (S rounds) dest dn w = Some (e, w1))).
Proof.
  split; [| split].
  - intros rounds i page w w' err H.
    destruct (do_recover_data_prepare_run _ _ _ _ _ _ H) as (r & w0 & Hp & Hr).
    exists r, w0. split; [exact Hp |].
    destruct r as [e | [[[start end_] dn] ni]]; [exact Hr |].
    destruct Hr as (Hs & Hslots). split; [exact Hs |].
    now apply do_recover_data_slots_range.
  - intros rounds i page ni start dn w src dest run Hsrc Hdest Hsent.
    pose proof (do_recover_data_index_valid_dest rounds i page ni start dn) as Hvalid.
    pose proof (do_recover_data_index_checked rounds i page ni start dn w Hsrc Hdest)
      as Hrun.
    fold src dest run in Hrun.
    destruct (do_recover_data_i_size_run i start w)
      as (ws & l_size & Hsize & Hgs & Hcs & Hks).
    split; [| split; [| split]].
    + intros Heq. rewrite Hrun. now rewrite (proj2 (Z.eqb_eq _ _) Heq).
    + intros Hne Hd. rewrite Hrun.
      rewrite (proj2 (Z.eqb_neq _ _) Hne), (proj2 (Z.eqb_eq _ _) Hd).
      unfold bind. rewrite perform_run. cbn.
      do 2 eexists. split; [reflexivity | grows_now].
    + intros Hne Hd. rewrite Hrun.
      rewrite (proj2 (Z.eqb_neq _ _) Hne).
      assert (Hn : dest <> NULL_ADDR) by congruence.
      rewrite (proj2 (Z.eqb_neq _ _) Hn), Hks, (proj2 (Z.eqb_eq _ _) Hd).
      unfold bind. rewrite perform_run. cbn. rewrite perform_run. cbn.
      destruct (sem (f3fs_reserve_new_block _) _) as [[e2 dn2] s2] eqn:E2. cbn.
      do 7 eexists. split; [reflexivity |]. split; [| exact Hcs].
      unfold grows in *. cbn. rewrite Hgs, <- !app_assoc. reflexivity.
    + intros Hne Hn Hw.
      assert (Hv : f3fs_is_valid_blkaddr dest META_POR = true).
      { unfold corrupt_blkaddr, __is_valid_data_blkaddr in Hdest.
        rewrite (proj2 (Z.eqb_neq _ _) Hn), (proj2 (Z.eqb_neq _ _) Hw) in Hdest.
        cbn in Hdest. now destruct (f3fs_is_valid_blkaddr dest META_POR). }
      split; [exact Hv |]. split.
      * intros e dn' w' H.
        destruct (Hvalid dn' w w' e Hsrc Hdest Hne Hn Hw H)
          as (ws' & er & dnr & wr & Hsize' & Hrest).
        rewrite Hsize in Hsize'. injection Hsize' as <-.
        exists ws, er, dnr, wr, l_size.
        split; [exact Hsize |]. split; [exact Hgs |]. split; [exact Hcs | exact Hrest].
      * intros Hr Hfi Hmem Hnone. rewrite Hrun in Hnone.
        rewrite (proj2 (Z.eqb_neq _ _) Hne), (proj2 (Z.eqb_neq _ _) Hn), Hks,
          (proj2 (Z.eqb_neq _ _) Hw), Hv in Hnone.
        destruct rounds as [| rounds]; [now apply Hr |].
        mnone Hnone.
        -- now apply do_recover_data_reserve_once in Hnone.
        -- now apply do_recover_data_check_prev_once in Hnone.
        -- now apply do_recover_data_check_prev_once in Hnone.
  - intros rounds dest dn dn1 w w1 e. split.
    + apply do_recover_data_reserve_single.
    + apply do_recover_data_check_prev_single.
Qed.
(** ** Discovery *)

Lemma tmp_reads_app (l1 l2 : list event) :
  tmp_reads (l1 ++ l2) = tmp_reads l1 ++ tmp_reads l2.
Proof.
  induction l1 as [| ev l1 IH]; cbn; [reflexivity |].
  destruct (tmp_read ev); cbn; now rewrite IH.
Qed.

Lemma tmp_reads_none (l : list event) : Forall no_tmp_read l -> tmp_reads l = [].
Proof.
  induction 1 as [| ev l Hev _ IH]; cbn; [reflexivity |]. now rewrite Hev.
Qed.

Lemma add_fsync_inode_returns (head : fsync_list) (ino : nid_t) (quota_inode : bool) :
  returns (add_fsync_inode head ino quota_inode).
Proof. unfold add_fsync_inode. mreturns. Qed.

Lemma find_fsync_dnodes_block_returns (check_only : bool) (head : fsync_list)
    (blkaddr : block_t) (page : page) (err : Z) :
  returns (find_fsync_dnodes_block check_only head blkaddr page err).
Proof. unfold find_fsync_dnodes_block, add_fsync_inode. mreturns. Qed.

Lemma find_fsync_dnodes_block_no_tmp_read (check_only : bool) (head : fsync_list)
    (blkaddr : block_t) (page : page) (err : Z) :
  all_calls no_tmp_read (find_fsync_dnodes_block check_only head blkaddr page err).
Proof.
  unfold find_fsync_dnodes_block, add_fsync_inode, no_tmp_read.
  mall ltac:(reflexivity).
Qed.

Lemma find_fsync_dnodes_loop_walk (F : Z) (check_only : bool) :
  F < 2 ^ 32 ->
  forall (rounds : nat) (head : fsync_list) (blkaddr : block_t)
         (cnt ra err : Z) (w : world),
    0 <= cnt < 2 ^ 32 - 1 ->
    (Z.to_nat (Z.max (F - cnt) 1) <= rounds)%nat ->
    exists r head' w' l,
      find_fsync_dnodes_loop rounds check_only F head blkaddr cnt ra err w
        = Some (r, head', w') /\
      grows w w' l /\
      Z.of_nat (length (tmp_reads l)) <= Z.max (F - cnt) 1 /\
      follows_chain (tmp_reads l) /\
      (forall a x rest, tmp_reads l = (a, x) :: rest -> a = blkaddr).
Proof.
  intros HF. induction rounds as [| rounds IH]; intros head blkaddr cnt ra err w Hcnt Hr.
  - lia.
  - cbn [find_fsync_dnodes_loop].
    destruct (f3fs_is_valid_blkaddr blkaddr META_POR); cbn [negb].
    + rewrite (bind_Some _ _ _ _ _ (perform_run _ _)).
      destruct (sem (f3fs_get_tmp_page blkaddr) (w_st w)) as [[e | p] s1] eqn:E; cbn [fst snd].
      * do 4 eexists. split; [reflexivity |]. split; [grows_now |].
        cbn. repeat split; [lia | intros a x rest [= <- _ _]; reflexivity].
      * destruct (is_recoverable_dnode p); cbn [negb].
        2:{ rewrite (bind_Some _ _ _ _ _ (perform_run _ _)).
            do 4 eexists. split; [reflexivity |]. split; [grows_now |].
            cbn. repeat split; [lia | intros a x rest [= <- _ _]; reflexivity]. }
        match goal with
        | |- context [bind (find_fsync_dnodes_block ?c ?h ?b ?pg ?e) _ ?w1] =>
            destruct (find_fsync_dnodes_block_returns c h b pg e w1)
              as ([rb head1] & wb & Hb);
            destruct (find_fsync_dnodes_block_no_tmp_read c h b pg e w1 _ _ Hb)
              as (lb & Hlb & Hnb);
            rewrite (bind_Some _ _ _ _ _ Hb)
        end.
        apply tmp_reads_none in Hnb.
        destruct rb as [e | err1].
        -- rewrite (bind_Some _ _ _ _ _ (perform_run _ _)).
           do 4 eexists. split; [reflexivity |]. split.
           ++ unfold grows in *. cbn [w_trace] in *. rewrite Hlb, <- !app_assoc. reflexivity.
           ++ cbn [app tmp_reads tmp_read]. rewrite tmp_reads_app, Hnb. cbn.
              repeat split; [lia | intros a x rest [= <- _ _]; reflexivity].
        -- assert (Hu : u32 (cnt + 1) = cnt + 1).
           { unfold u32. apply Z.mod_small. lia. }
           rewrite Hu.
           destruct ((F <=? cnt + 1) || (blkaddr =? next_blkaddr_of_node p)) eqn:Hchk.
           ++ rewrite (bind_Some _ _ _ _ _ (perform_run _ _)).
              do 4 eexists. split; [reflexivity |]. split.
              ** unfold grows in *. cbn [w_trace] in *. rewrite Hlb, <- !app_assoc. reflexivity.
              ** cbn [app tmp_reads tmp_read]. rewrite tmp_reads_app, Hnb. cbn.
                 repeat split; [lia | intros a x rest [= <- _ _]; reflexivity].
           ++ apply orb_false_iff in Hchk as [Hlt Hself].
              apply Z.leb_gt in Hlt. apply Z.eqb_neq in Hself.
              rewrite (bind_Some _ _ _ _ _ (perform_run _ _)).
              rewrite (bind_Some _ _ _ _ _ (perform_run _ _)).
              cbn [fst snd w_st w_trace].
              match goal with
              | |- context [find_fsync_dnodes_loop rounds check_only F ?h ?b ?c ?r ?e ?w1] =>
                  destruct (IH h b c r e w1) as (r2 & head2 & w2 & l2 & H2 & Hl2 & Hn2 & Hf2 & Hs2);
                  [lia | lia |]
              end.
              rewrite H2. do 4 eexists. split; [reflexivity |]. split.
              ** unfold grows in *. cbn [w_trace] in *. rewrite Hl2, Hlb, <- !app_assoc.
                 reflexivity.
              ** cbn [app tmp_reads tmp_read]. rewrite tmp_reads_app, Hnb. cbn [app].
                 change (tmp_reads (?a :: ?b :: l2)) with (tmp_reads l2).
                 split; [cbn [length]; lia |]. split.
                 --- cbn [follows_chain]. destruct (tmp_reads l2) as [| [a' x'] rest'] eqn:Hrd.
                     +++ exact I.
                     +++ split; [| exact Hf2].
                         rewrite (Hs2 _ _ _ eq_refl).
                         exists p. repeat split. congruence.
                 --- intros a x rest [= <- _ _]. reflexivity.
    + do 4 eexists. split; [reflexivity |]. split; [apply grows_refl |].
      cbn. repeat split; [lia | discriminate].
Qed.

Lemma find_fsync_dnodes_block_no_break (check_only : bool) (head head' : fsync_list)
    (blkaddr : block_t) (page : page) (err e : Z) (w w' : world) :
  discovery_calls_succeed ->
  find_fsync_dnodes_block check_only head blkaddr page err w = Some (inl e, head', w') ->
  False.
Proof.
  intros (Hrip & Hdq & Hda & Hig) H.
  unfold find_fsync_dnodes_block, add_fsync_inode in H.
  mexec H;
    repeat match goal with
      | Hp : (_, _) = (_, _) |- _ => injection Hp as <- <-
      | Hn : true && _ = _ |- _ => cbn [andb] in Hn
      | E : sem (f3fs_recover_inode_page ?p) ?s = (?a, _), Hn : nz ?a = true |- _ =>
          pose proof (Hrip p s) as Hx; rewrite E in Hx; cbn in Hx; subst a; discriminate Hn
      | E : sem (f3fs_dquot_initialize ?p) ?s = (?a, _), Hn : nz ?a = true |- _ =>
          pose proof (Hdq p s) as Hx; rewrite E in Hx; cbn in Hx; subst a; discriminate Hn
      | E : sem (dquot_alloc_inode ?p) ?s = (?a, _), Hn : nz ?a = true |- _ =>
          pose proof (Hda p s) as Hx; rewrite E in Hx; cbn in Hx; subst a; discriminate Hn
      | E : sem (f3fs_iget_retry ?p) ?s = (inl ?a, _), Hn : (?a =? - ENOENT) = false |- _ =>
          pose proof (Hig p s a) as Hx; rewrite E in Hx; cbn in Hx;
          rewrite (Hx eq_refl) in Hn; discriminate Hn
      end;
    try discriminate.
Qed.

(** On a chain that never ends the walk can only stop at the loop check. *)
Lemma find_fsync_dnodes_loop_cycle (F : Z) (check_only : bool) (R : block_t -> Prop) :
  chain_never_ends R -> discovery_calls_succeed ->
  forall (rounds : nat) (head : fsync_list) (blkaddr : block_t)
         (cnt ra err : Z) (w : world) (r : Z) (head' : fsync_list) (w' : world),
    R blkaddr ->
    find_fsync_dnodes_loop rounds check_only F head blkaddr cnt ra err w
      = Some (r, head', w') ->
    r = - EINVAL.
Proof.
  intros Hch Hok. induction rounds as [| rounds IH];
    intros head blkaddr cnt ra err w r head' w' HR H; [discriminate H |].
  cbn [find_fsync_dnodes_loop] in H.
  destruct (Hch blkaddr HR) as (Hv & Hrd). rewrite Hv in H. cbn [negb] in H.
  apply bind_inv in H as (x & w1 & H1 & H).
  apply perform_inv in H1 as (s1 & E & ->).
  destruct (Hrd (w_st w)) as (p & s' & Ep & Hrec & Hnext).
  rewrite Ep in E. injection E as <- <-.
  rewrite Hrec in H. cbn [negb] in H.
  apply bind_inv in H as ([rb head1] & wb & Hb & H).
  destruct rb as [e | err1].
  - exfalso. eapply find_fsync_dnodes_block_no_break; eassumption.
  - destruct ((F <=? u32 (cnt + 1)) || (blkaddr =? next_blkaddr_of_node p)).
    + mexec H. now injection H as -> _.
    + apply bind_inv in H as (x1 & w2 & _ & H).
      apply bind_inv in H as (x2 & w3 & _ & H).
      eapply IH; eassumption.
Qed.

(** recovery.c:434-443: the loop check ends the walk at once. *)
Lemma find_fsync_dnodes_loop_check (F : Z) (check_only : bool) (rounds : nat)
    (head head1 : fsync_list) (blkaddr : block_t) (cnt ra err err1 : Z)
    (w wb : world) (p : page) (s1 : kstate) :
  f3fs_is_valid_blkaddr blkaddr META_POR = true ->
  sem (f3fs_get_tmp_page blkaddr) (w_st w) = (inr p, s1) ->
  is_recoverable_dnode p = true ->
  find_fsync_dnodes_block check_only head blkaddr p err
    {| w_st := s1;
       w_trace := w_trace w ++ [Ev (w_st w) (f3fs_get_tmp_page blkaddr) (inr p)] |}
    = Some (inr err1, head1, wb) ->
  F <= u32 (cnt + 1) \/ blkaddr = next_blkaddr_of_node p ->
  exists w',
    find_fsync_dnodes_loop (S rounds) check_only F head blkaddr cnt ra err w
      = Some (- EINVAL, head1, w') /\
    grows wb w' [Ev (w_st wb) (f3fs_put_page (page_ref p) 1) tt].
Proof.
  intros Hv E Hrec Hb Hchk. cbn [find_fsync_dnodes_loop].
  rewrite Hv. cbn [negb].
  rewrite (bind_Some _ _ _ _ _ (perform_run _ _)), E. cbn [fst snd].
  rewrite Hrec. cbn [negb]. rewrite (bind_Some _ _ _ _ _ Hb).
  assert (Hc : (F <=? u32 (cnt + 1)) || (blkaddr =? next_blkaddr_of_node p) = true).
  { apply orb_true_iff. destruct Hchk as [Hc | Hc].
    - left. now apply Z.leb_le.
    - right. now apply Z.eqb_eq. }
  rewrite Hc. rewrite (bind_Some _ _ _ _ _ (perform_run _ _)).
  destruct (sem (f3fs_put_page (page_ref p) 1) (w_st wb)) as [[] s2]. cbn.
  eexists. split; reflexivity.
Qed.

(** C2, as the code has it.  Let F be the number of free main-area blocks
    as find_fsync_dnodes computes it.  Given max(F, 1) rounds the walk
    returns, and it has read at most max(F, 1) pages of the log; every read
    but the last got a page, and the next read is of the block its footer
    names, never of the same block again.  Whenever the incremented counter
    reaches F, or the footer of the page names the block of the page
    itself, the walk stops at once with -EINVAL.  So on a chain that never
    ends, one with a back-edge, the walk returns -EINVAL within max(F, 1)
    reads whenever its collaborators do not fail; a cycle of more than one
    block is walked round until the counter reaches F. *)
Theorem find_fsync_dnodes_loop_detection
    (rounds : nat) (head : fsync_list) (check_only : bool) (w : world) :
  let F := free_blocks_of (rd valid_user_blocks (w_st w)) in
  let start := rd (NEXT_FREE_BLKADDR CURSEG_WARM_NODE) (w_st w) in
  (Z.to_nat (Z.max F 1) <= rounds)%nat ->
  exists r head' w' l,
    find_fsync_dnodes rounds head check_only w = Some (r, head', w') /\
    grows w w' l /\
    Z.of_nat (length (tmp_reads l)) <= Z.max F 1 /\
    follows_chain (tmp_reads l) /\
    (forall R : block_t -> Prop,
       chain_never_ends R -> discovery_calls_succeed -> R start ->
       r = - EINVAL) /\
    (forall (n : nat) (head0 head1 : fsync_list) (blkaddr : block_t)
            (cnt ra err err1 : Z) (w0 wb : world) (p : page) (s1 : kstate),
       f3fs_is_valid_blkaddr blkaddr META_POR = true ->
       sem (f3fs_get_tmp_page blkaddr) (w_st w0) = (inr p, s1) ->
       is_recoverable_dnode p = true ->
       find_fsync_dnodes_block check_only head0 blkaddr p err
         {| w_st := s1;
            w_trace := w_trace w0 ++
                       [Ev (w_st w0) (f3fs_get_tmp_page blkaddr) (inr p)] |}
         = Some (inr err1, head1, wb) ->
       F <= u32 (cnt + 1) \/ blkaddr = next_blkaddr_of_node p ->
       exists w1,
         find_fsync_dnodes_loop (S n) check_only F head0 blkaddr cnt ra err w0
           = Some (- EINVAL, head1, w1) /\
         grows wb w1 [Ev (w_st wb) (f3fs_put_page (page_ref p) 1) tt]).
Proof.
  intros F start Hr.
  assert (HF : F < 2 ^ 32).
  { subst F. unfold free_blocks_of, u32. apply Z.mod_pos_bound. lia. }
  destruct (find_fsync_dnodes_loop_walk F check_only HF rounds head start 0
              RECOVERY_MAX_RA_BLOCKS 0 w) as (r & head' & w' & l & H & Hl & Hn & Hf & _).
  { lia. }
  { now rewrite Z.sub_0_r. }
  rewrite Z.sub_0_r in Hn.
  assert (Hrun : find_fsync_dnodes rounds head check_only w = Some (r, head', w')).
  { unfold find_fsync_dnodes.
    rewrite (bind_Some _ _ _ _ _ (read_run _ _)).
    rewrite (bind_Some _ _ _ _ _ (read_run _ _)). exact H. }
  exists r, head', w', l. split; [exact Hrun |]. split; [exact Hl |].
  split; [exact Hn |]. split; [exact Hf |]. split.
  - intros R Hch Hok HR.
    eapply find_fsync_dnodes_loop_cycle; eassumption.
  - intros n head0 head1 blkaddr cnt ra err err1 w0 wb p s1 Hv E Hrec Hb Hchk.
    eapply find_fsync_dnodes_loop_check; eassumption.
Qed.
(** * The orchestrator *)

Lemma fix_answers_app (l1 l2 : list event) :
  fix_answers (l1 ++ l2) = fix_answers l1 ++ fix_answers l2.
Proof.
  induction l1 as [| ev l1 IH]; [reflexivity |].
  cbn [app fix_answers]. destruct (fix_answer ev); cbn [app]; now rewrite IH.
Qed.

Lemma fix_answers_none (l : list event) :
  Forall (fun ev => fix_answer ev = None) l -> fix_answers l = [].
Proof.
  induction 1 as [| ev l Hev _ IH]; [reflexivity |].
  cbn [fix_answers]. now rewrite Hev.
Qed.

Lemma all_calls_weaken (P Q : event -> Prop) {A} (m : M A) :
  (forall ev, P ev -> Q ev) -> all_calls P m -> all_calls Q m.
Proof.
  intros HPQ Hm w a w' H. destruct (Hm w a w' H) as (l & Hl & HP).
  exists l. split; [exact Hl |]. eapply Forall_impl; eassumption.
Qed.

Lemma all_calls_log (P : event -> Prop) {A} (m : M A) (w : world) (a : A) (w' : world)
    (l : list event) :
  all_calls P m -> m w = Some (a, w') -> grows w w' l -> Forall P l.
Proof.
  intros Hm H Hl. destruct (Hm w a w' H) as (l' & Hl' & HP).
  now rewrite (grows_inj _ _ _ _ Hl Hl').
Qed.


Lemma destroy_fsync_dnodes_calls (P : event -> Prop) (head : fsync_list) (drop : Z) :
  (forall s i r, P (Ev s (iput i) r)) ->
  (forall s i r, P (Ev s (f3fs_inode_synced i) r)) ->
  all_calls P (destroy_fsync_dnodes head drop).
Proof.
  intros Hput Hsync.
  induction head as [| entry rest IH]; cbn [destroy_fsync_dnodes].
  - apply all_ret.
  - unfold del_fsync_inode.
    mall ltac:(first [exact IH | apply all_perform; intros; first [apply Hput | apply Hsync]]).
Qed.

(** Discovery writes no checkpoint and fixes no write pointer. *)
Lemma find_fsync_dnodes_block_quiet (check_only : bool) (head : fsync_list)
    (blkaddr : block_t) (p : page) (err : Z) :
  all_calls (fun ev => no_checkpoint ev /\ fix_answer ev = None)
    (find_fsync_dnodes_block check_only head blkaddr p err).
Proof.
  unfold find_fsync_dnodes_block, add_fsync_inode.
  mall ltac:(split; [exact I | reflexivity]).
Qed.

Lemma find_fsync_dnodes_loop_quiet (check_only : bool) (F : Z) (rounds : nat) :
  forall head blkaddr cnt ra err,
    all_calls (fun ev => no_checkpoint ev /\ fix_answer ev = None)
      (find_fsync_dnodes_loop rounds check_only F head blkaddr cnt ra err).
Proof.
  induction rounds as [| rounds IH]; intros head blkaddr cnt ra err;
    cbn [find_fsync_dnodes_loop].
  - apply all_out_of_rounds.
  - mall ltac:(first [apply IH | apply find_fsync_dnodes_block_quiet
                     | split; [exact I | reflexivity]]).
Qed.





(** recovery.c:827-834: unless the repair pass is entered, control reaches
    [skip:] with what discovery returned. *)
Lemma f3fs_recover_fsync_data_steps_skipped (rounds : nat) (check_only : bool)
    (w w1 : world) (err : Z) (il : fsync_list) :
  find_fsync_dnodes rounds [] check_only w = Some (err, il, w1) ->
  nz err || list_empty il || check_only = true ->
  f3fs_recover_fsync_data_steps rounds check_only w = Some (skipped check_only err il, w1).
Proof.
  intros H Hc. unfold f3fs_recover_fsync_data_steps.
  rewrite (bind_Some _ _ _ _ _ H). unfold skipped.
  destruct (nz err || list_empty il); [reflexivity |].
  cbn [orb] in Hc. now rewrite Hc.
Qed.

Lemma f3fs_recover_fsync_data_steps_inv (rounds : nat) (check_only : bool)
    (w w' : world) (sk : at_skip) :
  f3fs_recover_fsync_data_steps rounds check_only w = Some (sk, w') ->
  exists err il w1,
    find_fsync_dnodes rounds [] check_only w = Some (err, il, w1) /\
    (nz err || list_empty il || check_only = true ->
     sk = skipped check_only err il /\ w' = w1).
Proof.
  intros H. pose proof H as H0.
  unfold f3fs_recover_fsync_data_steps in H.
  apply bind_inv in H as ([err il] & w1 & H1 & _).
  exists err, il, w1. split; [exact H1 |].
  intros Hc.
  rewrite (f3fs_recover_fsync_data_steps_skipped _ _ _ _ _ _ H1 Hc) in H0.
  now injection H0 as <- <-.
Qed.





Lemma f3fs_recover_fsync_data_skip_log (check_only : bool) (s_flags quota_enabled : Z)
    (sk : at_skip) (w w' : world) (r : Z) :
  f3fs_recover_fsync_data_skip check_only s_flags quota_enabled sk w = Some (r, w') ->
  exists l, grows w w' l.
Proof.
  intros H.
  assert (Ha : all_calls (fun _ => True)
                 (f3fs_recover_fsync_data_skip check_only s_flags quota_enabled sk)).
  { unfold f3fs_recover_fsync_data_skip.
    mall ltac:(first [apply destroy_fsync_dnodes_calls; intros; exact I | exact I]). }
  destruct (Ha _ _ _ H) as (l & Hl & _). now exists l.
Qed.





(** ** The addresses recovery writes *)
















Lemma list_empty_false (il : fsync_list) : list_empty il = false <-> il <> [].
Proof. destruct il; cbn; split; intros H; congruence. Qed.

(** * The fsync-inode table: lookups *)

Lemma get_fsync_inode_app_None (head : fsync_list) (entry : fsync_inode_entry)
    (ino : nid_t) :
  get_fsync_inode head ino = None ->
  get_fsync_inode (head ++ [entry]) ino =
    if i_ino (e_inode entry) =? ino then Some (length head, entry) else None.
Proof.
  induction head as [| e rest IH]; cbn [get_fsync_inode app length]; intros H.
  - now destruct (i_ino (e_inode entry) =? ino).
  - destruct (i_ino (e_inode e) =? ino); [discriminate H |].
    destruct (get_fsync_inode rest ino); [discriminate H |].
    rewrite (IH eq_refl). now destruct (i_ino (e_inode entry) =? ino).
Qed.

Lemma get_fsync_inode_app_other (head : fsync_list) (entry : fsync_inode_entry)
    (ino : nid_t) :
  i_ino (e_inode entry) <> ino ->
  get_fsync_inode (head ++ [entry]) ino = get_fsync_inode head ino.
Proof.
  intros Hne. induction head as [| e rest IH]; cbn [get_fsync_inode app].
  - apply Z.eqb_neq in Hne. now rewrite Hne.
  - destruct (i_ino (e_inode e) =? ino); [reflexivity |]. now rewrite IH.
Qed.

(** A store through a pointer that leaves the inode of the entry alone moves
    no entry: a lookup finds the same position, and the stored entry if the
    position is the pointer's. *)
Lemma get_fsync_inode_entry_store (f : fsync_inode_entry -> fsync_inode_entry) :
  (forall e, e_inode (f e) = e_inode e) ->
  forall (head : fsync_list) (p : nat) (ino : nid_t),
    get_fsync_inode (entry_store head p f) ino =
    option_map (fun q => (fst q, if Nat.eqb (fst q) p then f (snd q) else snd q))
      (get_fsync_inode head ino).
Proof.
  intros Hf. induction head as [| e rest IH]; intros p ino; [reflexivity |].
  destruct p as [| p]; cbn [entry_store get_fsync_inode].
  - rewrite Hf. destruct (i_ino (e_inode e) =? ino); [reflexivity |].
    destruct (get_fsync_inode rest ino) as [[q e1] |]; reflexivity.
  - destruct (i_ino (e_inode e) =? ino); [reflexivity |].
    rewrite IH. destruct (get_fsync_inode rest ino) as [[q e1] |]; reflexivity.
Qed.

Lemma get_fsync_inode_position (head : fsync_list) (ino : nid_t) (p : nat)
    (e : fsync_inode_entry) :
  get_fsync_inode head ino = Some (p, e) -> nth_error head p = Some e.
Proof.
  revert p. induction head as [| e0 rest IH]; intros p; cbn [get_fsync_inode];
    [discriminate |].
  destruct (i_ino (e_inode e0) =? ino).
  - intros H. now injection H as <- <-.
  - destruct (get_fsync_inode rest ino) as [[q e1] |]; cbn; [| discriminate].
    intros H. injection H as <- <-. now apply IH.
Qed.

(** X1.  get_fsync_inode returns the first entry of the list whose inode has
    the number asked for, with its place in the list, and NULL exactly when
    no entry of the list has it. *)
Theorem get_fsync_inode_first (head : fsync_list) (ino : nid_t) :
  match get_fsync_inode head ino with
  | Some (p, e) =>
      nth_error head p = Some e /\
      i_ino (e_inode e) = ino /\
      Forall (fun e' => i_ino (e_inode e') <> ino) (firstn p head)
  | None => Forall (fun e' => i_ino (e_inode e') <> ino) head
  end.
Proof.
  induction head as [| e0 rest IH]; cbn [get_fsync_inode]; [constructor |].
  destruct (i_ino (e_inode e0) =? ino) eqn:E.
  - apply Z.eqb_eq in E. repeat split; [exact E | constructor].
  - apply Z.eqb_neq in E.
    destruct (get_fsync_inode rest ino) as [[q e1] |]; cbn.
    + destruct IH as (Hn & Hi & Hall). repeat split; try assumption.
      now constructor.
    + now constructor.
Qed.

Lemma add_fsync_inode_table (head head' : fsync_list) (ino : nid_t)
    (quota_inode : bool) (w w' : world) (ptr : entry_ptr) :
  (forall s i, fst (sem (f3fs_iget_retry ino) s) = inr i -> i_ino i = ino) ->
  get_fsync_inode head ino = None ->
  add_fsync_inode head ino quota_inode w = Some (inr ptr, head', w') ->
  get_fsync_inode head' ino = Some ptr /\
  fst ptr = length head /\
  (forall ino', ino' <> ino -> get_fsync_inode head' ino' = get_fsync_inode head ino') /\
  e_last_dentry (snd ptr) = 0.
Proof.
  intros Hig Hnone H. unfold add_fsync_inode in H. mexec H; try discriminate.
  all: match goal with
       | E : sem (f3fs_iget_retry _) ?s = (inr ?i, _) |- _ =>
           pose proof (Hig s i) as Hi; rewrite E in Hi; specialize (Hi eq_refl)
       end.
  all: injection H as -> ->.
  all: split; [| split; [reflexivity | split; [| reflexivity]]]; cbn [fst].
  all: try (rewrite (get_fsync_inode_app_None _ _ _ Hnone); cbn [e_inode];
            apply Z.eqb_eq in Hi; now rewrite Hi).
  all: intros ino' Hne; apply get_fsync_inode_app_other; cbn [e_inode]; congruence.
Qed.

(** X2.  Where f3fs_iget_retry hands out the inode it was asked for, an
    inode added to a list that did not hold it is found by the next lookup,
    at the tail, as the entry add_fsync_inode returned; the lookup of any
    other inode number is what it was. *)
Theorem add_fsync_inode_lookup (head head' : fsync_list) (ino : nid_t)
    (quota_inode : bool) (w w' : world) (ptr : entry_ptr) :
  (forall s i, fst (sem (f3fs_iget_retry ino) s) = inr i -> i_ino i = ino) ->
  get_fsync_inode head ino = None ->
  add_fsync_inode head ino quota_inode w = Some (inr ptr, head', w') ->
  get_fsync_inode head' ino = Some ptr /\
  fst ptr = length head /\
  forall ino', ino' <> ino -> get_fsync_inode head' ino' = get_fsync_inode head ino'.
Proof.
  intros Hig Hnone H.
  destruct (add_fsync_inode_table _ _ _ _ _ _ _ Hig Hnone H) as (H1 & H2 & H3 & _).
  now repeat split.
Qed.

Lemma get_fsync_inode_ino (head : fsync_list) (ino : nid_t) (p : nat)
    (e : fsync_inode_entry) :
  get_fsync_inode head ino = Some (p, e) -> i_ino (e_inode e) = ino.
Proof.
  revert p. induction head as [| e0 rest IH]; intros p; cbn [get_fsync_inode];
    [discriminate |].
  destruct (i_ino (e_inode e0) =? ino) eqn:E.
  - intros H. injection H as <- <-. now apply Z.eqb_eq.
  - destruct (get_fsync_inode rest ino) as [[q e1] |]; cbn; [| discriminate].
    intros H. injection H as <- <-. now apply (IH q).
Qed.

(** The mark of recovery.c:429-432 through the entry of [ino]: what the
    next lookups find. *)
Lemma find_fsync_dnodes_mark_lookup (head : fsync_list) (q : nat)
    (e0 : fsync_inode_entry) (blkaddr : block_t) (p : page) (ino : nid_t) :
  get_fsync_inode head ino = Some (q, e0) ->
  get_fsync_inode (find_fsync_dnodes_mark head (q, e0) blkaddr p) ino =
    Some (q, {| e_inode := e_inode e0; e_blkaddr := blkaddr;
                e_last_dentry := if IS_INODE p && is_dent_dnode p
                                 then blkaddr else e_last_dentry e0 |}) /\
  forall ino', ino' <> ino ->
    get_fsync_inode (find_fsync_dnodes_mark head (q, e0) blkaddr p) ino' =
    get_fsync_inode head ino'.
Proof.
  intros H. unfold find_fsync_dnodes_mark. cbn [fst]. split.
  - rewrite get_fsync_inode_entry_store by reflexivity.
    rewrite H. cbn [option_map fst snd]. now rewrite Nat.eqb_refl.
  - intros ino' Hne. rewrite get_fsync_inode_entry_store by reflexivity.
    destruct (get_fsync_inode head ino') as [[q' e1] |] eqn:H'; [| reflexivity].
    cbn [option_map fst snd]. destruct (Nat.eqb q' q) eqn:Eq; [| reflexivity].
    apply Nat.eqb_eq in Eq. subst q'. exfalso.
    apply get_fsync_inode_position in H as Hn. apply get_fsync_inode_position in H' as Hn'.
    rewrite Hn in Hn'. injection Hn' as <-.
    apply get_fsync_inode_ino in H. apply get_fsync_inode_ino in H'. congruence.
Qed.

(** * What the passes call *)

Lemma index_in_data (ev : event) :
  calls_only index_action ev -> calls_only data_action ev.
Proof. unfold calls_only, data_action. now intros ->. Qed.

Lemma inode_in_block (ev : event) :
  calls_only inode_action ev -> calls_only block_action ev.
Proof. unfold calls_only, block_action. now intros ->. Qed.

Lemma dentry_in_block (ev : event) :
  calls_only dentry_action ev -> calls_only block_action ev.
Proof. unfold calls_only, block_action. intros ->. now rewrite orb_true_r. Qed.

Lemma data_in_block (ev : event) :
  calls_only data_action ev -> calls_only block_action ev.
Proof. unfold calls_only, block_action. intros ->. now rewrite !orb_true_r. Qed.

Lemma block_in_repair (ev : event) :
  calls_only block_action ev -> calls_only repair_action ev.
Proof. unfold calls_only, repair_action. intros ->. now rewrite orb_true_r. Qed.

Lemma repair_action_call (ev : event) : calls_only repair_action ev -> repair_call ev.
Proof.
  destruct ev as [R s c a].
  destruct c; try match goal with x : sbi_flag |- _ => destruct x end;
    cbn; intros H; first [exact I | discriminate H].
Qed.

Lemma init_recovered_filename_calls (dir : inode) (raw : f3fs_inode) :
  all_calls (calls_only dentry_action) (init_recovered_filename dir raw).
Proof. unfold init_recovered_filename. mall ltac:(exact eq_refl). Qed.

Lemma recover_dentry_retry_calls (rounds : nat) :
  forall i dir fname err,
    all_calls (calls_only dentry_action) (recover_dentry_retry rounds i dir fname err).
Proof.
  induction rounds as [| rounds IH]; intros i dir fname err;
    cbn [recover_dentry_retry].
  - apply all_out_of_rounds.
  - unfold recover_dentry_out_put. mall ltac:(first [apply IH | exact eq_refl]).
Qed.

Lemma add_fsync_inode_calls (head : fsync_list) (ino : nid_t) :
  all_calls (calls_only dentry_action) (add_fsync_inode head ino false).
Proof. unfold add_fsync_inode. mall ltac:(exact eq_refl). Qed.

Lemma recover_dentry_calls (rounds : nat) (i : inode) (ipage : page) (dl : fsync_list) :
  all_calls (calls_only dentry_action) (recover_dentry rounds i ipage dl).
Proof.
  unfold recover_dentry.
  mall ltac:(first [ apply add_fsync_inode_calls | apply init_recovered_filename_calls
                   | apply recover_dentry_retry_calls | exact eq_refl ]).
Qed.

Lemma recover_inode_calls (i : inode) (p : page) :
  all_calls (calls_only inode_action) (recover_inode i p).
Proof.
  unfold recover_inode, recover_quota_data, recover_inode_projid, recover_inline_flags.
  mall ltac:(exact eq_refl).
Qed.

Lemma check_index_in_prev_nodes_calls (blkaddr : block_t) (dn : dnode_of_data) :
  all_calls (calls_only index_action) (check_index_in_prev_nodes blkaddr dn).
Proof.
  unfold check_index_in_prev_nodes, check_index_truncate_out.
  mall ltac:(first [apply check_index_curseg_sum_silent | exact eq_refl]).
Qed.

Lemma do_recover_data_check_prev_calls (rounds : nat) :
  forall dest dn,
    all_calls (calls_only index_action) (do_recover_data_check_prev rounds dest dn).
Proof.
  induction rounds as [| rounds IH]; intros dest dn; cbn [do_recover_data_check_prev].
  - apply all_out_of_rounds.
  - mall ltac:(first [apply check_index_in_prev_nodes_calls | apply IH | exact eq_refl]).
Qed.

Lemma do_recover_data_reserve_calls (rounds : nat) :
  forall dn, all_calls (calls_only index_action) (do_recover_data_reserve rounds dn).
Proof.
  induction rounds as [| rounds IH]; intros dn; cbn [do_recover_data_reserve].
  - apply all_out_of_rounds.
  - mall ltac:(first [apply IH | exact eq_refl]).
Qed.

Lemma do_recover_data_get_dnode_calls (rounds : nat) :
  forall dn start,
    all_calls (calls_only data_action) (do_recover_data_get_dnode rounds dn start).
Proof.
  induction rounds as [| rounds IH]; intros dn start; cbn [do_recover_data_get_dnode].
  - apply all_out_of_rounds.
  - mall ltac:(first [apply IH | exact eq_refl]).
Qed.

Lemma do_recover_data_index_calls (rounds : nat) (i : inode) (p : page)
    (ni : node_info) (start : Z) (dn : dnode_of_data) :
  all_calls (calls_only index_action) (do_recover_data_index rounds i p ni start dn).
Proof.
  unfold do_recover_data_index.
  mall ltac:(first [ apply do_recover_data_check_prev_calls
                   | apply do_recover_data_reserve_calls | exact eq_refl ]).
Qed.

Lemma do_recover_data_indices_calls (rounds : nat) (n : nat) :
  forall i p ni start dn,
    all_calls (calls_only index_action)
      (do_recover_data_indices rounds n i p ni start dn).
Proof.
  induction n as [| n IH]; intros i p ni start dn; cbn [do_recover_data_indices].
  - apply all_ret.
  - mall ltac:(first [apply do_recover_data_index_calls | apply IH | exact eq_refl]).
Qed.

Lemma do_recover_data_calls (rounds : nat) (i : inode) (p : page) :
  all_calls (calls_only data_action) (do_recover_data rounds i p).
Proof.
  unfold do_recover_data, do_recover_data_slots.
  mall ltac:(first [ apply do_recover_data_get_dnode_calls
                   | apply (all_calls_weaken _ _ _ index_in_data);
                     apply do_recover_data_indices_calls
                   | exact eq_refl ]).
Qed.

Lemma recover_data_block_calls (rounds : nat) (ls : fsync_lists) (blkaddr : block_t)
    (p : page) (err : Z) :
  all_calls (calls_only block_action) (recover_data_block rounds ls blkaddr p err).
Proof.
  unfold recover_data_block.
  mall ltac:(first [ apply (all_calls_weaken _ _ _ inode_in_block);
                     apply recover_inode_calls
                   | apply (all_calls_weaken _ _ _ dentry_in_block);
                     apply recover_dentry_calls
                   | apply (all_calls_weaken _ _ _ data_in_block);
                     apply do_recover_data_calls
                   | exact eq_refl ]).
Qed.

Lemma recover_data_loop_calls (rounds : nat) (n : nat) :
  forall ls blkaddr ra err,
    all_calls (calls_only repair_action) (recover_data_loop rounds n ls blkaddr ra err).
Proof.
  induction n as [| n IH]; intros ls blkaddr ra err; cbn [recover_data_loop].
  - apply all_out_of_rounds.
  - mall ltac:(first [ apply (all_calls_weaken _ _ _ block_in_repair);
                       apply recover_data_block_calls
                     | apply IH | exact eq_refl ]).
Qed.

(** X9.  The repair pass makes none of the orchestrator's calls: it writes
    no checkpoint, takes and releases no checkpoint lock, switches no quota
    file, truncates no page cache and sets none of POR_DOING and
    IS_RECOVERED; it materialises no inode page, charges no quota for a new
    inode and marks no inode synced. *)
Theorem recover_data_calls (rounds : nat) (ls : fsync_lists) :
  all_calls repair_call (recover_data rounds ls).
Proof.
  unfold recover_data.
  mall ltac:(first [ apply (all_calls_weaken _ _ _ repair_action_call);
                     apply recover_data_loop_calls
                   | exact I ]).
Qed.

(** * The orchestrator from [skip:] on *)

Lemma filter_none {A} (f : A -> bool) (l : list A) :
  Forall (fun x => f x = false) l -> filter f l = [].
Proof.
  induction 1 as [| x l Hx _ IH]; [reflexivity |]. cbn [filter]. now rewrite Hx.
Qed.

Lemma orchestration_app (l1 l2 : list event) :
  orchestration (l1 ++ l2) = orchestration l1 ++ orchestration l2.
Proof. unfold orchestration, calls. now rewrite map_app, filter_app. Qed.

Lemma orchestration_none (l : list event) :
  Forall (fun ev => orchestrator_call ev = false) l -> orchestration l = [].
Proof.
  induction 1 as [| ev l Hev _ IH]; [reflexivity |].
  unfold orchestration, calls in *. cbn [map filter].
  unfold orchestrator_call in Hev. now rewrite Hev.
Qed.

Lemma cp_answers_app (l1 l2 : list event) :
  cp_answers (l1 ++ l2) = cp_answers l1 ++ cp_answers l2.
Proof. unfold cp_answers. apply flat_map_app. Qed.

Lemma cp_answers_none (l : list event) :
  Forall (fun ev => cp_answer ev = None) l -> cp_answers l = [].
Proof.
  induction 1 as [| ev l Hev _ IH]; [reflexivity |].
  unfold cp_answers in *. cbn [flat_map]. now rewrite Hev, IH.
Qed.

Lemma quota_on_answers_app (l1 l2 : list event) :
  quota_on_answers (l1 ++ l2) = quota_on_answers l1 ++ quota_on_answers l2.
Proof. unfold quota_on_answers. apply flat_map_app. Qed.

Lemma quota_on_answers_none (l : list event) :
  Forall (fun ev => quota_on_answer ev = None) l -> quota_on_answers l = [].
Proof.
  induction 1 as [| ev l Hev _ IH]; [reflexivity |].
  unfold quota_on_answers in *. cbn [flat_map]. now rewrite Hev, IH.
Qed.

(** A call of neither the orchestrator nor of a fix of the write pointers
    nor of a checkpoint. *)
Lemma repair_call_quiet (ev : event) :
  repair_call ev ->
  orchestrator_call ev = false /\ cp_answer ev = None /\ fix_answer ev = None.
Proof.
  destruct ev as [R s c a].
  destruct c; try match goal with x : sbi_flag |- _ => destruct x end;
    cbn; intros H; first [now repeat split | destruct H].
Qed.

(** From the logs of the parts of a run, the log of the run. *)
Ltac log_eq Hl :=
  unfold grows in *; cbn [w_trace] in *;
  repeat match goal with
         | Hld : w_trace _ = _ |- _ =>
             tryif constr_eq Hld Hl then fail else (rewrite Hld in Hl; clear Hld)
         end;
  rewrite <- ?app_assoc in Hl; apply app_inv_head in Hl.

Lemma destroy_fsync_dnodes_quiet (head : fsync_list) (drop : Z) (w w' : world)
    (a : fsync_list) :
  destroy_fsync_dnodes head drop w = Some (a, w') ->
  exists ld,
    grows w w' ld /\
    orchestration ld = [] /\ cp_answers ld = [] /\ fix_answers ld = [] /\
    quota_on_answers ld = [].
Proof.
  intros H.
  destruct (destroy_fsync_dnodes_calls
              (fun ev => orchestrator_call ev = false /\ cp_answer ev = None /\
                         fix_answer ev = None /\ quota_on_answer ev = None)
              head drop (fun _ _ _ => conj eq_refl (conj eq_refl (conj eq_refl eq_refl)))
              (fun _ _ _ => conj eq_refl (conj eq_refl (conj eq_refl eq_refl))) _ _ _ H)
    as (ld & Hld & HQ).
  exists ld. split; [exact Hld |]. repeat split.
  - apply orchestration_none. eapply Forall_impl; [| exact HQ]. now intros ev [? _].
  - apply cp_answers_none. eapply Forall_impl; [| exact HQ]. now intros ev (_ & ? & _).
  - apply fix_answers_none. eapply Forall_impl; [| exact HQ]. now intros ev (_ & _ & ? & _).
  - apply quota_on_answers_none. eapply Forall_impl; [| exact HQ].
    now intros ev (_ & _ & _ & ?).
Qed.

(** recovery.c:844-896: the calls f3fs_recover_fsync_data makes in its own
    body from [skip:] on, what it returns, and what the fix of the write
    pointers and the checkpoint answered. *)
Lemma f3fs_recover_fsync_data_skip_protocol (check_only : bool)
    (s_flags quota_enabled : Z) (sk : at_skip) (w w' : world) (r : Z)
    (l : list event) :
  f3fs_recover_fsync_data_skip check_only s_flags quota_enabled sk w = Some (r, w') ->
  grows w w' l ->
  exists (fixed : bool) (e_fix e_cp : Z) (s : kstate),
    let err := sk_err sk in
    let err1 := if fixed then e_fix else err in
    let committed := sk_need_writecp sk && negb (nz err1) in
    let err2 := if committed then e_cp else err1 in
    let ret_ := if fixed then e_fix else sk_ret sk in
    fixed = negb (nz err)
            && (negb check_only || list_empty (inode_list (sk_lists sk)))
            && negb (rd f3fs_readonly s) && rd f3fs_sb_has_blkzoned s /\
    r = (if nz ret_ then ret_ else err2) /\
    fix_answers l = (if fixed then [e_fix] else []) /\
    cp_answers l = (if committed then [e_cp] else []) /\
    quota_on_answers l = [] /\
    orchestration l =
      [Act (truncate_inode_pages_range META_MAPPING
              (Z.shiftl MAIN_BLKADDR PAGE_SHIFT) (-1))]
      ++ (if nz err
          then [Act (truncate_inode_pages_final NODE_MAPPING);
                Act (truncate_inode_pages_final META_MAPPING)]
          else [])
      ++ (if fixed then [Act f3fs_fix_curseg_write_pointer] else [])
      ++ (if nz err1 then [] else [Act (clear_sbi_flag SBI_POR_DOING)])
      ++ [Act f3fs_up_write_cp_global_sem]
      ++ (if sk_need_writecp sk
          then Act (set_sbi_flag SBI_IS_RECOVERED)
               :: (if nz err1 then [] else [Act (f3fs_write_checkpoint CP_RECOVERY)])
          else [])
      ++ (if CONFIG_QUOTA && nz quota_enabled then [Act f3fs_quota_off_umount] else [])
      ++ [Act (sb_s_flags_store s_flags)].
Proof.
  intros H Hl. unfold f3fs_recover_fsync_data_skip in H.
  mexec H.
  all: repeat match goal with
       | Hd : destroy_fsync_dnodes _ _ _ = Some _ |- _ =>
           let ld := fresh "ld" in
           let Hld := fresh "Hld" in
           apply destroy_fsync_dnodes_quiet in Hd as (ld & Hld & ? & ? & ? & ?)
       end.
  all: log_eq Hl; subst l.
  all: cbn [negb andb orb] in *; try discriminate.
  all: repeat match goal with
       | Hn : negb _ = true |- _ => apply negb_true_iff in Hn
       | Hn : negb _ = false |- _ => apply negb_false_iff in Hn
       end.
  all: let ef := match goal with
                 | E : sem f3fs_fix_curseg_write_pointer _ = (?a, _) |- _ => a
                 | _ => constr:(0)
                 end in
       let ec := match goal with
                 | E : sem (f3fs_write_checkpoint _) _ = (?a, _) |- _ => a
                 | _ => constr:(0)
                 end in
       first [ match goal with
               | Hz : _ && rd f3fs_sb_has_blkzoned ?s = ?b |- _ =>
                   exists b, ef, ec, s; split; [now rewrite Hz |]
               end
             | exists false, ef, ec, (w_st w); split; [reflexivity |] ].
  all: rewrite ?fix_answers_app, ?cp_answers_app, ?orchestration_app,
         ?quota_on_answers_app.
  all: repeat match goal with
       | Hp : orchestration _ = [] |- _ => rewrite Hp; clear Hp
       | Hp : cp_answers _ = [] |- _ => rewrite Hp; clear Hp
       | Hp : fix_answers _ = [] |- _ => rewrite Hp; clear Hp
       | Hp : quota_on_answers _ = [] |- _ => rewrite Hp; clear Hp
       | Hn : nz _ = _ |- _ => rewrite Hn; clear Hn
       | Hn : sk_need_writecp _ = _ |- _ => rewrite Hn; clear Hn
       | Hn : CONFIG_QUOTA && _ = _ |- _ => rewrite Hn; clear Hn
       end.
  all: cbn; repeat split; reflexivity.
Qed.

(** * The whole run *)

Lemma pass_call_answers (ev : event) :
  orchestrator_call ev = false ->
  cp_answer ev = None /\ fix_answer ev = None /\ quota_on_answer ev = None.
Proof.
  destruct ev as [R s c a].
  destruct c; cbn; intros H; first [now repeat split | discriminate H].
Qed.

Lemma pass_log_quiet (l : list event) :
  Forall (fun ev => orchestrator_call ev = false) l ->
  orchestration l = [] /\ cp_answers l = [] /\ fix_answers l = [] /\
  quota_on_answers l = [].
Proof.
  intros H. split; [now apply orchestration_none |]. repeat split.
  - apply cp_answers_none. eapply Forall_impl; [| exact H].
    intros ev Hev. now apply pass_call_answers.
  - apply fix_answers_none. eapply Forall_impl; [| exact H].
    intros ev Hev. now apply pass_call_answers.
  - apply quota_on_answers_none. eapply Forall_impl; [| exact H].
    intros ev Hev. now apply pass_call_answers.
Qed.

Lemma find_fsync_dnodes_block_pass (check_only : bool) (head : fsync_list)
    (blkaddr : block_t) (p : page) (err : Z) :
  all_calls (fun ev => orchestrator_call ev = false)
    (find_fsync_dnodes_block check_only head blkaddr p err).
Proof.
  unfold find_fsync_dnodes_block, add_fsync_inode. mall ltac:(reflexivity).
Qed.

Lemma find_fsync_dnodes_loop_pass (check_only : bool) (F : Z) (rounds : nat) :
  forall head blkaddr cnt ra err,
    all_calls (fun ev => orchestrator_call ev = false)
      (find_fsync_dnodes_loop rounds check_only F head blkaddr cnt ra err).
Proof.
  induction rounds as [| rounds IH]; intros head blkaddr cnt ra err;
    cbn [find_fsync_dnodes_loop].
  - apply all_out_of_rounds.
  - mall ltac:(first [apply IH | apply find_fsync_dnodes_block_pass | reflexivity]).
Qed.

Lemma find_fsync_dnodes_pass (rounds : nat) (head : fsync_list) (check_only : bool) :
  all_calls (fun ev => orchestrator_call ev = false)
    (find_fsync_dnodes rounds head check_only).
Proof.
  unfold find_fsync_dnodes.
  mall ltac:(first [apply find_fsync_dnodes_loop_pass | reflexivity]).
Qed.

Lemma recover_data_pass (rounds : nat) (ls : fsync_lists) :
  all_calls (fun ev => orchestrator_call ev = false) (recover_data rounds ls).
Proof.
  apply (all_calls_weaken repair_call).
  - intros ev Hev. now apply repair_call_quiet.
  - unfold recover_data.
    mall ltac:(first [ apply (all_calls_weaken _ _ _ repair_action_call);
                       apply recover_data_loop_calls
                     | exact I ]).
Qed.

Lemma f3fs_recover_fsync_data_steps_pass (rounds : nat) (check_only : bool) :
  all_calls (fun ev => orchestrator_call ev = false)
    (f3fs_recover_fsync_data_steps rounds check_only).
Proof.
  unfold f3fs_recover_fsync_data_steps.
  mall ltac:(first [ apply find_fsync_dnodes_pass | apply recover_data_pass
                   | reflexivity ]).
Qed.

(** recovery.c:826-843: what control holds at [skip:]. *)
Lemma f3fs_recover_fsync_data_steps_cases (rounds : nat) (check_only : bool)
    (w w' : world) (sk : at_skip) :
  f3fs_recover_fsync_data_steps rounds check_only w = Some (sk, w') ->
  exists err il w1,
    find_fsync_dnodes rounds [] check_only w = Some (err, il, w1) /\
    ((nz err || list_empty il || check_only = true /\
      sk = skipped check_only err il /\ w' = w1) \/
     (err = 0 /\ il <> [] /\ check_only = false /\
      exists err2 ls2 w2,
        recover_data rounds
          {| inode_list := il; tmp_inode_list := []; dir_list := [] |} w1
          = Some (err2, ls2, w2) /\
        sk = {| sk_err := err2; sk_ret := 0; sk_need_writecp := true;
                sk_lists := ls2 |})).
Proof.
  intros H.
  destruct (f3fs_recover_fsync_data_steps_inv _ _ _ _ _ H) as (err & il & w1 & Hd & Hsk).
  exists err, il, w1. split; [exact Hd |].
  destruct (nz err || list_empty il || check_only) eqn:Hc.
  - left. split; [reflexivity |]. now apply Hsk.
  - right. apply orb_false_iff in Hc as [Hc ->]. apply orb_false_iff in Hc as [He Hil].
    apply nz_false in He. apply list_empty_false in Hil.
    split; [exact He |]. split; [exact Hil |]. split; [reflexivity |].
    unfold f3fs_recover_fsync_data_steps in H.
    rewrite (bind_Some _ _ _ _ _ Hd) in H.
    subst err. destruct il as [| e il]; [congruence |]. cbn [nz Z.eqb negb orb list_empty] in H.
    apply bind_inv in H as ([err2 ls2] & w2 & Hr & H).
    exists err2, ls2, w2. split; [exact Hr |].
    mexec H; reflexivity.
Qed.

(** recovery.c:802-824: the calls before step #1. *)
Lemma f3fs_recover_fsync_data_enter (rounds : nat) (check_only : bool)
    (w w' : world) (r : Z) :
  f3fs_recover_fsync_data rounds check_only w = Some (r, w') ->
  exists quota_enabled w1 sk w2 lpre,
    grows w w1 lpre /\
    orchestration lpre =
      (if nz (Z.land (rd sb_s_flags (w_st w)) SB_RDONLY)
       then [Act (sb_s_flags_store
                    (Z.land (rd sb_s_flags (w_st w)) (Z.lnot SB_RDONLY)))]
       else [])
      ++ (if CONFIG_QUOTA
          then [Act (f3fs_enable_quota_files
                       (nz (Z.land (rd sb_s_flags (w_st w)) SB_RDONLY)))]
          else [])
      ++ [Act f3fs_down_write_cp_global_sem] /\
    cp_answers lpre = [] /\ fix_answers lpre = [] /\
    quota_on_answers lpre = (if CONFIG_QUOTA then [quota_enabled] else []) /\
    (CONFIG_QUOTA = false -> quota_enabled = 0) /\
    f3fs_recover_fsync_data_steps rounds check_only w1 = Some (sk, w2) /\
    f3fs_recover_fsync_data_skip check_only (rd sb_s_flags (w_st w)) quota_enabled
      sk w2 = Some (r, w').
Proof.
  intros H. unfold f3fs_recover_fsync_data in H. mexec H.
  all: do 5 eexists;
    (split; [| split; [| split; [| split; [| split; [| split; [| split;
       [eassumption | eassumption]]]]]]]);
    [grows_now | try reflexivity ..].
  all: intros; congruence.
Qed.

(** The run of f3fs_recover_fsync_data: the calls it makes in its own body,
    in order, what it returns, and what the switch of the quota files, the
    fix of the write pointers and the checkpoint answered. *)
Lemma f3fs_recover_fsync_data_run (rounds : nat) (check_only : bool)
    (w w' : world) (r : Z) (l : list event) :
  f3fs_recover_fsync_data rounds check_only w = Some (r, w') ->
  grows w w' l ->
  exists (q : Z) (w1 w2 : world) (sk : at_skip) (fixed : bool) (e_fix e_cp : Z)
         (s : kstate),
    let s_flags := rd sb_s_flags (w_st w) in
    let rdonly := nz (Z.land s_flags SB_RDONLY) in
    let err := sk_err sk in
    let err1 := if fixed then e_fix else err in
    let committed := sk_need_writecp sk && negb (nz err1) in
    let err2 := if committed then e_cp else err1 in
    let ret_ := if fixed then e_fix else sk_ret sk in
    f3fs_recover_fsync_data_steps rounds check_only w1 = Some (sk, w2) /\
    (CONFIG_QUOTA = false -> q = 0) /\
    fixed = negb (nz err)
            && (negb check_only || list_empty (inode_list (sk_lists sk)))
            && negb (rd f3fs_readonly s) && rd f3fs_sb_has_blkzoned s /\
    r = (if nz ret_ then ret_ else err2) /\
    fix_answers l = (if fixed then [e_fix] else []) /\
    cp_answers l = (if committed then [e_cp] else []) /\
    quota_on_answers l = (if CONFIG_QUOTA then [q] else []) /\
    orchestration l =
      (if rdonly then [Act (sb_s_flags_store (Z.land s_flags (Z.lnot SB_RDONLY)))]
       else [])
      ++ (if CONFIG_QUOTA then [Act (f3fs_enable_quota_files rdonly)] else [])
      ++ [Act f3fs_down_write_cp_global_sem]
      ++ [Act (truncate_inode_pages_range META_MAPPING
                 (Z.shiftl MAIN_BLKADDR PAGE_SHIFT) (-1))]
      ++ (if nz err
          then [Act (truncate_inode_pages_final NODE_MAPPING);
                Act (truncate_inode_pages_final META_MAPPING)]
          else [])
      ++ (if fixed then [Act f3fs_fix_curseg_write_pointer] else [])
      ++ (if nz err1 then [] else [Act (clear_sbi_flag SBI_POR_DOING)])
      ++ [Act f3fs_up_write_cp_global_sem]
      ++ (if sk_need_writecp sk
          then Act (set_sbi_flag SBI_IS_RECOVERED)
               :: (if nz err1 then [] else [Act (f3fs_write_checkpoint CP_RECOVERY)])
          else [])
      ++ (if CONFIG_QUOTA && nz q then [Act f3fs_quota_off_umount] else [])
      ++ [Act (sb_s_flags_store s_flags)].
Proof.
  intros H Hl.
  destruct (f3fs_recover_fsync_data_enter _ _ _ _ _ H)
    as (q & w1 & sk & w2 & lpre & Hpre & Ho & Hc & Hf & Hq & Hq0 & Hsteps & Hskip).
  destruct (f3fs_recover_fsync_data_steps_pass _ _ _ _ _ Hsteps) as (lpass & Hpass & HP).
  destruct (pass_log_quiet _ HP) as (Hpo & Hpc & Hpf & Hpq).
  destruct (f3fs_recover_fsync_data_skip_log _ _ _ _ _ _ _ Hskip) as (ls & Hls).
  destruct (f3fs_recover_fsync_data_skip_protocol _ _ _ _ _ _ _ _ Hskip Hls)
    as (fixed & e_fix & e_cp & s & Hfixed & Hr & Hsf & Hsc & Hsq & Hso).
  assert (l = lpre ++ lpass ++ ls) as ->.
  { apply (grows_inj _ _ _ _ Hl).
    eapply grows_trans; [exact Hpre |]. eapply grows_trans; eassumption. }
  exists q, w1, w2, sk, fixed, e_fix, e_cp, s. cbv zeta.
  rewrite !fix_answers_app, !cp_answers_app, !quota_on_answers_app, !orchestration_app.
  rewrite Hc, Hf, Hq, Ho, Hpo, Hpc, Hpf, Hpq, Hsf, Hsc, Hsq, Hso.
  cbn [app]. rewrite !app_nil_r, <- !app_assoc.
  repeat (split; [first [assumption | reflexivity] |]).
  reflexivity.
Qed.

(** recovery.c:802-824: the preamble, the world it leaves, and the calls
    in it. *)
Lemma f3fs_recover_fsync_data_enter_at (rounds : nat) (check_only : bool)
    (w w' : world) (r : Z) :
  f3fs_recover_fsync_data rounds check_only w = Some (r, w') ->
  exists quota_enabled w1 sk w2 lpre,
    f3fs_recover_fsync_data_preamble w
      = Some (rd sb_s_flags (w_st w), quota_enabled, w1) /\
    grows w w1 lpre /\
    Forall preamble_call lpre /\
    orchestration lpre =
      (if nz (Z.land (rd sb_s_flags (w_st w)) SB_RDONLY)
       then [Act (sb_s_flags_store
                    (Z.land (rd sb_s_flags (w_st w)) (Z.lnot SB_RDONLY)))]
       else [])
      ++ (if CONFIG_QUOTA
          then [Act (f3fs_enable_quota_files
                       (nz (Z.land (rd sb_s_flags (w_st w)) SB_RDONLY)))]
          else [])
      ++ [Act f3fs_down_write_cp_global_sem] /\
    cp_answers lpre = [] /\ fix_answers lpre = [] /\
    quota_on_answers lpre = (if CONFIG_QUOTA then [quota_enabled] else []) /\
    (CONFIG_QUOTA = false -> quota_enabled = 0) /\
    f3fs_recover_fsync_data_steps rounds check_only w1 = Some (sk, w2) /\
    f3fs_recover_fsync_data_skip check_only (rd sb_s_flags (w_st w)) quota_enabled
      sk w2 = Some (r, w').
Proof.
  intros H. unfold f3fs_recover_fsync_data in H. mexec H.
  all: do 5 eexists;
    (split; [| split; [| split; [| split; [| split; [| split; [| split; [| split;
       [| split; [eassumption | eassumption]]]]]]]]]);
    [ unfold f3fs_recover_fsync_data_preamble, bind, read, perform, ret;
      cbn [w_st w_trace];
      repeat match goal with
             | Hb : _ = true |- _ => rewrite Hb
             | Hb : _ = false |- _ => rewrite Hb
             end;
      cbn [w_st w_trace];
      repeat match goal with
             | E : sem _ _ = _ |- _ => rewrite E; cbn [w_st w_trace]
             end;
      reflexivity
    | grows_now | repeat constructor | try reflexivity .. ].
  all: intros; congruence.
Qed.

(** The run of f3fs_recover_fsync_data from the world its preamble left:
    the calls it makes in its own body, in order, what it returns, and what
    the switch of the quota files, the fix of the write pointers and the
    checkpoint answered. *)
Lemma f3fs_recover_fsync_data_run_at (rounds : nat) (check_only : bool)
    (w w' : world) (r : Z) (l : list event) :
  f3fs_recover_fsync_data rounds check_only w = Some (r, w') ->
  grows w w' l ->
  exists (q : Z) (w1 w2 : world) (sk : at_skip) (fixed : bool) (e_fix e_cp : Z)
         (s : kstate) (lpre lpass ls : list event),
    let s_flags := rd sb_s_flags (w_st w) in
    let rdonly := nz (Z.land s_flags SB_RDONLY) in
    let err := sk_err sk in
    let err1 := if fixed then e_fix else err in
    let committed := sk_need_writecp sk && negb (nz err1) in
    let err2 := if committed then e_cp else err1 in
    let ret_ := if fixed then e_fix else sk_ret sk in
    f3fs_recover_fsync_data_preamble w = Some (s_flags, q, w1) /\
    f3fs_recover_fsync_data_steps rounds check_only w1 = Some (sk, w2) /\
    l = lpre ++ lpass ++ ls /\
    grows w w1 lpre /\ Forall preamble_call lpre /\
    grows w1 w2 lpass /\ grows w2 w' ls /\
    f3fs_recover_fsync_data_skip check_only s_flags q sk w2 = Some (r, w') /\
    (CONFIG_QUOTA = false -> q = 0) /\
    fixed = negb (nz err)
            && (negb check_only || list_empty (inode_list (sk_lists sk)))
            && negb (rd f3fs_readonly s) && rd f3fs_sb_has_blkzoned s /\
    r = (if nz ret_ then ret_ else err2) /\
    fix_answers l = (if fixed then [e_fix] else []) /\
    cp_answers l = (if committed then [e_cp] else []) /\
    quota_on_answers l = (if CONFIG_QUOTA then [q] else []) /\
    orchestration l =
      (if rdonly then [Act (sb_s_flags_store (Z.land s_flags (Z.lnot SB_RDONLY)))]
       else [])
      ++ (if CONFIG_QUOTA then [Act (f3fs_enable_quota_files rdonly)] else [])
      ++ [Act f3fs_down_write_cp_global_sem]
      ++ [Act (truncate_inode_pages_range META_MAPPING
                 (Z.shiftl MAIN_BLKADDR PAGE_SHIFT) (-1))]
      ++ (if nz err
          then [Act (truncate_inode_pages_final NODE_MAPPING);
                Act (truncate_inode_pages_final META_MAPPING)]
          else [])
      ++ (if fixed then [Act f3fs_fix_curseg_write_pointer] else [])
      ++ (if nz err1 then [] else [Act (clear_sbi_flag SBI_POR_DOING)])
      ++ [Act f3fs_up_write_cp_global_sem]
      ++ (if sk_need_writecp sk
          then Act (set_sbi_flag SBI_IS_RECOVERED)
               :: (if nz err1 then [] else [Act (f3fs_write_checkpoint CP_RECOVERY)])
          else [])
      ++ (if CONFIG_QUOTA && nz q then [Act f3fs_quota_off_umount] else [])
      ++ [Act (sb_s_flags_store s_flags)].
Proof.
  intros H Hl.
  destruct (f3fs_recover_fsync_data_enter_at _ _ _ _ _ H)
    as (q & w1 & sk & w2 & lpre & Hpin & Hpre & HPre & Ho & Hc & Hf & Hq & Hq0
        & Hsteps & Hskip).
  destruct (f3fs_recover_fsync_data_steps_pass _ _ _ _ _ Hsteps) as (lpass & Hpass & HP).
  destruct (pass_log_quiet _ HP) as (Hpo & Hpc & Hpf & Hpq).
  destruct (f3fs_recover_fsync_data_skip_log _ _ _ _ _ _ _ Hskip) as (ls & Hls).
  destruct (f3fs_recover_fsync_data_skip_protocol _ _ _ _ _ _ _ _ Hskip Hls)
    as (fixed & e_fix & e_cp & s & Hfixed & Hr & Hsf & Hsc & Hsq & Hso).
  assert (l = lpre ++ lpass ++ ls) as ->.
  { apply (grows_inj _ _ _ _ Hl).
    eapply grows_trans; [exact Hpre |]. eapply grows_trans; eassumption. }
  exists q, w1, w2, sk, fixed, e_fix, e_cp, s, lpre, lpass, ls. cbv zeta.
  rewrite !fix_answers_app, !cp_answers_app, !quota_on_answers_app, !orchestration_app.
  rewrite Hc, Hf, Hq, Ho, Hpo, Hpc, Hpf, Hpq, Hsf, Hsc, Hsq, Hso.
  cbn [app]. rewrite !app_nil_r, <- !app_assoc.
  repeat (split; [first [assumption | reflexivity] |]).
  reflexivity.
Qed.

Lemma filter_sync_orchestration (l : list event) :
  filter sync_action (calls l) = filter sync_action (orchestration l).
Proof.
  unfold orchestration. induction (calls l) as [| a rest IH]; [reflexivity |].
  cbn [filter]. destruct (orchestrator_action a) eqn:Ho; cbn [filter].
  - now rewrite IH.
  - assert (Hs : sync_action a = false).
    { destruct a as [R c]. destruct c; cbn in Ho |- *; congruence. }
    now rewrite Hs.
Qed.

Lemma In_orchestration (a : action) (l : list event) :
  orchestrator_action a = true -> In a (calls l) -> In a (orchestration l).
Proof. intros Ha Hin. unfold orchestration. apply filter_In. now split. Qed.

Lemma orchestration_In (a : action) (l : list event) :
  In a (orchestration l) -> In a (calls l).
Proof. unfold orchestration. intros H. now apply filter_In in H. Qed.

(** X14.  f3fs_recover_fsync_data takes the checkpoint lock once and
    releases it once, after that.  It writes at most one checkpoint, with
    reason CP_RECOVERY, after it has released the lock and never in
    check-only mode; when it writes one, it returns what the checkpoint
    answered. *)
Theorem f3fs_recover_fsync_data_checkpoint_lock (rounds : nat) (check_only : bool)
    (w w' : world) (r : Z) (l : list event) :
  f3fs_recover_fsync_data rounds check_only w = Some (r, w') ->
  grows w w' l ->
  (filter sync_action (calls l)
     = [Act f3fs_down_write_cp_global_sem; Act f3fs_up_write_cp_global_sem] /\
   cp_answers l = []) \/
  (check_only = false /\
   filter sync_action (calls l)
     = [Act f3fs_down_write_cp_global_sem; Act f3fs_up_write_cp_global_sem;
        Act (f3fs_write_checkpoint CP_RECOVERY)] /\
   cp_answers l = [r]).
Proof.
  intros H Hl.
  destruct (f3fs_recover_fsync_data_run _ _ _ _ _ _ H Hl)
    as (q & w1 & w2 & sk & fixed & e_fix & e_cp & s & Hrun).
  cbv zeta in Hrun.
  destruct Hrun as (Hsteps & _ & Hfixed & Hr & _ & Hcp & _ & Ho).
  rewrite filter_sync_orchestration, Ho, Hcp. clear Ho Hcp.
  destruct (f3fs_recover_fsync_data_steps_cases _ _ _ _ _ Hsteps)
    as (err & il & w1' & _ & [(_ & -> & _) | (_ & _ & -> & err2 & ls2 & w3 & _ & ->)]).
  - left. cbn [skipped sk_need_writecp andb].
    repeat match goal with |- context [if ?b then _ else _] => destruct b end;
      split; reflexivity.
  - cbn [sk_need_writecp sk_err sk_ret andb] in *.
    destruct (nz (if fixed then e_fix else err2)) eqn:E1; cbn [negb] in *.
    + left.
      repeat match goal with |- context [if ?b then _ else _] => destruct b end;
        split; reflexivity.
    + right. split; [reflexivity |].
      assert (r = e_cp) as ->.
      { rewrite Hr. destruct fixed; [now rewrite E1 | reflexivity]. }
      repeat match goal with |- context [if ?b then _ else _] => destruct b end;
        split; reflexivity.
Qed.

(** Decide whether an orchestrator's call is in the log from the list of
    the orchestrator's calls. *)
Ltac not_in_orchestration Ho f :=
  let Hin := fresh "Hin" in
  intros Hin; apply In_orchestration in Hin; [| reflexivity];
  rewrite Ho in Hin; clear Ho;
  repeat match type of Hin with
         | context [if ?b then _ else _] => destruct b
         end;
  cbn [app In] in Hin;
  repeat (destruct Hin as [Hin | Hin];
          [apply (f_equal f) in Hin; cbn in Hin; discriminate Hin |]);
  destruct Hin.

Ltac in_orchestration Ho :=
  apply orchestration_In; rewrite Ho;
  repeat first
    [ solve [cbn [In]; auto]
    | apply in_or_app; first [left; solve [cbn [In]; auto] | right] ].

(** X15.  When discovery, run in the world the preamble left, fails, or
    when the repair pass is entered after it and fails,
    f3fs_recover_fsync_data returns the error of the pass that failed.  It
    then writes no checkpoint, does not fix the write pointers, does not
    clear SBI_POR_DOING, and drops the node and the meta page caches. *)
Theorem f3fs_recover_fsync_data_failure (rounds : nat) (check_only : bool)
    (w w' : world) (r : Z) (l : list event) :
  f3fs_recover_fsync_data rounds check_only w = Some (r, w') ->
  grows w w' l ->
  exists (q : Z) (w1 w2 : world) (err : Z) (il : fsync_list),
    f3fs_recover_fsync_data_preamble w = Some (rd sb_s_flags (w_st w), q, w1) /\
    find_fsync_dnodes rounds [] check_only w1 = Some (err, il, w2) /\
    let failed_with e :=
      r = e /\ cp_answers l = [] /\ fix_answers l = [] /\
      ~ In (Act (clear_sbi_flag SBI_POR_DOING)) (calls l) /\
      In (Act (truncate_inode_pages_final NODE_MAPPING)) (calls l) /\
      In (Act (truncate_inode_pages_final META_MAPPING)) (calls l) in
    (err <> 0 -> failed_with err) /\
    (err = 0 -> il <> [] -> check_only = false ->
     exists err2 ls2 w3,
       recover_data rounds
         {| inode_list := il; tmp_inode_list := []; dir_list := [] |} w2
         = Some (err2, ls2, w3) /\
       (err2 <> 0 -> failed_with err2)).
Proof.
  intros H Hl.
  destruct (f3fs_recover_fsync_data_run_at _ _ _ _ _ _ H Hl)
    as (q & w1 & w2 & sk & fixed & e_fix & e_cp & s & lpre & lpass & ls & Hrun).
  cbv zeta in Hrun.
  destruct Hrun as (Hpin & Hsteps & _ & _ & _ & _ & _ & _ & _ & Hfixed & Hr & Hfix
                    & Hcp & _ & Ho).
  destruct (f3fs_recover_fsync_data_steps_cases _ _ _ _ _ Hsteps)
    as (err & il & w1' & Hd & Hcases).
  exists q, w1, w1', err, il. split; [exact Hpin |]. split; [exact Hd |].
  assert (Hfail : forall e, sk_err sk = e -> sk_ret sk = 0 -> e <> 0 ->
            r = e /\ cp_answers l = [] /\ fix_answers l = [] /\
            ~ In (Act (clear_sbi_flag SBI_POR_DOING)) (calls l) /\
            In (Act (truncate_inode_pages_final NODE_MAPPING)) (calls l) /\
            In (Act (truncate_inode_pages_final META_MAPPING)) (calls l)).
  { intros e He Hret Hne. rewrite He, Hret in *. apply nz_true in Hne.
    rewrite Hne in *. cbn [negb andb] in *. subst fixed.
    rewrite Hne, andb_false_r in *. cbn in Hr.
    split; [exact Hr |]. split; [exact Hcp |]. split; [exact Hfix |].
    split; [| split]; [| | ]; cycle 1.
    - in_orchestration Ho.
    - in_orchestration Ho.
    - not_in_orchestration Ho
        (fun a => match a with Act (clear_sbi_flag _) => true | _ => false end). }
  split.
  - intros Hne. destruct Hcases as [(_ & -> & _) | (He & _)]; [| congruence].
    apply Hfail; [reflexivity | | exact Hne].
    cbn. apply nz_true in Hne. now rewrite Hne.
  - intros He Hil Hc.
    destruct Hcases as [(Hsk & _) | (_ & _ & _ & err2 & ls2 & w3 & Hrd & ->)].
    + exfalso. subst err check_only. destruct il; [congruence | discriminate Hsk].
    + exists err2, ls2, w3. split; [exact Hrd |]. intros Hne. now apply Hfail.
Qed.

(** recovery.c:894: the last call restores s_flags. *)
Lemma f3fs_recover_fsync_data_skip_last (check_only : bool)
    (s_flags quota_enabled : Z) (sk : at_skip) (w w' : world) (r : Z)
    (l : list event) :
  f3fs_recover_fsync_data_skip check_only s_flags quota_enabled sk w = Some (r, w') ->
  grows w w' l ->
  exists l0 s, l = l0 ++ [Ev s (sb_s_flags_store s_flags) tt].
Proof.
  intros H Hl. unfold f3fs_recover_fsync_data_skip in H.
  mexec H.
  all: repeat match goal with
       | Hd : destroy_fsync_dnodes _ _ _ = Some _ |- _ =>
           let ld := fresh "ld" in
           let Hld := fresh "Hld" in
           apply destroy_fsync_dnodes_quiet in Hd as (ld & Hld & _)
       end.
  all: log_eq Hl; subst l.
  all: repeat match goal with u : unit |- _ => destruct u end.
  all: rewrite !app_assoc; eexists _, _; reflexivity.
Qed.

(** recovery.c:809-812: on a read-only mount the first call clears
    SB_RDONLY. *)
Lemma f3fs_recover_fsync_data_first (rounds : nat) (check_only : bool)
    (w w' : world) (r : Z) (l : list event) :
  f3fs_recover_fsync_data rounds check_only w = Some (r, w') ->
  grows w w' l ->
  nz (Z.land (rd sb_s_flags (w_st w)) SB_RDONLY) = true ->
  exists l1,
    l = Ev (w_st w)
          (sb_s_flags_store (Z.land (rd sb_s_flags (w_st w)) (Z.lnot SB_RDONLY))) tt
        :: l1.
Proof.
  intros H Hl Hro. unfold f3fs_recover_fsync_data in H.
  rewrite (bind_Some _ _ _ _ _ (read_run _ _)) in H. rewrite Hro in H.
  apply bind_inv in H as ([] & w1 & H1 & H).
  assert (Hrest : exists l2, grows w1 w' l2).
  { apply bind_inv in H as (q & w2 & Hq & H).
    apply bind_inv in H as ([] & w3 & Hdown & H).
    apply bind_inv in H as (sk & w4 & Hsteps & Hskip).
    destruct (f3fs_recover_fsync_data_steps_pass _ _ _ _ _ Hsteps) as (l4 & Hl4 & _).
    destruct (f3fs_recover_fsync_data_skip_log _ _ _ _ _ _ _ Hskip) as (l5 & Hl5).
    apply perform_inv in Hdown as (s3 & _ & ->).
    assert (Hq' : exists lq, grows w1 w2 lq).
    { destruct CONFIG_QUOTA.
      - apply perform_inv in Hq as (s2 & _ & ->). eexists. grows_now.
      - apply ret_inv in Hq as [_ ->]. exists []. apply grows_refl. }
    destruct Hq' as (lq & Hlq).
    eexists. eapply grows_trans; [exact Hlq |].
    eapply grows_trans; [| eapply grows_trans; [exact Hl4 | exact Hl5]].
    grows_now. }
  destruct Hrest as (l2 & Hl2).
  mexec H1. exists l2.
  apply (grows_inj _ _ _ _ Hl). unfold grows in *. cbn [w_trace] in *.
  rewrite Hl2, <- app_assoc. reflexivity.
Qed.

(** X16.  The last call of f3fs_recover_fsync_data, on every path, stores
    back the s_flags it read on entry, and so restores SB_RDONLY; when
    SB_RDONLY was set on entry, its first call is the store that clears
    it. *)
Theorem f3fs_recover_fsync_data_restores_s_flags (rounds : nat) (check_only : bool)
    (w w' : world) (r : Z) (l : list event) :
  f3fs_recover_fsync_data rounds check_only w = Some (r, w') ->
  grows w w' l ->
  (exists l0 s, l = l0 ++ [Ev s (sb_s_flags_store (rd sb_s_flags (w_st w))) tt]) /\
  (nz (Z.land (rd sb_s_flags (w_st w)) SB_RDONLY) = true ->
   exists l1,
     l = Ev (w_st w)
           (sb_s_flags_store (Z.land (rd sb_s_flags (w_st w)) (Z.lnot SB_RDONLY))) tt
         :: l1).
Proof.
  intros H Hl. split; [| now apply (f3fs_recover_fsync_data_first rounds check_only w w' r)].
  destruct (f3fs_recover_fsync_data_enter _ _ _ _ _ H)
    as (q & w1 & sk & w2 & lpre & Hpre & _ & _ & _ & _ & _ & Hsteps & Hskip).
  destruct (f3fs_recover_fsync_data_steps_pass _ _ _ _ _ Hsteps) as (lpass & Hpass & _).
  destruct (f3fs_recover_fsync_data_skip_log _ _ _ _ _ _ _ Hskip) as (ls & Hls).
  destruct (f3fs_recover_fsync_data_skip_last _ _ _ _ _ _ _ _ Hskip Hls) as (l0 & s & ->).
  exists (lpre ++ lpass ++ l0), s.
  apply (grows_inj _ _ _ _ Hl). rewrite <- !app_assoc.
  eapply grows_trans; [exact Hpre |]. eapply grows_trans; eassumption.
Qed.

(** X17.  Built with quota support, f3fs_recover_fsync_data switches the
    quota files on once and calls f3fs_quota_off_umount exactly when that
    answered non-zero; built without, it makes neither call. *)
Theorem f3fs_recover_fsync_data_quota_files (rounds : nat) (check_only : bool)
    (w w' : world) (r : Z) (l : list event) :
  f3fs_recover_fsync_data rounds check_only w = Some (r, w') ->
  grows w w' l ->
  (CONFIG_QUOTA = false ->
   quota_on_answers l = [] /\ ~ In (Act f3fs_quota_off_umount) (calls l)) /\
  (CONFIG_QUOTA = true ->
   exists q, quota_on_answers l = [q] /\
             (In (Act f3fs_quota_off_umount) (calls l) <-> q <> 0)).
Proof.
  intros H Hl.
  destruct (f3fs_recover_fsync_data_run _ _ _ _ _ _ H Hl)
    as (q & w1 & w2 & sk & fixed & e_fix & e_cp & s & Hrun).
  cbv zeta in Hrun.
  destruct Hrun as (_ & _ & _ & _ & _ & _ & Hq & Ho).
  split; intros Hc; rewrite Hc in *; cbn [andb] in Ho.
  - split; [exact Hq |].
    not_in_orchestration Ho
      (fun a => match a with Act f3fs_quota_off_umount => true | _ => false end).
  - exists q. split; [exact Hq |]. split.
    + intros Hin. apply nz_true. destruct (nz q) eqn:E; [reflexivity |]. exfalso.
      revert Hin.
      not_in_orchestration Ho
        (fun a => match a with Act f3fs_quota_off_umount => true | _ => false end).
    + intros Hne. apply nz_true in Hne. rewrite Hne in Ho.
      in_orchestration Ho.
Qed.

(** X18.  f3fs_recover_fsync_data fixes the write pointers at most once.
    When the fix answers 0, SBI_POR_DOING is cleared; when it fails, its
    error is returned, no checkpoint is written and SBI_POR_DOING is not
    cleared. *)
Theorem f3fs_recover_fsync_data_fix_write_pointer (rounds : nat) (check_only : bool)
    (w w' : world) (r : Z) (l : list event) :
  f3fs_recover_fsync_data rounds check_only w = Some (r, w') ->
  grows w w' l ->
  fix_answers l = [] \/
  exists e,
    fix_answers l = [e] /\
    (e = 0 -> In (Act (clear_sbi_flag SBI_POR_DOING)) (calls l)) /\
    (e <> 0 ->
     r = e /\ cp_answers l = [] /\
     ~ In (Act (clear_sbi_flag SBI_POR_DOING)) (calls l)).
Proof.
  intros H Hl.
  destruct (f3fs_recover_fsync_data_run _ _ _ _ _ _ H Hl)
    as (q & w1 & w2 & sk & fixed & e_fix & e_cp & s & Hrun).
  cbv zeta in Hrun.
  destruct Hrun as (_ & _ & _ & Hr & Hfix & Hcp & _ & Ho).
  destruct fixed; [right | now left].
  exists e_fix. split; [exact Hfix |]. split.
  - intros ->. cbn [nz Z.eqb negb] in Ho. in_orchestration Ho.
  - intros Hne. apply nz_true in Hne. rewrite Hne in *.
    rewrite andb_false_r in *. repeat split; try assumption.
    not_in_orchestration Ho
      (fun a => match a with Act (clear_sbi_flag _) => true | _ => false end).
Qed.

(** * Releasing the lists *)

Lemma del_fsync_inode_releases (e : fsync_inode_entry) (drop : Z) (w : world) :
  exists w' l,
    del_fsync_inode e drop w = Some (tt, w') /\
    grows w w' l /\
    calls l = (if nz drop then [Act (f3fs_inode_synced (e_inode e))] else [])
              ++ [Act (iput (e_inode e))].
Proof.
  unfold del_fsync_inode, bind, perform, ret. destruct (nz drop).
  - destruct (sem (f3fs_inode_synced (e_inode e)) (w_st w)) as [[] s1]; cbn.
    destruct (sem (iput (e_inode e)) s1) as [[] s2]; cbn.
    eexists _, _. split; [reflexivity |]. split; [grows_now | reflexivity].
  - cbn. destruct (sem (iput (e_inode e)) (w_st w)) as [[] s2]; cbn.
    eexists _, _. split; [reflexivity |]. split; [grows_now | reflexivity].
Qed.

(** X3.  destroy_fsync_dnodes always returns, with the list empty.  It puts
    the inode of every entry of the list exactly once, head first, and
    marks it synced before that exactly when [drop] is non-zero; it makes
    no other call. *)
Theorem destroy_fsync_dnodes_releases (head : fsync_list) (drop : Z) (w : world) :
  exists w' l,
    destroy_fsync_dnodes head drop w = Some ([], w') /\
    grows w w' l /\
    calls l = releases drop head.
Proof.
  revert w. induction head as [| e rest IH]; intros w; cbn [destroy_fsync_dnodes].
  - exists w, []. split; [reflexivity |]. split; [apply grows_refl | reflexivity].
  - destruct (del_fsync_inode_releases e drop w) as (w1 & l1 & H1 & Hl1 & Hc1).
    destruct (IH w1) as (w2 & l2 & H2 & Hl2 & Hc2).
    exists w2, (l1 ++ l2). split; [now rewrite (bind_Some _ _ _ _ _ H1) |].
    split; [eapply grows_trans; eassumption |].
    unfold calls in *. rewrite map_app, Hc1, Hc2. reflexivity.
Qed.

(** * The lists of the repair pass *)

Lemma list_del_perm (head : fsync_list) :
  forall (p : nat) (e : fsync_inode_entry),
    nth_error head p = Some e -> Permutation head (list_del head p ++ [e]).
Proof.
  induction head as [| e0 rest IH]; intros p e H; destruct p as [| p];
    cbn in H; try discriminate.
  - injection H as ->. cbn [list_del]. apply Permutation_cons_append.
  - cbn [list_del app]. constructor. now apply IH.
Qed.

Lemma get_fsync_inode_list_del (head : fsync_list) (ino : nid_t) :
  forall (p : nat) (e : fsync_inode_entry),
    NoDup (map (fun e => i_ino (e_inode e)) head) ->
    get_fsync_inode head ino = Some (p, e) ->
    get_fsync_inode (list_del head p) ino = None.
Proof.
  induction head as [| e0 rest IH]; intros p e Hnd H; cbn [get_fsync_inode] in H;
    [discriminate |].
  cbn [map] in Hnd. apply NoDup_cons_iff in Hnd as [Hnin Hnd].
  destruct (i_ino (e_inode e0) =? ino) eqn:E.
  - injection H as <- <-. cbn [list_del]. apply Z.eqb_eq in E.
    destruct (get_fsync_inode rest ino) as [[q e1] |] eqn:Hr; [| reflexivity].
    exfalso. apply Hnin. rewrite E.
    apply get_fsync_inode_position in Hr as Hn. apply get_fsync_inode_ino in Hr.
    rewrite <- Hr. apply (in_map (fun e => i_ino (e_inode e))).
    eapply nth_error_In. exact Hn.
  - destruct (get_fsync_inode rest ino) as [[q e1] |] eqn:Hr; cbn in H; [| discriminate].
    injection H as <- <-. cbn [list_del get_fsync_inode]. rewrite E.
    now rewrite (IH q e1 Hnd eq_refl).
Qed.

Lemma add_fsync_inode_appends (head head' : fsync_list) (ino : nid_t) (q : bool)
    (w w' : world) (r : Z + entry_ptr) :
  add_fsync_inode head ino q w = Some (r, head', w') ->
  exists added, head' = head ++ added.
Proof.
  intros H. unfold add_fsync_inode in H. mexec H.
  all: match goal with Hp : (_, _) = (_, _) |- _ => injection Hp as ? ?; subst end.
  all: first [now exists [] | eexists; rewrite app_nil_r; reflexivity | eexists; reflexivity].
Qed.

Lemma recover_dentry_appends (rounds : nat) (i : inode) (ipage : page)
    (dl dl' : fsync_list) (w w' : world) (err : Z) :
  recover_dentry rounds i ipage dl w = Some (err, dl', w') ->
  exists added, dl' = dl ++ added.
Proof.
  intros H. unfold recover_dentry in H.
  apply bind_inv in H as ([r dl1] & w1 & H1 & H).
  assert (Ha : exists added, dl1 = dl ++ added).
  { destruct (get_fsync_inode dl (i_pino (F3FS_INODE ipage))).
    - apply ret_inv in H1 as [H1 _]. injection H1 as _ <-. exists []. now rewrite app_nil_r.
    - eapply add_fsync_inode_appends. exact H1. }
  destruct r as [e | entry].
  - apply ret_inv in H as [H _]. now injection H as _ <-.
  - apply bind_inv in H as ([err1 fname] & w2 & _ & H).
    destruct (nz err1).
    + apply ret_inv in H as [H _]. now injection H as _ <-.
    + apply bind_inv in H as (err2 & w3 & _ & H).
      apply ret_inv in H as [H _]. now injection H as _ <-.
Qed.

(** What one block of the repair pass does to the lists. *)
Lemma recover_data_block_lists (rounds : nat) (ls ls' : fsync_lists)
    (blkaddr : block_t) (p : page) (err : Z) (r : Z + Z) (w w' : world) :
  recover_data_block rounds ls blkaddr p err w = Some (r, ls', w') ->
  (exists added, dir_list ls' = dir_list ls ++ added) /\
  match get_fsync_inode (inode_list ls) (ino_of_node p), r with
  | Some (q, e), inr _ =>
      if e_blkaddr e =? blkaddr
      then inode_list ls' = list_del (inode_list ls) q /\
           tmp_inode_list ls' = tmp_inode_list ls ++ [e]
      else inode_list ls' = inode_list ls /\ tmp_inode_list ls' = tmp_inode_list ls
  | _, _ => inode_list ls' = inode_list ls /\ tmp_inode_list ls' = tmp_inode_list ls
  end.
Proof.
  intros H. unfold recover_data_block in H.
  destruct (get_fsync_inode (inode_list ls) (ino_of_node p)) as [[q e] |].
  - cbn [snd fst] in H.
    apply bind_inv in H as (err1 & w1 & _ & H).
    destruct (IS_INODE p && nz err1).
    { apply ret_inv in H as [H _]. injection H as ? ?; subst r ls'.
      split; [exists []; now rewrite app_nil_r | now split]. }
    apply bind_inv in H as ([err2 dl] & w2 & Hd & H).
    assert (Ha : exists added, dl = dir_list ls ++ added).
    { destruct (e_last_dentry e =? blkaddr).
      - eapply recover_dentry_appends. exact Hd.
      - apply ret_inv in Hd as [Hd _]. injection Hd as _ ?; subst dl.
        exists []. now rewrite app_nil_r. }
    destruct ((e_last_dentry e =? blkaddr) && nz err2).
    { apply ret_inv in H as [H _]. injection H as ? ?; subst r ls'. now repeat split. }
    apply bind_inv in H as (err3 & w3 & _ & H).
    destruct (nz err3).
    { apply ret_inv in H as [H _]. injection H as ? ?; subst r ls'. now repeat split. }
    destruct (e_blkaddr e =? blkaddr);
      apply ret_inv in H as [H _]; injection H as ? ?; subst r ls'; now repeat split.
  - apply ret_inv in H as [H _]. injection H as ? ?; subst r ls'.
    split; [exists []; now rewrite app_nil_r | now split].
Qed.

Lemma recover_data_block_keeps (rounds : nat) (ls ls' : fsync_lists)
    (blkaddr : block_t) (p : page) (err : Z) (r : Z + Z) (w w' : world) :
  recover_data_block rounds ls blkaddr p err w = Some (r, ls', w') ->
  Permutation (inode_list ls ++ tmp_inode_list ls)
              (inode_list ls' ++ tmp_inode_list ls') /\
  (exists moved, tmp_inode_list ls' = tmp_inode_list ls ++ moved) /\
  (exists added, dir_list ls' = dir_list ls ++ added).
Proof.
  intros H. destruct (recover_data_block_lists _ _ _ _ _ _ _ _ _ H) as [Hdir Hl].
  assert (Hsame : inode_list ls' = inode_list ls /\
                  tmp_inode_list ls' = tmp_inode_list ls ->
                  Permutation (inode_list ls ++ tmp_inode_list ls)
                    (inode_list ls' ++ tmp_inode_list ls') /\
                  (exists moved, tmp_inode_list ls' = tmp_inode_list ls ++ moved)).
  { intros [-> ->]. split; [reflexivity |]. exists []. now rewrite app_nil_r. }
  destruct (get_fsync_inode (inode_list ls) (ino_of_node p)) as [[q e] |] eqn:Hg;
    [| destruct (Hsame Hl); now repeat split].
  destruct r as [e1 | e1]; [destruct (Hsame Hl); now repeat split |].
  destruct (e_blkaddr e =? blkaddr); [| destruct (Hsame Hl); now repeat split].
  destruct Hl as [-> ->]. split; [| split; [now exists [e] | exact Hdir]].
  apply get_fsync_inode_position in Hg.
  rewrite (list_del_perm _ _ _ Hg) at 1.
  rewrite <- !app_assoc. apply Permutation_app_head. apply Permutation_app_comm.
Qed.

Lemma recover_data_loop_keeps (rounds : nat) (n : nat) :
  forall (ls ls' : fsync_lists) (blkaddr : block_t) (ra err err' : Z) (w w' : world),
    recover_data_loop rounds n ls blkaddr ra err w = Some (err', ls', w') ->
    Permutation (inode_list ls ++ tmp_inode_list ls)
                (inode_list ls' ++ tmp_inode_list ls') /\
    (exists moved, tmp_inode_list ls' = tmp_inode_list ls ++ moved) /\
    (exists added, dir_list ls' = dir_list ls ++ added).
Proof.
  assert (Hrefl : forall ls : fsync_lists,
            Permutation (inode_list ls ++ tmp_inode_list ls)
                        (inode_list ls ++ tmp_inode_list ls) /\
            (exists moved, tmp_inode_list ls = tmp_inode_list ls ++ moved) /\
            (exists added, dir_list ls = dir_list ls ++ added)).
  { intros ls. split; [reflexivity |]. split; exists []; now rewrite app_nil_r. }
  induction n as [| n IH]; intros ls ls' blkaddr ra err err' w w' H;
    cbn [recover_data_loop] in H; [discriminate H |].
  destruct (negb (f3fs_is_valid_blkaddr blkaddr META_POR)).
  { apply ret_inv in H as [H _]. injection H as _ ?; subst ls'. apply Hrefl. }
  apply bind_inv in H as (r & w1 & _ & H).
  destruct r as [e | p].
  { apply ret_inv in H as [H _]. injection H as _ ?; subst ls'. apply Hrefl. }
  destruct (negb (is_recoverable_dnode p)).
  { apply bind_inv in H as (? & w2 & _ & H).
    apply ret_inv in H as [H _]. injection H as _ ?; subst ls'. apply Hrefl. }
  apply bind_inv in H as ([rb ls1] & w2 & Hb & H).
  apply recover_data_block_keeps in Hb as (Hp1 & (m1 & Hm1) & (a1 & Ha1)).
  destruct rb as [e | e].
  - apply bind_inv in H as (? & w3 & _ & H).
    apply ret_inv in H as [H _]. injection H as _ ?; subst ls'.
    split; [exact Hp1 |]. split; [now exists m1 | now exists a1].
  - apply bind_inv in H as (? & w3 & _ & H).
    apply bind_inv in H as (? & w4 & _ & H).
    apply IH in H as (Hp2 & (m2 & Hm2) & (a2 & Ha2)).
    split; [now rewrite Hp1 |].
    split; [exists (m1 ++ m2); now rewrite Hm2, Hm1, app_assoc |].
    exists (a1 ++ a2). now rewrite Ha2, Ha1, app_assoc.
Qed.

(** X10.  The repair pass loses no entry and makes none up: the entries of
    the inode list and of the tmp list together are, when recover_data
    returns, with or without an error, the ones they were; entries only
    move from the inode list to the tail of the tmp list, and the directory
    list only grows at its tail. *)
Theorem recover_data_keeps_entries (rounds : nat) (ls ls' : fsync_lists) (err : Z)
    (w w' : world) :
  recover_data rounds ls w = Some (err, ls', w') ->
  Permutation (inode_list ls ++ tmp_inode_list ls)
              (inode_list ls' ++ tmp_inode_list ls') /\
  (exists moved, tmp_inode_list ls' = tmp_inode_list ls ++ moved) /\
  (exists added, dir_list ls' = dir_list ls ++ added).
Proof.
  intros H. unfold recover_data in H.
  apply bind_inv in H as (blkaddr & w1 & _ & H).
  apply bind_inv in H as ([err1 ls1] & w2 & Hloop & H).
  apply bind_inv in H as (? & w3 & _ & H).
  apply ret_inv in H as [H _]. injection H as _ ?; subst ls'.
  eapply recover_data_loop_keeps. exact Hloop.
Qed.

(** X11.  When a block of the repair pass has been repaired in full, the
    entry of its inode is moved from the inode list to the tail of the tmp
    list exactly when the block is the one the entry records as [blkaddr];
    if no two entries of the inode list are of the same inode, no later
    block of that inode finds an entry.  When the block is not repaired in
    full, or is of an inode without entry, both lists stay as they are. *)
Theorem recover_data_block_moves_entry (rounds : nat) (ls ls' : fsync_lists)
    (blkaddr : block_t) (p : page) (err : Z) (r : Z + Z) (w w' : world) :
  recover_data_block rounds ls blkaddr p err w = Some (r, ls', w') ->
  match get_fsync_inode (inode_list ls) (ino_of_node p), r with
  | Some (q, e), inr _ =>
      (e_blkaddr e = blkaddr ->
       inode_list ls' = list_del (inode_list ls) q /\
       tmp_inode_list ls' = tmp_inode_list ls ++ [e] /\
       (NoDup (map (fun e => i_ino (e_inode e)) (inode_list ls)) ->
        get_fsync_inode (inode_list ls') (ino_of_node p) = None)) /\
      (e_blkaddr e <> blkaddr ->
       inode_list ls' = inode_list ls /\ tmp_inode_list ls' = tmp_inode_list ls)
  | _, _ => inode_list ls' = inode_list ls /\ tmp_inode_list ls' = tmp_inode_list ls
  end.
Proof.
  intros H. destruct (recover_data_block_lists _ _ _ _ _ _ _ _ _ H) as [_ Hl].
  destruct (get_fsync_inode (inode_list ls) (ino_of_node p)) as [[q e] |] eqn:Hg;
    [| exact Hl].
  destruct r as [e1 | e1]; [exact Hl |].
  destruct (e_blkaddr e =? blkaddr) eqn:E.
  - apply Z.eqb_eq in E. split; [| congruence].
    intros _. destruct Hl as [Hi Ht]. split; [exact Hi |]. split; [exact Ht |].
    intros Hnd. rewrite Hi. eapply get_fsync_inode_list_del; eassumption.
  - apply Z.eqb_neq in E. split; [congruence |]. intros _. exact Hl.
Qed.
(** ** What discovery records, and when the repair pass moves an entry *)

Lemma last_fsync_block_snoc (ino : nid_t) (reads : list (block_t * (Z + page)))
    (b : block_t) (r : Z + page) :
  last_fsync_block ino (reads ++ [(b, r)]) =
    match r with
    | inr p =>
        if is_recoverable_dnode p && is_fsync_dnode p && (ino_of_node p =? ino)
        then Some b else last_fsync_block ino reads
    | inl _ => last_fsync_block ino reads
    end.
Proof.
  induction reads as [| [b0 r0] rest IH]; cbn [app last_fsync_block].
  - destruct r as [e | p]; [reflexivity |].
    now destruct (is_recoverable_dnode p && is_fsync_dnode p && (ino_of_node p =? ino)).
  - rewrite IH. destruct r as [e | p].
    + reflexivity.
    + destruct (is_recoverable_dnode p && is_fsync_dnode p && (ino_of_node p =? ino));
        [reflexivity |]. reflexivity.
Qed.

Lemma add_fsync_inode_failed (head head' : fsync_list) (ino : nid_t) (q : bool)
    (w w' : world) (e : Z) :
  add_fsync_inode head ino q w = Some (inl e, head', w') -> head' = head.
Proof. intros H. unfold add_fsync_inode in H. mexec H; congruence. Qed.

(** recovery.c:396-432: one block of discovery keeps the records. *)
Lemma find_fsync_dnodes_block_records_last (check_only : bool)
    (head head' : fsync_list) (blkaddr : block_t) (p : page) (err : Z) (r : Z + Z)
    (w w' : world) (reads : list (block_t * (Z + page))) :
  (forall ino s i, fst (sem (f3fs_iget_retry ino) s) = inr i -> i_ino i = ino) ->
  is_recoverable_dnode p = true ->
  records_last head reads ->
  find_fsync_dnodes_block check_only head blkaddr p err w = Some (r, head', w') ->
  records_last head' (reads ++ [(blkaddr, inr p)]).
Proof.
  intros Hig Hrec Hinv H.
  assert (Hother : forall ino q e,
            get_fsync_inode head ino = Some (q, e) ->
            (is_fsync_dnode p = true -> ino_of_node p <> ino) ->
            last_fsync_block ino (reads ++ [(blkaddr, inr p)]) = Some (e_blkaddr e)).
  { intros ino q e Hg Hne. rewrite last_fsync_block_snoc, Hrec. cbn [andb].
    destruct (is_fsync_dnode p) eqn:Hf; cbn [andb]; [| now apply (Hinv ino q)].
    rewrite (proj2 (Z.eqb_neq _ _) (Hne eq_refl)). now apply (Hinv ino q). }
  assert (Hmark : forall head1 q0 e0,
            get_fsync_inode head1 (ino_of_node p) = Some (q0, e0) ->
            is_fsync_dnode p = true ->
            (forall ino', ino' <> ino_of_node p ->
               get_fsync_inode head1 ino' = get_fsync_inode head ino') ->
            records_last (find_fsync_dnodes_mark head1 (q0, e0) blkaddr p)
              (reads ++ [(blkaddr, inr p)])).
  { intros head1 q0 e0 Hg Hf Hsame ino q e Hl.
    destruct (find_fsync_dnodes_mark_lookup head1 q0 e0 blkaddr p _ Hg) as [Hm Ho].
    destruct (Z.eq_dec ino (ino_of_node p)) as [-> | Hne].
    - rewrite Hm in Hl. injection Hl as <- <-. cbn [e_blkaddr].
      rewrite last_fsync_block_snoc, Hrec, Hf, Z.eqb_refl. reflexivity.
    - rewrite (Ho ino Hne), (Hsame ino Hne) in Hl.
      apply (Hother ino q e Hl). congruence. }
  unfold find_fsync_dnodes_block in H.
  destruct (is_fsync_dnode p) eqn:Hf; cbn [negb] in H.
  2:{ apply ret_inv in H as [H _]. injection H as _ ->.
      intros ino q e Hg. apply (Hother ino q e Hg). discriminate. }
  destruct (get_fsync_inode head (ino_of_node p)) as [[q0 e0] |] eqn:Hg.
  - apply ret_inv in H as [H _]. injection H as _ ->.
    apply Hmark; [exact Hg | reflexivity | reflexivity].
  - assert (Hsame : records_last head (reads ++ [(blkaddr, inr p)])).
    { intros ino q e Hl. apply (Hother ino q e Hl). intros _ Heq.
      rewrite Heq in Hg. congruence. }
    apply bind_inv in H as (err1 & w1 & _ & H).
    destruct (_ && nz err1).
    { apply ret_inv in H as [H _]. injection H as _ ->. exact Hsame. }
    apply bind_inv in H as ([ra head1] & w2 & Ha & H).
    destruct ra as [e | ptr].
    + apply add_fsync_inode_failed in Ha. subst head1.
      destruct (e =? - ENOENT); apply ret_inv in H as [H _]; injection H as _ ->;
        exact Hsame.
    + apply ret_inv in H as [H _]. injection H as _ ->.
      destruct (add_fsync_inode_table head head1 _ _ w1 w2 ptr (Hig _) Hg Ha)
        as (Hl & _ & Ho & _).
      destruct ptr as [q0 e0].
      apply Hmark; [exact Hl | reflexivity | exact Ho].
Qed.

(** recovery.c:379-453: the walk of discovery keeps the records. *)
Lemma find_fsync_dnodes_loop_records_last (check_only : bool) (F : Z) :
  (forall ino s i, fst (sem (f3fs_iget_retry ino) s) = inr i -> i_ino i = ino) ->
  forall (rounds : nat) (head il : fsync_list) (blkaddr : block_t)
         (cnt ra err0 err : Z) (w w' : world) (l : list event)
         (reads : list (block_t * (Z + page))),
    records_last head reads ->
    find_fsync_dnodes_loop rounds check_only F head blkaddr cnt ra err0 w
      = Some (err, il, w') ->
    grows w w' l ->
    records_last il (reads ++ tmp_reads l).
Proof.
  intros Hig.
  induction rounds as [| rounds IH];
    intros head il blkaddr cnt ra err0 err w w' l reads Hinv H Hl; [discriminate H |].
  cbn [find_fsync_dnodes_loop] in H.
  destruct (f3fs_is_valid_blkaddr blkaddr META_POR); cbn [negb] in H.
  2:{ apply ret_inv in H as [H ->]. injection H as _ ->.
      pose proof (grows_inj _ _ _ _ Hl (grows_refl _)) as ->.
      cbn. now rewrite app_nil_r. }
  apply bind_inv in H as (rp & w1 & Hrd & H).
  apply perform_inv in Hrd as (s1 & E & ->).
  destruct rp as [e | p].
  { apply ret_inv in H as [H ->]. injection H as _ ->.
    fix_log Hl. cbn [tmp_reads tmp_read].
    intros ino q e0 Hg. rewrite last_fsync_block_snoc. now apply (Hinv ino q). }
  destruct (is_recoverable_dnode p) eqn:Hrec; cbn [negb] in H.
  2:{ apply bind_inv in H as ([] & w2 & Hp & H).
      apply perform_inv in Hp as (s2 & _ & ->).
      apply ret_inv in H as [H ->]. injection H as _ ->.
      fix_log Hl. cbn [tmp_reads tmp_read].
      intros ino q e0 Hg. rewrite last_fsync_block_snoc, Hrec. cbn [andb].
      now apply (Hinv ino q). }
  apply bind_inv in H as ([rb head1] & wb & Hb & H).
  destruct (find_fsync_dnodes_block_no_tmp_read _ _ _ _ _ _ _ _ Hb) as (lb & Hlb & Hnb).
  apply tmp_reads_none in Hnb.
  pose proof (find_fsync_dnodes_block_records_last _ _ _ _ _ _ _ _ _ _
                Hig Hrec Hinv Hb) as Hinv1.
  assert (Hdone : forall lt,
            Forall no_tmp_read lt ->
            records_last head1
              (reads ++ tmp_reads (Ev (w_st w) (f3fs_get_tmp_page blkaddr) (inr p)
                                   :: lb ++ lt))).
  { intros lt Hlt. cbn [tmp_reads tmp_read].
    rewrite tmp_reads_app, Hnb, (tmp_reads_none _ Hlt). exact Hinv1. }
  destruct rb as [e | err1].
  - apply bind_inv in H as ([] & w2 & Hp & H).
    apply perform_inv in Hp as (s2 & _ & ->).
    apply ret_inv in H as [H ->]. injection H as _ ->.
    assert (l = Ev (w_st w) (f3fs_get_tmp_page blkaddr) (inr p)
                :: lb ++ [Ev (w_st wb) (f3fs_put_page (page_ref p) 1) tt]) as ->.
    { apply (grows_inj _ _ _ _ Hl). unfold grows in *. cbn [w_trace] in *.
      rewrite Hlb, <- !app_assoc. reflexivity. }
    apply Hdone. repeat constructor.
  - destruct ((F <=? u32 (cnt + 1)) || (blkaddr =? next_blkaddr_of_node p)).
    + apply bind_inv in H as ([] & w2 & Hp & H).
      apply perform_inv in Hp as (s2 & _ & ->).
      apply ret_inv in H as [H ->]. injection H as _ ->.
      assert (l = Ev (w_st w) (f3fs_get_tmp_page blkaddr) (inr p)
                  :: lb ++ [Ev (w_st wb) (f3fs_put_page (page_ref p) 1) tt]) as ->.
      { apply (grows_inj _ _ _ _ Hl). unfold grows in *. cbn [w_trace] in *.
        rewrite Hlb, <- !app_assoc. reflexivity. }
      apply Hdone. repeat constructor.
    + apply bind_inv in H as ([] & w2 & Hput & H).
      apply perform_inv in Hput as (s2 & _ & ->).
      apply bind_inv in H as ([] & w3 & Hra & H).
      apply perform_inv in Hra as (s3 & _ & ->). cbn [w_st w_trace] in H.
      assert (Hl2 : exists l2, grows
                {| w_st := s3;
                   w_trace := (w_trace wb ++ [Ev (w_st wb) (f3fs_put_page (page_ref p) 1) tt])
                              ++ [Ev s2 (f3fs_ra_meta_pages_cond (next_blkaddr_of_node p)
                                           (adjust_por_ra_blocks ra blkaddr
                                              (next_blkaddr_of_node p))) tt] |} w' l2).
      { destruct (find_fsync_dnodes_loop_quiet _ _ _ _ _ _ _ _ _ _ _ H) as (l2 & Hl2 & _).
        now exists l2. }
      destruct Hl2 as (l2 & Hl2).
      assert (l = (Ev (w_st w) (f3fs_get_tmp_page blkaddr) (inr p) :: lb)
                  ++ [Ev (w_st wb) (f3fs_put_page (page_ref p) 1) tt;
                      Ev s2 (f3fs_ra_meta_pages_cond (next_blkaddr_of_node p)
                               (adjust_por_ra_blocks ra blkaddr
                                  (next_blkaddr_of_node p))) tt] ++ l2) as ->.
      { apply (grows_inj _ _ _ _ Hl). unfold grows in *. cbn [w_trace] in *.
        rewrite Hl2, Hlb, <- !app_assoc. reflexivity. }
      rewrite tmp_reads_app. cbn [app tmp_reads tmp_read].
      rewrite Hnb. cbn [app].
      change (reads ++ (blkaddr, inr p) :: tmp_reads l2)
        with (reads ++ [(blkaddr, inr p)] ++ tmp_reads l2).
      rewrite app_assoc.
      exact (IH _ _ _ _ _ _ _ _ _ _ _ Hinv1 H Hl2).
Qed.

(** C5.  The block an entry is moved at.  Where f3fs_iget_retry hands out
    the inode it was asked for: when discovery returns, whatever it
    returns, the entry the table holds for an inode records as [blkaddr]
    the last block that discovery read as a recoverable, fsync-marked node
    of that inode; every later fsync-marked node of the inode has
    overwritten what an earlier one recorded.  And one block of the repair
    pass that is repaired in full moves the entry of its inode from the
    inode list to the tail of the tmp list exactly when the block is the
    one the entry records; a block that is not repaired in full, or whose
    inode has no entry, leaves both lists as they are. *)
Theorem recover_data_moves_at_last_block :
  (forall (rounds : nat) (check_only : bool) (w w' : world) (err : Z)
          (il : fsync_list) (l : list event),
     (forall ino s i, fst (sem (f3fs_iget_retry ino) s) = inr i -> i_ino i = ino) ->
     find_fsync_dnodes rounds [] check_only w = Some (err, il, w') ->
     grows w w' l ->
     forall ino q e,
       get_fsync_inode il ino = Some (q, e) ->
       last_fsync_block ino (tmp_reads l) = Some (e_blkaddr e)) /\
  (forall (rounds : nat) (ls ls' : fsync_lists) (blkaddr : block_t) (p : page)
          (err : Z) (r : Z + Z) (w w' : world),
     recover_data_block rounds ls blkaddr p err w = Some (r, ls', w') ->
     match get_fsync_inode (inode_list ls) (ino_of_node p), r with
     | Some (q, e), inr _ =>
         (e_blkaddr e = blkaddr ->
          inode_list ls' = list_del (inode_list ls) q /\
          tmp_inode_list ls' = tmp_inode_list ls ++ [e]) /\
         (e_blkaddr e <> blkaddr ->
          inode_list ls' = inode_list ls /\ tmp_inode_list ls' = tmp_inode_list ls)
     | _, _ => inode_list ls' = inode_list ls /\ tmp_inode_list ls' = tmp_inode_list ls
     end).
Proof.
  split.
  - intros rounds check_only w w' err il l Hig H Hl ino q e Hg.
    unfold find_fsync_dnodes in H.
    rewrite (bind_Some _ _ _ _ _ (read_run _ _)) in H.
    rewrite (bind_Some _ _ _ _ _ (read_run _ _)) in H.
    assert (Hinv : records_last [] []) by (intros ? ? ? Hx; discriminate Hx).
    exact (find_fsync_dnodes_loop_records_last _ _ Hig _ _ _ _ _ _ _ _ _ _ _ _
             Hinv H Hl ino q e Hg).
  - intros rounds ls ls' blkaddr p err r w w' H.
    destruct (recover_data_block_lists _ _ _ _ _ _ _ _ _ H) as [_ Hl].
    destruct (get_fsync_inode (inode_list ls) (ino_of_node p)) as [[q e] |];
      [| exact Hl].
    destruct r as [e1 | e1]; [exact Hl |].
    destruct (Z.eqb_spec (e_blkaddr e) blkaddr) as [E | E].
    + split; [now intros _ | congruence].
    + split; [congruence | now intros _].
Qed.


(** * Inode reconstruction *)

(** X5.  recover_inode marks the inode dirty, as its last call, exactly
    when it returns 0.  It fails only with the error of a quota transfer.
    When dquot_transfer fails, SBI_QUOTA_NEED_REPAIR is set and nothing of
    the inode but i_mode has been written; when the transfer of the project
    quota fails, the uid and the gid have been written already, and the
    size, the times and the flags have not. *)
Theorem recover_inode_failure (i : inode) (p : page) (w w' : world) (r : Z)
    (l : list event) :
  recover_inode i p w = Some (r, w') ->
  grows w w' l ->
  (r = 0 -> exists l0 s, l = l0 ++ [Ev s (f3fs_mark_inode_dirty_sync i true) tt]) /\
  (r <> 0 ->
   (exists attr s1 s2,
      l = [Ev (w_st w) (inode_store i fld_i_mode (i_mode (F3FS_INODE p))) tt;
           Ev s1 (dquot_transfer i attr) r;
           Ev s2 (set_sbi_flag SBI_QUOTA_NEED_REPAIR) tt]) \/
   (exists pre kprojid s1 s2 s3,
      l = Ev (w_st w) (inode_store i fld_i_mode (i_mode (F3FS_INODE p))) tt
          :: pre ++ [Ev s1 (i_uid_write i (i_uid (F3FS_INODE p))) tt;
                     Ev s2 (i_gid_write i (i_gid (F3FS_INODE p))) tt;
                     Ev s3 (f3fs_transfer_project_quota i kprojid) r] /\
      (pre = [] \/ exists attr s, pre = [Ev s (dquot_transfer i attr) 0]))).
Proof.
  intros H Hl.
  unfold recover_inode, recover_quota_data, recover_inode_projid,
    recover_inline_flags in H.
  mexec H.
  all: log_eq Hl; subst l.
  all: repeat match goal with u : unit |- _ => destruct u end.
  all: repeat match goal with
       | Hn : nz ?x = true |- _ => apply nz_true in Hn
       | Hn : nz ?x = false |- _ => apply nz_false in Hn; try subst x
       end.
  all: split; intros Hr; try congruence.
  all: try (rewrite !app_assoc; eexists _, _; reflexivity).
  all: first [ left; eexists _, _, _; reflexivity
             | right; exists []; eexists _, _, _, _; split; [reflexivity | now left]
             | right; eexists [_]; eexists _, _, _, _; split;
               [reflexivity | right; eexists _, _; reflexivity] ].
Qed.
(** ** A quota transfer that fails *)

Lemma transfer_failures_app (l1 l2 : list event) :
  transfer_failures (l1 ++ l2) = transfer_failures l1 ++ transfer_failures l2.
Proof. apply flat_map_app. Qed.

Lemma transfer_failures_none (l : list event) :
  Forall (fun ev => transfer_failure ev = None) l -> transfer_failures l = [].
Proof.
  induction 1 as [| ev l Hev _ IH]; [reflexivity |].
  unfold transfer_failures in *. cbn [flat_map]. now rewrite Hev, IH.
Qed.

Lemma transfer_failures_In (l : list event) (ev : event) :
  transfer_failures l = [] -> In ev l -> transfer_failure ev = None.
Proof.
  induction l as [| a l IH]; intros H Hin; [destruct Hin |].
  unfold transfer_failures in H. cbn [flat_map] in H.
  apply app_eq_nil in H as [Ha Hl].
  destruct Hin as [-> | Hin].
  - destruct (transfer_failure ev); [discriminate Ha | reflexivity].
  - now apply IH.
Qed.

Lemma release_no_transfer (ev : event) : release_call ev -> transfer_failure ev = None.
Proof.
  destruct ev as [R s c a].
  destruct c; cbn; intros H; first [reflexivity | destruct H].
Qed.

Lemma preamble_no_transfer (ev : event) : preamble_call ev -> transfer_failure ev = None.
Proof.
  destruct ev as [R s c a].
  destruct c; cbn; intros H; first [reflexivity | destruct H].
Qed.

Lemma dentry_no_transfer (ev : event) :
  calls_only dentry_action ev -> transfer_failure ev = None.
Proof.
  destruct ev as [R s c a].
  destruct c; cbn; intros H; first [reflexivity | discriminate H].
Qed.

Lemma data_no_transfer (ev : event) :
  calls_only data_action ev -> transfer_failure ev = None.
Proof.
  destruct ev as [R s c a].
  destruct c; cbn; intros H; first [reflexivity | discriminate H].
Qed.

Lemma transfer_aborts_app_l (l0 l : list event) (e : Z) :
  transfer_failures l0 = [] -> transfer_aborts l e -> transfer_aborts (l0 ++ l) e.
Proof.
  intros H0 (l1 & s & i & attr & s2 & l3 & -> & He & H1 & H3).
  exists (l0 ++ l1), s, i, attr, s2, l3.
  rewrite <- app_assoc, transfer_failures_app, H0, H1. now repeat split.
Qed.

Lemma transfer_aborts_app_r (l l' : list event) (e : Z) :
  transfer_aborts l e -> Forall release_call l' -> transfer_aborts (l ++ l') e.
Proof.
  intros (l1 & s & i & attr & s2 & l3 & -> & He & H1 & H3) H'.
  exists l1, s, i, attr, s2, (l3 ++ l').
  rewrite <- app_assoc. cbn [app]. repeat split; try assumption.
  apply Forall_app. now split.
Qed.

Lemma grows_perform {R} (c : call R) (w w' : world) (r : R) :
  perform c w = Some (r, w') -> grows w w' [Ev (w_st w) c r].
Proof. intros H. apply perform_inv in H as (s & _ & ->). reflexivity. Qed.

(** recovery.c:287-348: recover_inode fails a quota transfer at most once,
    and returns its error right after the flag is set. *)
Lemma recover_inode_transfer (i : inode) (p : page) (w w' : world) (r : Z) :
  recover_inode i p w = Some (r, w') ->
  exists l, grows w w' l /\ (transfer_failures l = [] \/ transfer_aborts l r).
Proof.
  intros H. destruct (recover_inode_calls i p w r w' H) as (l & Hl & _).
  exists l. split; [exact Hl |].
  unfold recover_inode, recover_quota_data, recover_inode_projid,
    recover_inline_flags in H.
  mexec H.
  all: log_eq Hl; subst l.
  all: repeat match goal with u : unit |- _ => destruct u end.
  all: try congruence.
  all: first
    [ left; unfold transfer_failures; cbn [flat_map transfer_failure app];
      repeat match goal with Hn : nz _ = _ |- _ => rewrite Hn end; reflexivity
    | right; cbn [app]; eexists [_], _, _, _, _, [];
      split; [reflexivity |];
      split; [apply (proj1 (nz_true _)); assumption |];
      split; [reflexivity | apply Forall_nil] ].
Qed.

(** recovery.c:752-780: a block of the repair pass fails a quota transfer
    only in recover_inode, and then leaves the loop. *)
Lemma recover_data_block_transfer (rounds : nat) (ls ls' : fsync_lists)
    (blkaddr : block_t) (p : page) (err : Z) (r : Z + Z) (w w' : world) :
  recover_data_block rounds ls blkaddr p err w = Some (r, ls', w') ->
  exists l, grows w w' l /\
    (transfer_failures l = [] \/ exists e, r = inl e /\ transfer_aborts l e).
Proof.
  intros H.
  destruct (recover_data_block_calls _ _ _ _ _ _ _ _ H) as (l & Hl & _).
  exists l. split; [exact Hl |].
  unfold recover_data_block in H.
  destruct (get_fsync_inode (inode_list ls) (ino_of_node p)) as [[q e] |].
  2: { apply ret_inv in H as [_ ->]. fix_log Hl. now left. }
  cbn [snd fst] in H.
  apply bind_inv in H as (err1 & w1 & H1 & H).
  assert (Hrest : forall la, grows w w1 la -> transfer_failures la = [] ->
            IS_INODE p && nz err1 = false -> transfer_failures l = []).
  { intros la Hla Hq Hc. rewrite Hc in H.
    match type of H with
    | ?m _ = Some _ =>
        assert (Hm : all_calls (fun ev => transfer_failure ev = None) m)
          by (mall ltac:(first
                [ apply (all_calls_weaken _ _ _ dentry_no_transfer);
                  apply recover_dentry_calls
                | apply (all_calls_weaken _ _ _ data_no_transfer);
                  apply do_recover_data_calls
                | reflexivity ]))
    end.
    destruct (Hm _ _ _ H) as (lb & Hlb & Hnb).
    rewrite (grows_inj _ _ _ _ Hl (grows_trans _ _ _ _ _ Hla Hlb)).
    now rewrite transfer_failures_app, Hq, (transfer_failures_none _ Hnb). }
  destruct (IS_INODE p) eqn:Hi.
  - destruct (recover_inode_transfer _ _ _ _ _ H1) as (la & Hla & Hcase).
    cbn [andb] in *. destruct (nz err1) eqn:Hn.
    + apply ret_inv in H as [Hr ->]. injection Hr as -> ->.
      rewrite (grows_inj _ _ _ _ Hl Hla).
      destruct Hcase as [Hq | Hab]; [now left |].
      right. exists err1. now split.
    + destruct Hcase as [Hq | Hab].
      * left. now apply (Hrest la).
      * destruct Hab as (? & ? & ? & ? & ? & ? & _ & Hne & _).
        apply nz_false in Hn. congruence.
  - apply ret_inv in H1 as [-> ->]. left.
    apply (Hrest []); [apply grows_refl | reflexivity | reflexivity].
Qed.

(** recovery.c:734-788: the loop of the repair pass stops at the block
    whose quota transfer fails; the page of the block is put. *)
Lemma recover_data_loop_transfer (rounds : nat) (n : nat) :
  forall ls blkaddr ra err w w' r ls',
    recover_data_loop rounds n ls blkaddr ra err w = Some (r, ls', w') ->
    exists l, grows w w' l /\ (transfer_failures l = [] \/ transfer_aborts l r).
Proof.
  induction n as [| n IH]; intros ls blkaddr ra err w w' r ls' H;
    cbn [recover_data_loop] in H; [discriminate H |].
  destruct (negb (f3fs_is_valid_blkaddr blkaddr META_POR)).
  { apply ret_inv in H as [_ ->]. exists []. split; [apply grows_refl | now left]. }
  apply bind_inv in H as (rp & w1 & Hp & H).
  pose proof (grows_perform _ _ _ _ Hp) as Hg1.
  destruct rp as [e | pg].
  { apply ret_inv in H as [_ ->]. eexists. split; [exact Hg1 | now left]. }
  destruct (negb (is_recoverable_dnode pg)).
  { apply bind_inv in H as (u & w2 & Hq & H). apply ret_inv in H as [_ ->].
    pose proof (grows_perform _ _ _ _ Hq) as Hg2.
    eexists. split; [exact (grows_trans _ _ _ _ _ Hg1 Hg2) | now left]. }
  apply bind_inv in H as ([rb lsb] & w2 & Hb & H).
  destruct (recover_data_block_transfer _ _ _ _ _ _ _ _ _ Hb) as (lb & Hlb & Hcase).
  destruct rb as [e | err'].
  - apply bind_inv in H as (u & w3 & Hq & H). apply ret_inv in H as [Hr ->].
    injection Hr as -> ->.
    pose proof (grows_perform _ _ _ _ Hq) as Hg3.
    eexists. split; [exact (grows_trans _ _ _ _ _ Hg1 (grows_trans _ _ _ _ _ Hlb Hg3)) |].
    destruct Hcase as [Hn | (e' & He & Hab)].
    + left. rewrite !transfer_failures_app, Hn. reflexivity.
    + injection He as <-. right.
      apply transfer_aborts_app_l; [reflexivity |].
      apply transfer_aborts_app_r; [exact Hab |].
      constructor; [exact I | constructor].
  - destruct Hcase as [Hn | (e' & He & _)]; [| discriminate He].
    apply bind_inv in H as (u & w3 & Hq & H).
    apply bind_inv in H as (u' & w4 & Hra & H).
    pose proof (grows_perform _ _ _ _ Hq) as Hg3.
    pose proof (grows_perform _ _ _ _ Hra) as Hg4.
    destruct (IH _ _ _ _ _ _ _ _ H) as (lr & Hlr & Hcase).
    eexists. split.
    { exact (grows_trans _ _ _ _ _ Hg1 (grows_trans _ _ _ _ _ Hlb
               (grows_trans _ _ _ _ _ Hg3 (grows_trans _ _ _ _ _ Hg4 Hlr)))). }
    destruct Hcase as [Hr | Hab].
    + left. rewrite !transfer_failures_app, Hn, Hr. reflexivity.
    + right.
      apply transfer_aborts_app_l; [reflexivity |].
      apply transfer_aborts_app_l; [exact Hn |].
      apply transfer_aborts_app_l; [reflexivity |].
      apply transfer_aborts_app_l; [reflexivity |]. exact Hab.
Qed.

(** recovery.c:721-794. *)
Lemma recover_data_transfer (rounds : nat) (ls ls' : fsync_lists) (w w' : world)
    (r : Z) :
  recover_data rounds ls w = Some (r, ls', w') ->
  exists l, grows w w' l /\ (transfer_failures l = [] \/ transfer_aborts l r).
Proof.
  intros H. unfold recover_data in H.
  rewrite (bind_Some _ _ _ _ _ (read_run _ _)) in H.
  apply bind_inv in H as ([err lsr] & w1 & Hloop & H).
  destruct (recover_data_loop_transfer _ _ _ _ _ _ _ _ _ _ Hloop) as (l & Hl & Hcase).
  apply bind_inv in H as (u & w2 & Ha & H). apply ret_inv in H as [Hr ->].
  injection Hr as -> ->.
  destruct (negb (nz err)) eqn:Hn.
  - pose proof (grows_perform _ _ _ _ Ha) as Hg.
    eexists. split; [exact (grows_trans _ _ _ _ _ Hl Hg) |].
    destruct Hcase as [Hq | Hab].
    + left. rewrite transfer_failures_app, Hq. reflexivity.
    + destruct Hab as (? & ? & ? & ? & ? & ? & _ & Hne & _).
      apply negb_true_iff, nz_false in Hn. congruence.
  - apply ret_inv in Ha as [_ ->]. exists l. now split.
Qed.

Lemma find_fsync_dnodes_block_no_transfer (check_only : bool) (head : fsync_list)
    (blkaddr : block_t) (p : page) (err : Z) :
  all_calls (fun ev => transfer_failure ev = None)
    (find_fsync_dnodes_block check_only head blkaddr p err).
Proof.
  unfold find_fsync_dnodes_block, add_fsync_inode. mall ltac:(reflexivity).
Qed.

Lemma find_fsync_dnodes_loop_no_transfer (check_only : bool) (F : Z) (rounds : nat) :
  forall head blkaddr cnt ra err,
    all_calls (fun ev => transfer_failure ev = None)
      (find_fsync_dnodes_loop rounds check_only F head blkaddr cnt ra err).
Proof.
  induction rounds as [| rounds IH]; intros head blkaddr cnt ra err;
    cbn [find_fsync_dnodes_loop].
  - apply all_out_of_rounds.
  - mall ltac:(first [apply IH | apply find_fsync_dnodes_block_no_transfer
                     | reflexivity]).
Qed.

Lemma find_fsync_dnodes_no_transfer (rounds : nat) (head : fsync_list)
    (check_only : bool) :
  all_calls (fun ev => transfer_failure ev = None)
    (find_fsync_dnodes rounds head check_only).
Proof.
  unfold find_fsync_dnodes.
  mall ltac:(first [apply find_fsync_dnodes_loop_no_transfer | reflexivity]).
Qed.

(** recovery.c:826-843: a quota transfer fails in the repair pass only, and
    control then reaches [skip:] with its error. *)
Lemma f3fs_recover_fsync_data_steps_transfer (rounds : nat) (check_only : bool)
    (w w' : world) (sk : at_skip) :
  f3fs_recover_fsync_data_steps rounds check_only w = Some (sk, w') ->
  exists l, grows w w' l /\
    (transfer_failures l = [] \/
     transfer_aborts l (sk_err sk) /\ sk_ret sk = 0 /\ check_only = false).
Proof.
  intros H. unfold f3fs_recover_fsync_data_steps in H.
  apply bind_inv in H as ([err il] & w1 & Hd & H).
  destruct (find_fsync_dnodes_no_transfer _ _ _ _ _ _ Hd) as (ld & Hld & Hnd).
  apply transfer_failures_none in Hnd.
  destruct (nz err || list_empty il).
  { apply ret_inv in H as [_ ->]. exists ld. split; [exact Hld | now left]. }
  destruct check_only.
  { apply ret_inv in H as [_ ->]. exists ld. split; [exact Hld | now left]. }
  apply bind_inv in H as ([err2 ls2] & w2 & Hr & H).
  destruct (recover_data_transfer _ _ _ _ _ _ Hr) as (lr & Hlr & Hcase).
  apply bind_inv in H as (u & w3 & Hb & H). apply ret_inv in H as [-> ->].
  cbn [sk_err sk_ret].
  assert (Hbug : exists lb, grows w2 w3 lb /\ Forall release_call lb).
  { destruct (negb (nz err2)).
    - eexists. split; [exact (grows_perform _ _ _ _ Hb) |].
      constructor; [exact I | constructor].
    - rewrite (bind_Some _ _ _ _ _ (read_run _ _)) in Hb.
      eexists. split; [exact (grows_perform _ _ _ _ Hb) |].
      constructor; [exact I | constructor]. }
  destruct Hbug as (lb & Hlb & Hrel).
  eexists. split; [exact (grows_trans _ _ _ _ _ Hld (grows_trans _ _ _ _ _ Hlr Hlb)) |].
  destruct Hcase as [Hq | Hab].
  - left. rewrite !transfer_failures_app, Hnd, Hq. cbn [app].
    apply transfer_failures_none. eapply Forall_impl; [| exact Hrel].
    intros ev. apply release_no_transfer.
  - right. split; [| now split].
    apply transfer_aborts_app_l; [exact Hnd |].
    apply transfer_aborts_app_r; assumption.
Qed.

Lemma all_bind_ret (P : event -> Prop) {A B} (a : A) (k : A -> M B) :
  all_calls P (k a) -> all_calls P (bind (ret a) k).
Proof. intros Hk w b w' H. exact (Hk w b w' H). Qed.

(** recovery.c:844-896: from [skip:] on, a run that has failed releases
    what it holds and restores s_flags. *)
Lemma f3fs_recover_fsync_data_skip_release (check_only : bool)
    (s_flags quota_enabled : Z) (sk : at_skip) :
  nz (sk_err sk) = true ->
  all_calls release_call
    (f3fs_recover_fsync_data_skip check_only s_flags quota_enabled sk).
Proof.
  intros Hn. unfold f3fs_recover_fsync_data_skip. cbv zeta. rewrite Hn.
  cbn [negb andb].
  apply all_bind; [apply destroy_fsync_dnodes_calls; intros; exact I | intros ?].
  apply all_bind; [apply destroy_fsync_dnodes_calls; intros; exact I | intros ?].
  apply all_bind; [apply all_perform; intros; exact I | intros ?].
  apply all_bind; [mall ltac:(exact I) | intros ?].
  apply all_bind; [apply all_read | intros ?].
  apply all_bind; [apply all_read | intros ?].
  apply all_bind_ret. rewrite Hn. cbn [negb].
  mall ltac:(first [apply destroy_fsync_dnodes_calls; intros; exact I | exact I]).
Qed.


Lemma f3fs_recover_fsync_data_skip_no_transfer (check_only : bool)
    (s_flags quota_enabled : Z) (sk : at_skip) :
  all_calls (fun ev => transfer_failure ev = None)
    (f3fs_recover_fsync_data_skip check_only s_flags quota_enabled sk).
Proof.
  unfold f3fs_recover_fsync_data_skip.
  mall ltac:(first [ apply destroy_fsync_dnodes_calls; intros; reflexivity
                   | reflexivity ]).
Qed.

Lemma transfer_failures_event (l : list event) (e : Z) :
  In e (transfer_failures l) ->
  exists s i attr, In (Ev s (dquot_transfer i attr) e) l /\ e <> 0.
Proof.
  induction l as [| ev l IH]; intros H; [destruct H |].
  unfold transfer_failures in H. cbn [flat_map] in H.
  apply in_app_or in H as [H | H].
  - destruct ev as [R s c r]. destruct c; cbn in H; try (destruct H; fail).
    destruct (nz r) eqn:Hn; [| destruct H].
    destruct H as [<- | []]. apply nz_true in Hn.
    eexists _, _, _. split; [left; reflexivity | exact Hn].
  - destruct (IH H) as (s & i & attr & Hin & He).
    exists s, i, attr. split; [right; exact Hin | exact He].
Qed.

(** C4.  A quota transfer that fails during inode reconstruction ends the
    run.  Whenever a dquot_transfer of a run of f3fs_recover_fsync_data
    answers an error, the run is no check-only run and returns that error;
    SBI_QUOTA_NEED_REPAIR is set by the very next call; no dquot_transfer
    has failed before; and every call after that is a release call: no
    further block of the log is read, nothing more is repaired, no
    checkpoint is written, the write pointers are not fixed and
    SBI_POR_DOING is not cleared. *)
Theorem f3fs_recover_fsync_data_transfer_failure (rounds : nat) (check_only : bool)
    (w w' : world) (r : Z) (l : list event) :
  f3fs_recover_fsync_data rounds check_only w = Some (r, w') ->
  grows w w' l ->
  forall (s : kstate) (i : inode) (attr : iattr) (e : Z),
    In (Ev s (dquot_transfer i attr) e) l ->
    e <> 0 ->
    check_only = false /\
    r = e /\
    (exists l1 s2 l3,
       l = l1 ++ Ev s (dquot_transfer i attr) e
              :: Ev s2 (set_sbi_flag SBI_QUOTA_NEED_REPAIR) tt :: l3 /\
       transfer_failures l1 = [] /\
       Forall release_call l3) /\
    cp_answers l = [] /\
    fix_answers l = [] /\
    ~ In (Act (clear_sbi_flag SBI_POR_DOING)) (calls l).
Proof.
  intros H Hl s i attr e Hin He.
  destruct (f3fs_recover_fsync_data_run_at _ _ _ _ _ _ H Hl)
    as (q & w1 & w2 & sk & fixed & e_fix & e_cp & s0 & lpre & lpass & ls & Hrun).
  cbv zeta in Hrun.
  destruct Hrun as (_ & Hsteps & Hll & _ & Hpre & Hgp & Hgs & Hskip & _ & Hfixed & Hr
                    & Hfix & Hcp & _ & Ho).
  destruct (f3fs_recover_fsync_data_steps_transfer _ _ _ _ _ Hsteps)
    as (lp & Hlp & Hcase).
  rewrite (grows_inj _ _ _ _ Hlp Hgp) in Hcase. clear lp Hlp.
  assert (Hqpre : transfer_failures lpre = []).
  { apply transfer_failures_none. eapply Forall_impl; [| exact Hpre].
    intros ev. apply preamble_no_transfer. }
  assert (Hfail : transfer_failure (Ev s (dquot_transfer i attr) e) = Some e).
  { cbn. apply nz_true in He. now rewrite He. }
  assert (Hqs : transfer_failures ls = []).
  { destruct (f3fs_recover_fsync_data_skip_no_transfer _ _ _ _ _ _ _ Hskip)
      as (ls' & Hls' & Hn).
    rewrite (grows_inj _ _ _ _ Hgs Hls'). now apply transfer_failures_none. }
  assert (Hin' : In (Ev s (dquot_transfer i attr) e) lpass).
  { rewrite Hll in Hin. apply in_app_or in Hin as [Hi | Hin].
    - rewrite (transfer_failures_In _ _ Hqpre Hi) in Hfail. discriminate Hfail.
    - apply in_app_or in Hin as [Hi | Hi]; [exact Hi |].
      rewrite (transfer_failures_In _ _ Hqs Hi) in Hfail. discriminate Hfail. }
  destruct Hcase as [Hq | (Hab & Hret & Hco)].
  { rewrite (transfer_failures_In _ _ Hq Hin') in Hfail. discriminate Hfail. }
  destruct Hab as (l1 & s' & i' & attr' & s2 & l3 & Hlp & Hne & Hq1 & Hrel).
  assert (Hnz : nz (sk_err sk) = true) by now apply nz_true.
  assert (Hrs : Forall release_call ls).
  { exact (all_calls_log _ _ _ _ _ _
             (f3fs_recover_fsync_data_skip_release check_only _ q sk Hnz) Hskip Hgs). }
  assert (Heq : Ev s' (dquot_transfer i' attr') (sk_err sk)
                = Ev s (dquot_transfer i attr) e).
  { rewrite Hlp in Hin'. apply in_app_or in Hin' as [Hi | Hi].
    - rewrite (transfer_failures_In _ _ Hq1 Hi) in Hfail. discriminate Hfail.
    - destruct Hi as [Hi | [Hi | Hi]]; [exact Hi | |].
      + apply (f_equal transfer_failure) in Hi. rewrite Hfail in Hi. discriminate Hi.
      + rewrite Forall_forall in Hrel. apply Hrel, release_no_transfer in Hi.
        rewrite Hfail in Hi. discriminate Hi. }
  assert (Hee : sk_err sk = e).
  { pose proof (f_equal transfer_failure Heq) as Ht. rewrite Hfail in Ht.
    cbn in Ht. rewrite Hnz in Ht. now injection Ht. }
  rewrite Heq in Hlp. clear Heq.
  rewrite Hret, Hnz in *. cbn [negb andb] in *. subst fixed.
  cbn [nz Z.eqb negb] in Hr. rewrite Hnz, andb_false_r in *. cbn in Hr.
  split; [exact Hco |]. split; [congruence |]. split.
  { exists (lpre ++ l1), s2, (l3 ++ ls). split.
    - rewrite Hll, Hlp, <- !app_assoc. reflexivity.
    - split; [now rewrite transfer_failures_app, Hqpre, Hq1 |].
      apply Forall_app. now split. }
  split; [exact Hcp |]. split; [exact Hfix |].
  not_in_orchestration Ho
    (fun a => match a with Act (clear_sbi_flag _) => true | _ => false end).
Qed.


Lemma calls_only_In (f : action -> bool) (l : list event) (a : action) :
  Forall (calls_only f) l -> In a (calls l) -> f a = true.
Proof.
  intros HF Hin. unfold calls in Hin. apply in_map_iff in Hin as (ev & <- & Hev).
  rewrite Forall_forall in HF. exact (HF ev Hev).
Qed.

(** X12.  recover_data allocates new segments, as its last call, exactly
    when it returns 0; when it returns an error it has not called
    f3fs_allocate_new_segments. *)
Theorem recover_data_allocates (rounds : nat) (ls ls' : fsync_lists) (err : Z)
    (w w' : world) (l : list event) :
  recover_data rounds ls w = Some (err, ls', w') ->
  grows w w' l ->
  (err = 0 -> exists l0 s, l = l0 ++ [Ev s f3fs_allocate_new_segments tt]) /\
  (err <> 0 -> ~ In (Act f3fs_allocate_new_segments) (calls l)).
Proof.
  intros H Hl. unfold recover_data in H.
  apply bind_inv in H as (blkaddr & w1 & Hrd & H). apply read_inv in Hrd as [_ <-].
  apply bind_inv in H as ([err1 ls1] & w2 & Hloop & H).
  destruct (recover_data_loop_calls _ _ _ _ _ _ _ _ _ Hloop) as (ll & Hll & HF).
  apply bind_inv in H as ([] & w3 & Ha & H).
  apply ret_inv in H as [H ->]. injection H as ? ?; subst err1 ls1.
  destruct (nz err) eqn:E; cbn [negb] in Ha.
  - apply ret_inv in Ha as [_ ->]. rewrite (grows_inj _ _ _ _ Hl Hll).
    apply nz_true in E. split; [congruence |]. intros _ Hin.
    pose proof (calls_only_In _ _ _ HF Hin) as Hc. discriminate Hc.
  - apply perform_inv in Ha as (s & _ & ->). apply nz_false in E.
    split; [| congruence]. intros _. exists ll, (w_st w2).
    apply (grows_inj _ _ _ _ Hl). unfold grows in *. cbn [w_trace].
    now rewrite Hll, app_assoc.
Qed.

(** * The footer of the live node page *)







(** * Counting references: the rules *)

Section WeightRules.
Variable wt : event -> Z.

Lemma weight_app (l1 l2 : list event) :
  weight wt (l1 ++ l2) = weight wt l1 + weight wt l2.
Proof.
  induction l1 as [| ev l1 IH]; cbn [app weight fold_right]; [reflexivity |].
  fold (weight wt (l1 ++ l2)). fold (weight wt l1). lia.
Qed.

Lemma weighs_ret (acc : Z) {A} (h : A -> Z) (a : A) :
  acc = h a -> weighs_from wt acc h (ret a).
Proof.
  intros Hh w a' w' H. apply ret_inv in H as [<- <-]. exists []. split.
  - apply grows_refl.
  - cbn. lia.
Qed.

Lemma weighs_out_of_rounds (acc : Z) {A} (h : A -> Z) :
  weighs_from wt acc h (@out_of_rounds K A).
Proof. intros w a w' H. discriminate H. Qed.

Lemma weighs_perform (acc : Z) {R} (h : R -> Z) (c : call R) :
  (forall s r, acc + wt (Ev s c r) = h r) -> weighs_from wt acc h (perform c).
Proof.
  intros Hh w r w' H. apply perform_inv in H as (s' & _ & ->).
  eexists. split; [grows_now |]. cbn. rewrite <- (Hh (w_st w) r). lia.
Qed.

Lemma weighs_bind (acc : Z) {A B} (f : A -> Z) (h : B -> Z) (m : M A) (k : A -> M B) :
  weighs_from wt 0 f m ->
  (forall a, weighs_from wt (acc + f a) h (k a)) ->
  weighs_from wt acc h (bind m k).
Proof.
  intros Hm Hk w b w' H. apply bind_inv in H as (a & w1 & H1 & H2).
  apply Hm in H1 as (l1 & Hl1 & Hw1). apply Hk in H2 as (l2 & Hl2 & Hw2).
  exists (l1 ++ l2). split; [eapply grows_trans; eassumption |].
  rewrite weight_app. lia.
Qed.

Lemma weighs_bind_perform (acc : Z) {R B} (h : B -> Z) (c : call R) (k : R -> M B) :
  (forall s r, weighs_from wt (acc + wt (Ev s c r)) h (k r)) ->
  weighs_from wt acc h (bind (perform c) k).
Proof.
  intros Hk w b w' H. apply bind_inv in H as (r & w1 & H1 & H2).
  apply perform_inv in H1 as (s' & _ & ->).
  apply (Hk (w_st w)) in H2 as (l2 & Hl2 & Hw2).
  exists (Ev (w_st w) c r :: l2). split.
  - unfold grows in *. cbn [w_trace] in *. now rewrite Hl2, <- app_assoc.
  - cbn [weight fold_right]. fold (weight wt l2). lia.
Qed.

Lemma weighs_bind_read (acc : Z) {R B} (h : B -> Z) (q : query R) (k : R -> M B) :
  (forall r, weighs_from wt acc h (k r)) ->
  weighs_from wt acc h (bind (read q) k).
Proof.
  intros Hk w b w' H. apply bind_inv in H as (r & w1 & H1 & H2).
  apply read_inv in H1 as [_ <-]. now apply Hk in H2.
Qed.

Lemma weighs_bind_ret (acc : Z) {A B} (h : B -> Z) (a : A) (k : A -> M B) :
  weighs_from wt acc h (k a) -> weighs_from wt acc h (bind (ret a) k).
Proof.
  intros Hk w b w' H. apply bind_inv in H as (a' & w1 & H1 & H2).
  apply ret_inv in H1 as [<- <-]. now apply Hk in H2.
Qed.

Lemma weighs_bind_assoc (acc : Z) {A B C} (h : C -> Z) (m : M A) (k1 : A -> M B)
    (k2 : B -> M C) :
  weighs_from wt acc h (bind m (fun a => bind (k1 a) k2)) ->
  weighs_from wt acc h (bind (bind m k1) k2).
Proof.
  intros Hm w c w' H. apply (Hm w c w').
  unfold bind in *. destruct (m w) as [[a w1] |]; [exact H | discriminate H].
Qed.

Lemma weighs_shift (acc : Z) {A} (f h : A -> Z) (m : M A) :
  weighs_from wt 0 f m -> (forall a, acc + f a = h a) -> weighs_from wt acc h m.
Proof.
  intros Hm Hh w a w' H. apply Hm in H as (l & Hl & Hw).
  exists l. split; [exact Hl |]. rewrite <- Hh. lia.
Qed.

End WeightRules.

Lemma length_entry_store (head : fsync_list) (f : fsync_inode_entry -> fsync_inode_entry) :
  forall p, length (entry_store head p f) = length head.
Proof.
  induction head as [| e rest IH]; intros p; [reflexivity |].
  destruct p; cbn [entry_store length]; [reflexivity | now rewrite IH].
Qed.

Lemma length_list_del (head : fsync_list) :
  forall p e, nth_error head p = Some e -> S (length (list_del head p)) = length head.
Proof.
  induction head as [| e0 rest IH]; intros p e H; destruct p; cbn in H;
    try discriminate; cbn [list_del length]; [reflexivity |].
  now rewrite (IH _ _ H).
Qed.

(** Decide the counts at the end of a path. *)
Ltac weigh_leaf :=
  intros; unfold entries_held;
  cbn [inode_ref dnode_ref page_lock locked_page_ref orphan_slot fst snd Z.eqb Pos.eqb
       inode_list tmp_inode_list dir_list sk_lists];
  repeat match goal with
         | H : nz ?e = _ |- context [nz ?e] => rewrite H
         end;
  repeat match goal with
         | |- context [nz ?e] => destruct (nz e) eqn:?
         end;
  unfold find_fsync_dnodes_mark; rewrite ?length_entry_store, ?length_app;
  cbn [length];
  first [reflexivity | lia | congruence].

(** Add up the counts of a computation; [tac] is for the computations that
    have a lemma of their own. *)
Ltac mweigh tac :=
  repeat first
    [ progress cbv zeta
    | match goal with
      | |- weighs_from _ _ _ (ret _) => apply weighs_ret; weigh_leaf
      | |- weighs_from _ _ _ (read _) =>
          intros ? ? ? ?Hrd; apply read_inv in Hrd as [_ <-];
          exists []; split; [apply grows_refl | weigh_leaf]
      | |- weighs_from _ _ _ out_of_rounds => apply weighs_out_of_rounds
      | |- weighs_from _ _ _ (perform _) => apply weighs_perform; weigh_leaf
      | |- weighs_from _ _ _ (bind (perform _) _) =>
          apply weighs_bind_perform; intros ? ?
      | |- weighs_from _ _ _ (bind (read _) _) => apply weighs_bind_read; intros ?
      | |- weighs_from _ _ _ (bind (ret _) _) => apply weighs_bind_ret
      | |- weighs_from _ _ _ (bind (bind _ _) _) => apply weighs_bind_assoc
      | |- weighs_from _ _ _ (bind (if ?b then _ else _) _) => destruct b eqn:?
      | |- weighs_from _ _ _ (bind (match ?x with _ => _ end) _) => destruct x eqn:?
      | |- weighs_from _ _ _ (bind _ _) => eapply weighs_bind; [solve [tac] | intros ?]
      | |- weighs_from _ _ _ (if ?b then _ else _) => destruct b eqn:?
      | |- weighs_from _ _ _ (match ?x with _ => _ end) => destruct x eqn:?
      | |- weighs_from _ _ _ _ => solve [tac]
      end ].

(** Use the lemma [L] of a computation for whichever of the five counts
    is asked for. *)
Tactic Notation "by_balance" uconstr(L) :=
  lazymatch goal with
  | |- weighs_from inode_ref _ _ _ => eapply (proj1 L)
  | |- weighs_from dnode_ref _ _ _ => eapply (proj1 (proj2 L))
  | |- weighs_from page_lock _ _ _ => eapply (proj1 (proj2 (proj2 L)))
  | |- weighs_from locked_page_ref _ _ _ => eapply (proj1 (proj2 (proj2 (proj2 L))))
  | |- weighs_from orphan_slot _ _ _ => eapply (proj2 (proj2 (proj2 (proj2 L))))
  end.

Ltac mbalance tac := unfold balanced; repeat split; mweigh tac.

(** * The collision resolver holds nothing when it returns *)

Lemma check_index_curseg_sum_weighs (wt : event -> Z)
    (types : list curseg_type) (segno blkoff : Z) :
  weighs_from wt 0 (fun _ => 0) (check_index_curseg_sum types segno blkoff).
Proof.
  induction types as [| i rest IH]; cbn [check_index_curseg_sum];
    mweigh ltac:(eapply weighs_shift; [apply IH | weigh_leaf]).
Qed.

Lemma check_index_in_prev_nodes_balanced (blkaddr : block_t) (dn : dnode_of_data) :
  balanced (fun _ => 0) (fun _ => 0) (check_index_in_prev_nodes blkaddr dn).
Proof.
  unfold check_index_in_prev_nodes, check_index_truncate_out.
  mbalance ltac:(apply check_index_curseg_sum_weighs).
Qed.

Lemma do_recover_data_check_prev_balanced (rounds : nat) :
  forall dest dn,
    balanced (fun _ => 0) (fun _ => 0) (do_recover_data_check_prev rounds dest dn).
Proof.
  induction rounds as [| rounds IH]; intros dest dn; cbn [do_recover_data_check_prev].
  - mbalance idtac.
  - mbalance ltac:(first [ by_balance (check_index_in_prev_nodes_balanced _ _)
                         | eapply weighs_shift; [by_balance (IH _ _) | weigh_leaf] ]).
Qed.

Lemma do_recover_data_reserve_balanced (rounds : nat) :
  forall dn, balanced (fun _ => 0) (fun _ => 0) (do_recover_data_reserve rounds dn).
Proof.
  induction rounds as [| rounds IH]; intros dn; cbn [do_recover_data_reserve].
  - mbalance idtac.
  - mbalance ltac:(eapply weighs_shift; [by_balance (IH _) | weigh_leaf]).
Qed.

Lemma do_recover_data_get_dnode_balanced (rounds : nat) :
  forall dn start,
    balanced (fun _ => 0) (fun r => if nz (fst r) then 0 else 1)
      (do_recover_data_get_dnode rounds dn start).
Proof.
  induction rounds as [| rounds IH]; intros dn start; cbn [do_recover_data_get_dnode].
  - mbalance idtac.
  - mbalance ltac:(eapply weighs_shift; [by_balance (IH _ _) | weigh_leaf]).
Qed.

Lemma do_recover_data_index_balanced (rounds : nat) (i : inode) (p : page)
    (ni : node_info) (start : Z) (dn : dnode_of_data) :
  balanced (fun _ => 0) (fun _ => 0) (do_recover_data_index rounds i p ni start dn).
Proof.
  unfold do_recover_data_index.
  mbalance ltac:(first [ by_balance (do_recover_data_check_prev_balanced _ _ _)
                       | by_balance (do_recover_data_reserve_balanced _ _) ]).
Qed.

Lemma do_recover_data_indices_balanced (rounds : nat) (n : nat) :
  forall i p ni start dn,
    balanced (fun _ => 0) (fun _ => 0)
      (do_recover_data_indices rounds n i p ni start dn).
Proof.
  induction n as [| n IH]; intros i p ni start dn; cbn [do_recover_data_indices].
  - mbalance idtac.
  - mbalance ltac:(first [ by_balance (do_recover_data_index_balanced _ _ _ _ _ _)
                         | eapply weighs_shift;
                           [by_balance (IH _ _ _ _ _) | weigh_leaf] ]).
Qed.

Lemma do_recover_data_balanced (rounds : nat) (i : inode) (p : page) :
  balanced (fun _ => 0) (fun _ => 0) (do_recover_data rounds i p).
Proof.
  unfold do_recover_data, do_recover_data_slots.
  mbalance ltac:(first [ by_balance (do_recover_data_get_dnode_balanced _ _ _)
                       | by_balance (do_recover_data_indices_balanced _ _ _ _ _ _ _) ]).
Qed.

(** * The passes hold what the lists hold *)

Lemma add_fsync_inode_balanced (head : fsync_list) (ino : nid_t) (quota_inode : bool) :
  balanced (fun r => Z.of_nat (length (snd r)) - Z.of_nat (length head))
           (fun _ => 0) (add_fsync_inode head ino quota_inode).
Proof. unfold add_fsync_inode. mbalance idtac. Qed.

Lemma destroy_fsync_dnodes_balanced (head : fsync_list) (drop : Z) :
  balanced (fun _ => - Z.of_nat (length head)) (fun _ => 0)
           (destroy_fsync_dnodes head drop).
Proof.
  induction head as [| e rest IH]; cbn [destroy_fsync_dnodes].
  - mbalance idtac.
  - unfold del_fsync_inode.
    mbalance ltac:(eapply weighs_shift; [by_balance IH | weigh_leaf]).
Qed.

Lemma init_recovered_filename_balanced (dir : inode) (raw : f3fs_inode) :
  balanced (fun _ => 0) (fun _ => 0) (init_recovered_filename dir raw).
Proof. unfold init_recovered_filename. mbalance idtac. Qed.

Lemma recover_dentry_retry_balanced (rounds : nat) :
  forall i dir fname err,
    balanced (fun _ => 0) (fun _ => 0) (recover_dentry_retry rounds i dir fname err).
Proof.
  induction rounds as [| rounds IH]; intros i dir fname err;
    cbn [recover_dentry_retry].
  - mbalance idtac.
  - unfold recover_dentry_out_put.
    mbalance ltac:(eapply weighs_shift; [by_balance (IH _ _ _ _) | weigh_leaf]).
Qed.

Lemma recover_dentry_balanced (rounds : nat) (i : inode) (ipage : page)
    (dl : fsync_list) :
  balanced (fun r => Z.of_nat (length (snd r)) - Z.of_nat (length dl))
           (fun _ => 0) (recover_dentry rounds i ipage dl).
Proof.
  unfold recover_dentry.
  mbalance ltac:(first [ by_balance (add_fsync_inode_balanced _ _ _)
                       | by_balance (init_recovered_filename_balanced _ _)
                       | by_balance (recover_dentry_retry_balanced _ _ _ _ _) ]).
Qed.

Lemma recover_inode_balanced (i : inode) (p : page) :
  balanced (fun _ => 0) (fun _ => 0) (recover_inode i p).
Proof.
  unfold recover_inode, recover_quota_data, recover_inode_projid, recover_inline_flags.
  mbalance idtac.
Qed.

Lemma find_fsync_dnodes_block_balanced (check_only : bool) (head : fsync_list)
    (blkaddr : block_t) (p : page) (err : Z) :
  balanced (fun r => Z.of_nat (length (snd r)) - Z.of_nat (length head))
           (fun _ => 0) (find_fsync_dnodes_block check_only head blkaddr p err).
Proof.
  unfold find_fsync_dnodes_block.
  mbalance ltac:(by_balance (add_fsync_inode_balanced _ _ _)).
Qed.

Lemma find_fsync_dnodes_loop_balanced (check_only : bool) (F : Z) (rounds : nat) :
  forall head blkaddr cnt ra err,
    balanced (fun r => Z.of_nat (length (snd r)) - Z.of_nat (length head))
             (fun _ => 0)
             (find_fsync_dnodes_loop rounds check_only F head blkaddr cnt ra err).
Proof.
  induction rounds as [| rounds IH]; intros head blkaddr cnt ra err;
    cbn [find_fsync_dnodes_loop].
  - mbalance idtac.
  - mbalance ltac:(first [ by_balance (find_fsync_dnodes_block_balanced _ _ _ _ _)
                         | eapply weighs_shift;
                           [by_balance (IH _ _ _ _ _) | weigh_leaf] ]).
Qed.

Lemma find_fsync_dnodes_balanced (rounds : nat) (head : fsync_list) (check_only : bool) :
  balanced (fun r => Z.of_nat (length (snd r)) - Z.of_nat (length head))
           (fun _ => 0) (find_fsync_dnodes rounds head check_only).
Proof.
  unfold find_fsync_dnodes.
  mbalance ltac:(eapply weighs_shift;
                 [by_balance (find_fsync_dnodes_loop_balanced _ _ _ _ _ _ _ _)
                 | weigh_leaf]).
Qed.

Lemma recover_data_block_balanced (rounds : nat) (ls : fsync_lists) (blkaddr : block_t)
    (p : page) (err : Z) :
  balanced (fun r => entries_held (snd r) - entries_held ls) (fun _ => 0)
           (recover_data_block rounds ls blkaddr p err).
Proof.
  unfold recover_data_block.
  destruct (get_fsync_inode (inode_list ls) (ino_of_node p)) as [[q e] |] eqn:Hg.
  - pose proof (length_list_del _ _ _ (get_fsync_inode_position _ _ _ _ Hg)) as Hlen.
    cbn [fst snd].
    mbalance ltac:(idtac; match goal with
                   | |- weighs_from _ _ _ (recover_inode _ _) =>
                       by_balance (recover_inode_balanced _ _)
                   | |- weighs_from _ _ _ (recover_dentry _ _ _ _) =>
                       by_balance (recover_dentry_balanced _ _ _ _)
                   | |- weighs_from _ _ _ (do_recover_data _ _ _) =>
                       by_balance (do_recover_data_balanced _ _ _)
                   end).
  - mbalance idtac.
Qed.

Lemma recover_data_loop_balanced (rounds : nat) (n : nat) :
  forall ls blkaddr ra err,
    balanced (fun r => entries_held (snd r) - entries_held ls) (fun _ => 0)
             (recover_data_loop rounds n ls blkaddr ra err).
Proof.
  induction n as [| n IH]; intros ls blkaddr ra err; cbn [recover_data_loop].
  - mbalance idtac.
  - mbalance ltac:(first [ by_balance (recover_data_block_balanced _ _ _ _ _)
                         | eapply weighs_shift;
                           [by_balance (IH _ _ _ _) | weigh_leaf] ]).
Qed.

Lemma recover_data_balanced (rounds : nat) (ls : fsync_lists) :
  balanced (fun r => entries_held (snd r) - entries_held ls) (fun _ => 0)
           (recover_data rounds ls).
Proof.
  unfold recover_data.
  mbalance ltac:(by_balance (recover_data_loop_balanced _ _ _ _ _ _)).
Qed.

Lemma f3fs_recover_fsync_data_steps_balanced (rounds : nat) (check_only : bool) :
  balanced (fun sk => entries_held (sk_lists sk)) (fun _ => 0)
           (f3fs_recover_fsync_data_steps rounds check_only).
Proof.
  unfold f3fs_recover_fsync_data_steps.
  mbalance ltac:(first [ by_balance (find_fsync_dnodes_balanced _ _ _)
                       | by_balance (recover_data_balanced _ _) ]).
Qed.

Lemma f3fs_recover_fsync_data_skip_balanced (check_only : bool)
    (s_flags quota_enabled : Z) (sk : at_skip) :
  balanced (fun _ => - entries_held (sk_lists sk)) (fun _ => 0)
           (f3fs_recover_fsync_data_skip check_only s_flags quota_enabled sk).
Proof.
  unfold f3fs_recover_fsync_data_skip.
  mbalance ltac:(by_balance (destroy_fsync_dnodes_balanced _ _)).
Qed.

(** X19.  Whatever it returns, f3fs_recover_fsync_data holds nothing when
    it returns: it has put every inode it opened, in discovery, for a
    directory, for a colliding entry or in the collision resolver, exactly
    once; it has put every dnode it got; it has released every page lock it
    took; it has put, with unlock, every node page of the chain, every
    summary page and every node page of the resolver it got; and it has
    deleted one colliding directory entry for every orphan slot it
    acquired. *)
Theorem f3fs_recover_fsync_data_balanced (rounds : nat) (check_only : bool) :
  balanced (fun _ => 0) (fun _ => 0) (f3fs_recover_fsync_data rounds check_only).
Proof.
  unfold f3fs_recover_fsync_data.
  mbalance ltac:(first [ by_balance (f3fs_recover_fsync_data_steps_balanced _ _)
                       | eapply weighs_shift;
                         [ by_balance (f3fs_recover_fsync_data_skip_balanced _ _ _ _)
                         | weigh_leaf ] ]).
Qed.

(** * The read-ahead window *)

Lemma adjust_por_ra_blocks_bounds (ra_blocks blkaddr next_blkaddr : Z) :
  0 <= RECOVERY_MIN_RA_BLOCKS <= RECOVERY_MAX_RA_BLOCKS ->
  2 * RECOVERY_MAX_RA_BLOCKS < 2 ^ 32 ->
  RECOVERY_MIN_RA_BLOCKS <= ra_blocks <= RECOVERY_MAX_RA_BLOCKS ->
  RECOVERY_MIN_RA_BLOCKS <= adjust_por_ra_blocks ra_blocks blkaddr next_blkaddr
    <= RECOVERY_MAX_RA_BLOCKS.
Proof.
  intros Hmm Hmax Hra. unfold adjust_por_ra_blocks.
  destruct (u32 (blkaddr + 1) =? next_blkaddr).
  - assert (Hu : u32 (ra_blocks * 2) = ra_blocks * 2).
    { unfold u32. apply Z.mod_small. lia. }
    rewrite Hu. lia.
  - destruct (nz (next_blkaddr mod blocks_per_seg)); [| exact Hra].
    assert (0 <= ra_blocks / 2 <= ra_blocks).
    { split; [apply Z.div_pos; lia | apply Z.div_le_upper_bound; lia]. }
    lia.
Qed.

Lemma block_action_ra (ev : event) : calls_only block_action ev -> ra_bounded ev.
Proof.
  destruct ev as [R s c a].
  destruct c; cbn; intros H ra Hr; first [discriminate Hr | discriminate H].
Qed.

Lemma find_fsync_dnodes_block_ra (check_only : bool) (head : fsync_list)
    (blkaddr : block_t) (p : page) (err : Z) :
  all_calls ra_bounded (find_fsync_dnodes_block check_only head blkaddr p err).
Proof.
  unfold find_fsync_dnodes_block, add_fsync_inode, ra_bounded. mall idtac.
Qed.

Section Window.
Hypothesis Hmm : 0 <= RECOVERY_MIN_RA_BLOCKS <= RECOVERY_MAX_RA_BLOCKS.
Hypothesis Hmax : 2 * RECOVERY_MAX_RA_BLOCKS < 2 ^ 32.

Lemma find_fsync_dnodes_loop_ra (check_only : bool) (F : Z) (rounds : nat) :
  forall head blkaddr cnt ra err,
    RECOVERY_MIN_RA_BLOCKS <= ra <= RECOVERY_MAX_RA_BLOCKS ->
    all_calls ra_bounded
      (find_fsync_dnodes_loop rounds check_only F head blkaddr cnt ra err).
Proof.
  induction rounds as [| rounds IH]; intros head blkaddr cnt ra err Hra;
    cbn [find_fsync_dnodes_loop].
  - apply all_out_of_rounds.
  - mall ltac:(first [ apply find_fsync_dnodes_block_ra
                     | apply IH; now apply adjust_por_ra_blocks_bounds
                     | unfold ra_bounded; cbn; intros ? [= <-];
                       now apply adjust_por_ra_blocks_bounds ]).
Qed.

Lemma recover_data_loop_ra (rounds : nat) (n : nat) :
  forall ls blkaddr ra err,
    RECOVERY_MIN_RA_BLOCKS <= ra <= RECOVERY_MAX_RA_BLOCKS ->
    all_calls ra_bounded (recover_data_loop rounds n ls blkaddr ra err).
Proof.
  induction n as [| n IH]; intros ls blkaddr ra err Hra; cbn [recover_data_loop].
  - apply all_out_of_rounds.
  - mall ltac:(first [ apply (all_calls_weaken _ _ _ block_action_ra);
                       apply recover_data_block_calls
                     | apply IH; now apply adjust_por_ra_blocks_bounds
                     | unfold ra_bounded; cbn; intros ? [= <-];
                       now apply adjust_por_ra_blocks_bounds ]).
Qed.

End Window.

(** X6.  Where 0 <= RECOVERY_MIN_RA_BLOCKS <= RECOVERY_MAX_RA_BLOCKS and
    twice the maximum fits 32 bits, every read-ahead a pass asks for, in
    discovery and in the repair pass, is for a number of blocks between the
    minimum and the maximum; a window within the bounds doubles, up to the
    maximum, when the chain goes on in the next block, is halved, down to
    the minimum, when it jumps into the middle of a segment, and is kept
    when it jumps to the start of one. *)
Theorem readahead_window_bounded (rounds : nat) (check_only : bool)
    (head : fsync_list) (ls : fsync_lists) :
  0 <= RECOVERY_MIN_RA_BLOCKS <= RECOVERY_MAX_RA_BLOCKS ->
  2 * RECOVERY_MAX_RA_BLOCKS < 2 ^ 32 ->
  all_calls ra_bounded (find_fsync_dnodes rounds head check_only) /\
  all_calls ra_bounded (recover_data rounds ls) /\
  forall ra blkaddr next,
    RECOVERY_MIN_RA_BLOCKS <= ra <= RECOVERY_MAX_RA_BLOCKS ->
    adjust_por_ra_blocks ra blkaddr next =
      (if u32 (blkaddr + 1) =? next then Z.min RECOVERY_MAX_RA_BLOCKS (2 * ra)
       else if next mod blocks_per_seg =? 0 then ra
       else Z.max RECOVERY_MIN_RA_BLOCKS (ra / 2)).
Proof.
  intros Hmm Hmax. split; [| split].
  - unfold find_fsync_dnodes.
    mall ltac:(first [ apply find_fsync_dnodes_loop_ra; [assumption | assumption | lia]
                     | unfold ra_bounded; cbn; intros; discriminate ]).
  - unfold recover_data.
    mall ltac:(first [ apply recover_data_loop_ra; [assumption | assumption | lia]
                     | unfold ra_bounded; cbn; intros; discriminate ]).
  - intros ra blkaddr next Hra. unfold adjust_por_ra_blocks, nz.
    assert (Hu : u32 (ra * 2) = 2 * ra).
    { unfold u32. rewrite Z.mod_small; lia. }
    rewrite Hu. now destruct (next mod blocks_per_seg =? 0).
Qed.

(** * Directory repair: the recovered name *)

(** X4.  When the name the recovered inode records is longer than
    F3FS_NAME_LEN, recover_dentry does not look into the directory and
    changes nothing in it.  When the parent directory is in the directory
    list it fails with -ENAMETOOLONG without a call.  Otherwise it first
    adds the parent: when that fails the list is unchanged and the
    reference on the directory, if one was taken, has been dropped; when it
    succeeds the result is -ENAMETOOLONG and the parent stays at the tail
    of the list, its inode still held. *)
Theorem recover_dentry_name_too_long (rounds : nat) (i : inode) (ipage : page)
    (dl dl' : fsync_list) (w w' : world) (err : Z) (l : list event) :
  F3FS_NAME_LEN < i_namelen (F3FS_INODE ipage) ->
  recover_dentry rounds i ipage dl w = Some (err, dl', w') ->
  grows w w' l ->
  filter directory_action (calls l) = [] /\
  match get_fsync_inode dl (i_pino (F3FS_INODE ipage)) with
  | Some _ => err = - ENAMETOOLONG /\ l = [] /\ dl' = dl
  | None =>
      (dl' = dl /\
       (calls l = [Act (f3fs_iget_retry (i_pino (F3FS_INODE ipage)))] \/
        exists dir,
          calls l = [Act (f3fs_iget_retry (i_pino (F3FS_INODE ipage)));
                     Act (f3fs_dquot_initialize dir); Act (iput dir)]) \/
       err = - ENAMETOOLONG /\
       exists entry,
         dl' = dl ++ [entry] /\
         calls l = [Act (f3fs_iget_retry (i_pino (F3FS_INODE ipage)));
                    Act (f3fs_dquot_initialize (e_inode entry))])
  end.
Proof.
  intros Hlong H Hl.
  unfold recover_dentry, init_recovered_filename, add_fsync_inode in H.
  apply Z.ltb_lt in Hlong. rewrite Hlong in H.
  destruct (get_fsync_inode dl (i_pino (F3FS_INODE ipage))) as [entry |] eqn:Hg.
  - mexec H; try discriminate.
    match goal with Hp : (_, _) = (_, _) |- _ => injection Hp as ? ?; subst end.
    pose proof (grows_inj _ _ _ _ Hl (grows_refl _)) as ->.
    now repeat split.
  - mexec H; try discriminate.
    all: log_eq Hl; subst l.
    all: repeat match goal with
         | Hp : (_, _) = (_, _) |- _ => injection Hp as ? ?; subst
         end.
    all: split; [reflexivity |].
    + left. split; [reflexivity | left; reflexivity].
    + left. split; [reflexivity | right; eexists; reflexivity].
    + right. split; [reflexivity |]. eexists. split; reflexivity.
Qed.
End Properties.

(** * Worked traces *)



(** The three slots of [Trace.range_cfg], in one run of do_recover_data:
    the first has no block and gets block 200, by cases (d) and (e); the
    second loses block 90, by case (b); the third keeps block 91, by case
    (a). *)
Lemma do_recover_data_index_cases_witness :
  exists w',
    do_recover_data (K := Sim.kernel Trace.range_cfg) 2 Trace.inode7 Trace.dnode7
      (Sim.boot Trace.range_cfg) = Some (0, w') /\
    calls (w_trace w') =
      [Act (f3fs_recover_inline_data Trace.inode7 Trace.dnode7);
       Act (f3fs_get_dnode_of_data (Trace.dn_at 0) 0 ALLOC_NODE);
       Act (f3fs_wait_on_page_writeback 0);
       Act (f3fs_get_node_info 0);
       Act (f3fs_bug_on false);
       Act (f3fs_i_size_write Trace.inode7 4096);
       Act (f3fs_reserve_new_block (Trace.dn_at 0));
       Act (f3fs_bug_on false);
       Act (f3fs_replace_block (Trace.dn_at 0) 0 200 3 false false);
       Act (f3fs_truncate_data_blocks_range (Trace.dn_at 1) 1);
       Act (copy_node_footer 0 Trace.dnode7);
       Act (fill_node_footer 0 0 7 1 false);
       Act (set_page_dirty 0);
       Act (f3fs_put_dnode (Trace.dn_at 3))] /\
    exists w0 dn1 w1,
      do_recover_data_prepare (K := Sim.kernel Trace.range_cfg) 2 Trace.inode7
        Trace.dnode7 (Sim.boot Trace.range_cfg)
        = Some (inr (0, 3, Trace.dn_at 0, Trace.ni7), w0) /\
      index_range_repaired 2 Trace.inode7 Trace.dnode7 Trace.ni7 0 3
        (Trace.dn_at 0) w0 0 dn1 w1.
Proof.
  assert (Hv : Trace.outcome
                 (do_recover_data (K := Sim.kernel Trace.range_cfg) 2 Trace.inode7
                    Trace.dnode7 (Sim.boot Trace.range_cfg))
               = Some (0,
                   [Act (f3fs_recover_inline_data Trace.inode7 Trace.dnode7);
                    Act (f3fs_get_dnode_of_data (Trace.dn_at 0) 0 ALLOC_NODE);
                    Act (f3fs_wait_on_page_writeback 0);
                    Act (f3fs_get_node_info 0);
                    Act (f3fs_bug_on false);
                    Act (f3fs_i_size_write Trace.inode7 4096);
                    Act (f3fs_reserve_new_block (Trace.dn_at 0));
                    Act (f3fs_bug_on false);
                    Act (f3fs_replace_block (Trace.dn_at 0) 0 200 3 false false);
                    Act (f3fs_truncate_data_blocks_range (Trace.dn_at 1) 1);
                    Act (copy_node_footer 0 Trace.dnode7);
                    Act (fill_node_footer 0 0 7 1 false);
                    Act (set_page_dirty 0);
                    Act (f3fs_put_dnode (Trace.dn_at 3))]))
    by (vm_compute; reflexivity).
  assert (Hp : option_map fst
                 (do_recover_data_prepare (K := Sim.kernel Trace.range_cfg) 2
                    Trace.inode7 Trace.dnode7 (Sim.boot Trace.range_cfg))
               = Some (inr (0, 3, Trace.dn_at 0, Trace.ni7)))
    by (vm_compute; reflexivity).
  destruct (do_recover_data (K := Sim.kernel Trace.range_cfg) 2 Trace.inode7
              Trace.dnode7 (Sim.boot Trace.range_cfg)) as [[r w'] |] eqn:H;
    [| discriminate Hv].
  cbn [Trace.outcome option_map fst snd] in Hv. injection Hv as -> Hcalls.
  exists w'. split; [reflexivity |]. split; [exact Hcalls |].
  destruct (@do_recover_data_index_cases (Sim.kernel Trace.range_cfg)) as (Hrange & _).
  destruct (Hrange 2%nat Trace.inode7 Trace.dnode7 (Sim.boot Trace.range_cfg) w' 0 H)
    as (r & w0 & Hprep & Hr).
  rewrite Hprep in Hp. cbn [option_map fst] in Hp. injection Hp as ->.
  destruct Hr as (_ & dn1 & w1 & l_end & Hrep & _).
  exists w0, dn1, w1. split; [exact Hprep | exact Hrep].
Defined.

(** C1 as stated fails.  Block 200 is a block of the main area, and the
    slot holds block 90: the collision resolver fails to read the summary
    page, and the slot is left with its error without a replacement.  The
    same when the slot holds no block and none can be reserved: the
    resolver is not run.  And before anything is done for a recovered
    address other than NULL_ADDR, such as NEW_ADDR, i_size is extended to
    cover the slot. *)
Lemma do_recover_data_valid_dest_not_replaced :
  @f3fs_is_valid_blkaddr (Sim.kernel Trace.collide_cfg) 200 META_POR = true /\
  Trace.slot_outcome
    (do_recover_data_index (K := Sim.kernel Trace.collide_cfg) 2 Trace.inode7
       Trace.dnode7 Trace.ni7 0 Trace.dn7 (Sim.boot Trace.collide_cfg))
  = Some (- Sim.EIO,
          [Act (f3fs_i_size_write Trace.inode7 4096); Act (f3fs_get_sum_page 17)]) /\
  Trace.slot_outcome
    (do_recover_data_index (K := Sim.kernel Trace.full_cfg) 2 Trace.inode7
       Trace.dnode7 Trace.ni7 0 Trace.dn7 (Sim.boot Trace.full_cfg))
  = Some (-28,
          [Act (f3fs_i_size_write Trace.inode7 4096);
           Act (f3fs_reserve_new_block Trace.dn7); Act (f3fs_bug_on true)]) /\
  Trace.slot_outcome
    (do_recover_data_index (K := Sim.kernel (Trace.slot_cfg 90 (2 ^ 32 - 1))) 2
       Trace.inode7 Trace.dnode7 Trace.ni7 0 Trace.dn7
       (Sim.boot (Trace.slot_cfg 90 (2 ^ 32 - 1))))
  = Some (0,
          [Act (f3fs_i_size_write Trace.inode7 4096);
           Act (f3fs_truncate_data_blocks_range Trace.dn7 1);
           Act (f3fs_reserve_new_block Trace.dn7)]).
Proof. repeat split; vm_compute; reflexivity. Qed.

(** Four free blocks and a cycle of two: discovery reads four pages. *)
Lemma find_fsync_dnodes_loop_detection_witness :
  exists r head' w' l,
    @find_fsync_dnodes (Sim.kernel (Trace.cycle_cfg 252)) 4 [] true
      (Sim.boot (Trace.cycle_cfg 252)) = Some (r, head', w') /\
    grows (Sim.boot (Trace.cycle_cfg 252)) w' l /\
    Z.of_nat (length (tmp_reads l)) <= 4.
Proof.
  destruct (@find_fsync_dnodes_loop_detection (Sim.kernel (Trace.cycle_cfg 252))
              4 [] true (Sim.boot (Trace.cycle_cfg 252)))
    as (r & head' & w' & l & H & Hl & Hn & _).
  - vm_compute. lia.
  - exists r, head', w', l. split; [exact H |]. split; [exact Hl | exact Hn].
Defined.

(** C2 as stated fails.  With four free blocks, discovery on the cycle of
    blocks 100 and 101 follows the back-edge: it reads block 100, block 101,
    block 100 again and block 101 again before it gives up with -EINVAL.
    And with no free block at all it has read one page, not none, when it
    gives up. *)
Lemma find_fsync_dnodes_walks_round_cycle :
  Trace.walked (@find_fsync_dnodes (Sim.kernel (Trace.cycle_cfg 252)) 4 [] true
                  (Sim.boot (Trace.cycle_cfg 252)))
    = Some (- EINVAL, [100; 101; 100; 101]) /\
  revisits [100; 101; 100; 101] = true /\
  @free_blocks_of (Sim.kernel (Trace.cycle_cfg 256)) 256 = 0 /\
  Trace.walked (@find_fsync_dnodes (Sim.kernel (Trace.cycle_cfg 256)) 4 [] true
                  (Sim.boot (Trace.cycle_cfg 256)))
    = Some (- EINVAL, [100]).
Proof. repeat split; vm_compute; reflexivity. Qed.




(** Discovery on [Trace.twice_cfg] reads the blocks 100 and 101, both
    fsync-marked nodes of inode 7: the entry of inode 7 records block 101,
    the last of them. *)
Lemma recover_data_moves_at_last_block_witness :
  exists il w',
    find_fsync_dnodes (K := Sim.kernel Trace.twice_cfg) 3 [] false
      (Sim.boot Trace.twice_cfg) = Some (0, il, w') /\
    get_fsync_inode il 7
      = Some (0%nat, {| e_inode := Trace.inode7; e_blkaddr := 101; e_last_dentry := 0 |}) /\
    map fst (tmp_reads (w_trace w')) = [100; 101] /\
    last_fsync_block 7 (tmp_reads (w_trace w')) = Some 101.
Proof.
  assert (Hv : option_map (fun x => (fst (fst x), snd (fst x),
                                      map fst (tmp_reads (w_trace (snd x)))))
                 (find_fsync_dnodes (K := Sim.kernel Trace.twice_cfg) 3 [] false
                    (Sim.boot Trace.twice_cfg))
               = Some (0, [{| e_inode := Trace.inode7; e_blkaddr := 101;
                              e_last_dentry := 0 |}], [100; 101]))
    by (vm_compute; reflexivity).
  destruct (find_fsync_dnodes (K := Sim.kernel Trace.twice_cfg) 3 [] false
              (Sim.boot Trace.twice_cfg)) as [[[err il] w'] |] eqn:H;
    [| discriminate Hv].
  cbn in Hv. injection Hv as -> -> Hr.
  eexists _, w'. split; [reflexivity |]. split; [reflexivity |].
  split; [exact Hr |].
  refine (proj1 (@recover_data_moves_at_last_block (Sim.kernel Trace.twice_cfg))
            3%nat false (Sim.boot Trace.twice_cfg) w' 0 _ (w_trace w') _ H eq_refl
            7 0%nat _ eq_refl).
  intros ino s i Hi. cbn in Hi. injection Hi as <-. reflexivity.
Defined.

(** On [Trace.twice_cfg] the first node block discovery records for inode
    7 is block 100, and the entry it leaves records block 101.  The repair
    of block 100 leaves the entry in the inode list; the repair of block
    101 moves it to the tmp list. *)
Lemma recover_data_entry_not_moved_at_first_block :
  Trace.walked (find_fsync_dnodes (K := Sim.kernel Trace.twice_cfg) 3 [] false
                  (Sim.boot Trace.twice_cfg)) = Some (0, [100; 101]) /\
  option_map (fun x => snd (fst x))
    (find_fsync_dnodes (K := Sim.kernel Trace.twice_cfg) 3 [] false
       (Sim.boot Trace.twice_cfg))
  = Some [{| e_inode := Trace.inode7; e_blkaddr := 101; e_last_dentry := 0 |}] /\
  let ls := {| inode_list := [{| e_inode := Trace.inode7; e_blkaddr := 101;
                                 e_last_dentry := 0 |}];
               tmp_inode_list := []; dir_list := [] |} in
  option_map fst
    (recover_data_block (K := Sim.kernel Trace.twice_cfg) 2 ls 100
       (Sim.dnode 500 7 8 true 101) 0 (Sim.boot Trace.twice_cfg))
  = Some (inr 0, ls) /\
  option_map fst
    (recover_data_block (K := Sim.kernel Trace.twice_cfg) 2 ls 101
       (Sim.dnode 501 7 8 true 0) 0 (Sim.boot Trace.twice_cfg))
  = Some (inr 0, {| inode_list := [];
                    tmp_inode_list := [{| e_inode := Trace.inode7; e_blkaddr := 101;
                                          e_last_dentry := 0 |}];
                    dir_list := [] |}).
Proof. repeat split; vm_compute; reflexivity. Qed.

(** The run on [Trace.chown_cfg]: the transfer of the owner of inode 7
    answers -ENOMEM. *)
Lemma f3fs_recover_fsync_data_transfer_failure_witness :
  exists w',
    f3fs_recover_fsync_data (K := Sim.kernel Trace.chown_cfg) 3 false
      (Sim.boot Trace.chown_cfg) = Some (- ENOMEM, w') /\
    transfer_failures (w_trace w') = [- ENOMEM] /\
    cp_answers (w_trace w') = [] /\
    ~ In (Act (clear_sbi_flag SBI_POR_DOING)) (calls (w_trace w')).
Proof.
  assert (Hv : option_map (fun x => (fst x, transfer_failures (w_trace (snd x))))
                 (f3fs_recover_fsync_data (K := Sim.kernel Trace.chown_cfg) 3 false
                    (Sim.boot Trace.chown_cfg)) = Some (- ENOMEM, [- ENOMEM]))
    by (vm_compute; reflexivity).
  destruct (f3fs_recover_fsync_data (K := Sim.kernel Trace.chown_cfg) 3 false
              (Sim.boot Trace.chown_cfg)) as [[r w'] |] eqn:H; [| discriminate Hv].
  cbn in Hv. injection Hv as -> Hq.
  exists w'. split; [reflexivity |]. split; [exact Hq |].
  destruct (@transfer_failures_event (Sim.kernel Trace.chown_cfg) (w_trace w')
              (- ENOMEM)) as (s & i & attr & Hin & He).
  { rewrite Hq. left. reflexivity. }
  destruct (@f3fs_recover_fsync_data_transfer_failure (Sim.kernel Trace.chown_cfg)
              3 false (Sim.boot Trace.chown_cfg) w' (- ENOMEM) (w_trace w')
              H eq_refl s i attr (- ENOMEM) Hin He)
    as (_ & _ & _ & Hcp & _ & Hclear).
  split; [exact Hcp | exact Hclear].
Defined.

(** On [Trace.chown_cfg] discovery finds the inodes 7 and 9.  The repair
    pass reads block 100, the transfer of the owner of inode 7 fails, and
    the run ends with -ENOMEM: block 101 is not read again, the node of
    inode 9 is not repaired, and no checkpoint is written. *)
Lemma f3fs_recover_fsync_data_transfer_failure_aborts :
  Trace.outcome (f3fs_recover_fsync_data (K := Sim.kernel Trace.chown_cfg) 3 false
                   (Sim.boot Trace.chown_cfg))
  = Some (- ENOMEM,
          [Act (f3fs_enable_quota_files false);
           Act f3fs_down_write_cp_global_sem; Act (f3fs_get_tmp_page 100);
           Act (f3fs_iget_retry 7);
           Act (f3fs_dquot_initialize {| i_ino := 7 |});
           Act (f3fs_put_page 500 1); Act (f3fs_ra_meta_pages_cond 101 256);
           Act (f3fs_get_tmp_page 101); Act (f3fs_iget_retry 9);
           Act (f3fs_dquot_initialize {| i_ino := 9 |});
           Act (f3fs_put_page 501 1); Act (f3fs_ra_meta_pages_cond 0 256);
           Act (f3fs_get_tmp_page 100);
           Act (inode_store {| i_ino := 7 |} fld_i_mode 420);
           Act (dquot_transfer {| i_ino := 7 |}
                  {| ia_valid := 2; ia_vfsuid := 1000; ia_vfsgid := 0 |});
           Act (set_sbi_flag SBI_QUOTA_NEED_REPAIR);
           Act (f3fs_put_page 500 1); Act (f3fs_bug_on false);
           Act (f3fs_inode_synced {| i_ino := 7 |});
           Act (iput {| i_ino := 7 |});
           Act (f3fs_inode_synced {| i_ino := 9 |});
           Act (iput {| i_ino := 9 |});
           Act (truncate_inode_pages_range META_MAPPING 262144 (-1));
           Act (truncate_inode_pages_final NODE_MAPPING);
           Act (truncate_inode_pages_final META_MAPPING);
           Act f3fs_up_write_cp_global_sem;
           Act (set_sbi_flag SBI_IS_RECOVERED); Act (sb_s_flags_store 0)]).
Proof. vm_compute. reflexivity. Qed.

(** * Worked traces of the recovery run *)

(** Inode 7 is added to an empty table. *)
Lemma add_fsync_inode_lookup_witness :
  exists head' w' ptr,
    @add_fsync_inode (Sim.kernel Trace.fsynced_cfg) [] 7 false
      (Sim.boot Trace.fsynced_cfg) = Some (inr ptr, head', w') /\
    get_fsync_inode head' 7 = Some ptr /\
    fst ptr = 0%nat.
Proof.
  destruct (@add_fsync_inode (Sim.kernel Trace.fsynced_cfg) [] 7 false
              (Sim.boot Trace.fsynced_cfg)) as [[[[e | ptr] head'] w'] |] eqn:H;
    try (vm_compute in H; discriminate H).
  exists head', w', ptr. split; [reflexivity |].
  destruct (@add_fsync_inode_lookup (Sim.kernel Trace.fsynced_cfg) [] head' 7 false
              (Sim.boot Trace.fsynced_cfg) w' ptr) as (Hg & Hp & _).
  - intros s i Hi. cbn in Hi. injection Hi as <-. reflexivity.
  - reflexivity.
  - exact H.
  - split; [exact Hg | exact Hp].
Defined.


(** The run on the log of S6: the lock is taken and released, and the
    checkpoint is written after the release. *)
Lemma f3fs_recover_fsync_data_checkpoint_lock_witness :
  exists w',
    f3fs_recover_fsync_data (K := Sim.kernel Trace.repaired_cfg) 2 false
      (Sim.boot Trace.repaired_cfg) = Some (0, w') /\
    filter sync_action (calls (w_trace w'))
      = [Act f3fs_down_write_cp_global_sem; Act f3fs_up_write_cp_global_sem;
         Act (f3fs_write_checkpoint CP_RECOVERY)] /\
    cp_answers (w_trace w') = [0].
Proof.
  assert (Hv : option_map (fun x => (fst x, cp_answers (w_trace (snd x))))
                 (f3fs_recover_fsync_data (K := Sim.kernel Trace.repaired_cfg) 2 false
                    (Sim.boot Trace.repaired_cfg)) = Some (0, [0]))
    by (vm_compute; reflexivity).
  destruct (f3fs_recover_fsync_data (K := Sim.kernel Trace.repaired_cfg) 2 false
              (Sim.boot Trace.repaired_cfg)) as [[r w'] |] eqn:H; [| discriminate Hv].
  cbn in Hv. injection Hv as -> Hcp.
  exists w'. split; [reflexivity |].
  destruct (@f3fs_recover_fsync_data_checkpoint_lock (Sim.kernel Trace.repaired_cfg)
              2 false (Sim.boot Trace.repaired_cfg) w' 0 (w_trace w') H eq_refl)
    as [(_ & Hc) | (_ & Hs & Hc)].
  - rewrite Hcp in Hc. discriminate Hc.
  - split; [exact Hs | exact Hc].
Defined.

(** The run on the log of S6 where the direct node does not fit its
    inode: discovery finds inode 7, and the repair pass fails with
    -EFSCORRUPTED. *)
Lemma f3fs_recover_fsync_data_failure_witness :
  exists w',
    f3fs_recover_fsync_data (K := Sim.kernel Trace.fsynced_cfg) 2 false
      (Sim.boot Trace.fsynced_cfg) = Some (- EFSCORRUPTED, w') /\
    cp_answers (w_trace w') = [] /\ fix_answers (w_trace w') = [] /\
    ~ In (Act (clear_sbi_flag SBI_POR_DOING)) (calls (w_trace w')) /\
    In (Act (truncate_inode_pages_final NODE_MAPPING)) (calls (w_trace w')) /\
    In (Act (truncate_inode_pages_final META_MAPPING)) (calls (w_trace w')).
Proof.
  assert (Hv : option_map fst
                 (f3fs_recover_fsync_data (K := Sim.kernel Trace.fsynced_cfg) 2 false
                    (Sim.boot Trace.fsynced_cfg)) = Some (- EFSCORRUPTED))
    by (vm_compute; reflexivity).
  destruct (f3fs_recover_fsync_data (K := Sim.kernel Trace.fsynced_cfg) 2 false
              (Sim.boot Trace.fsynced_cfg)) as [[r w'] |] eqn:H; [| discriminate Hv].
  cbn in Hv. injection Hv as ->.
  exists w'. split; [reflexivity |].
  destruct (@f3fs_recover_fsync_data_failure (Sim.kernel Trace.fsynced_cfg)
              2 false (Sim.boot Trace.fsynced_cfg) w' (- EFSCORRUPTED) (w_trace w')
              H eq_refl)
    as (q & w1 & w2 & err & il & Hpre & Hd & Hfail1 & Hfail2).
  destruct w1 as [[] t1]. destruct w2 as [[] t2].
  apply (f_equal (option_map fst)) in Hd. vm_compute in Hd.
  injection Hd as He Hil. subst err il.
  destruct (Hfail2 eq_refl ltac:(discriminate) eq_refl)
    as (err2 & ls2 & w3 & Hrd & Hfail).
  apply (f_equal (option_map (fun x => fst (fst x)))) in Hrd. vm_compute in Hrd.
  injection Hrd as He2. subst err2.
  destruct (Hfail ltac:(discriminate)) as (_ & Hrest). exact Hrest.
Defined.

(** The run on a file system mounted read-only: SB_RDONLY is cleared by the
    first call and put back by the last. *)
Lemma f3fs_recover_fsync_data_restores_s_flags_witness :
  exists r w',
    f3fs_recover_fsync_data (K := Sim.kernel Trace.rdonly_cfg) 2 false
      (Sim.boot Trace.rdonly_cfg) = Some (r, w') /\
    (exists l0 s, w_trace w' = l0 ++ [Ev s (sb_s_flags_store SB_RDONLY) tt]) /\
    (exists l1,
       w_trace w'
       = Ev (w_st (Sim.boot Trace.rdonly_cfg))
           (sb_s_flags_store (Z.land SB_RDONLY (Z.lnot SB_RDONLY))) tt :: l1).
Proof.
  destruct (f3fs_recover_fsync_data (K := Sim.kernel Trace.rdonly_cfg) 2 false
              (Sim.boot Trace.rdonly_cfg)) as [[r w'] |] eqn:H.
  - exists r, w'. split; [reflexivity |].
    destruct (@f3fs_recover_fsync_data_restores_s_flags (Sim.kernel Trace.rdonly_cfg)
                2 false (Sim.boot Trace.rdonly_cfg) w' r (w_trace w') H eq_refl)
      as (Hlast & Hfirst).
    split; [exact Hlast | exact (Hfirst eq_refl)].
  - assert (Hv : option_map fst
                   (f3fs_recover_fsync_data (K := Sim.kernel Trace.rdonly_cfg) 2 false
                      (Sim.boot Trace.rdonly_cfg)) = Some 0)
      by (vm_compute; reflexivity).
    rewrite H in Hv. discriminate Hv.
Defined.

(** The run on the log of S6, on a kernel built with quota support: the
    quota files are turned on once, and they were on already. *)
Lemma f3fs_recover_fsync_data_quota_files_witness :
  exists r w',
    f3fs_recover_fsync_data (K := Sim.kernel Trace.repaired_cfg) 2 false
      (Sim.boot Trace.repaired_cfg) = Some (r, w') /\
    exists q, quota_on_answers (w_trace w') = [q] /\
              (In (Act f3fs_quota_off_umount) (calls (w_trace w')) <-> q <> 0).
Proof.
  destruct (f3fs_recover_fsync_data (K := Sim.kernel Trace.repaired_cfg) 2 false
              (Sim.boot Trace.repaired_cfg)) as [[r w'] |] eqn:H.
  - exists r, w'. split; [reflexivity |].
    exact (proj2 (@f3fs_recover_fsync_data_quota_files (Sim.kernel Trace.repaired_cfg)
                    2 false (Sim.boot Trace.repaired_cfg) w' r (w_trace w') H eq_refl)
             eq_refl).
  - assert (Hv : option_map fst
                   (f3fs_recover_fsync_data (K := Sim.kernel Trace.repaired_cfg) 2 false
                      (Sim.boot Trace.repaired_cfg)) = Some 0)
      by (vm_compute; reflexivity).
    rewrite H in Hv. discriminate Hv.
Defined.

(** The run on a zoned device with nothing to recover: the write pointers
    are fixed once, with success, and SBI_POR_DOING is cleared. *)
Lemma f3fs_recover_fsync_data_fix_write_pointer_witness :
  exists w',
    f3fs_recover_fsync_data (K := Sim.kernel Trace.zoned_cfg) 2 false
      (Sim.boot Trace.zoned_cfg) = Some (0, w') /\
    fix_answers (w_trace w') = [0] /\
    In (Act (clear_sbi_flag SBI_POR_DOING)) (calls (w_trace w')).
Proof.
  assert (Hv : option_map (fun x => (fst x, fix_answers (w_trace (snd x))))
                 (f3fs_recover_fsync_data (K := Sim.kernel Trace.zoned_cfg) 2 false
                    (Sim.boot Trace.zoned_cfg)) = Some (0, [0]))
    by (vm_compute; reflexivity).
  destruct (f3fs_recover_fsync_data (K := Sim.kernel Trace.zoned_cfg) 2 false
              (Sim.boot Trace.zoned_cfg)) as [[r w'] |] eqn:H; [| discriminate Hv].
  cbn in Hv. injection Hv as -> Hfix.
  exists w'. split; [reflexivity |]. split; [exact Hfix |].
  destruct (@f3fs_recover_fsync_data_fix_write_pointer (Sim.kernel Trace.zoned_cfg)
              2 false (Sim.boot Trace.zoned_cfg) w' 0 (w_trace w') H eq_refl)
    as [Hn | (e & He & Hok & _)].
  - rewrite Hfix in Hn. discriminate Hn.
  - rewrite Hfix in He. injection He as <-. exact (Hok eq_refl).
Defined.


(** The repair pass on the log of S6: the entry of inode 7 moves from the
    inode list to the list of repaired inodes. *)
Lemma recover_data_keeps_entries_witness :
  exists err ls' w',
    recover_data (K := Sim.kernel Trace.repaired_cfg) 2 Trace.lists7
      (Sim.boot Trace.repaired_cfg) = Some (err, ls', w') /\
    Permutation [Trace.entry7] (inode_list ls' ++ tmp_inode_list ls') /\
    (exists moved, tmp_inode_list ls' = moved) /\
    (exists added, dir_list ls' = added).
Proof.
  destruct (recover_data (K := Sim.kernel Trace.repaired_cfg) 2 Trace.lists7
              (Sim.boot Trace.repaired_cfg)) as [[[err ls'] w'] |] eqn:H.
  - exists err, ls', w'. split; [reflexivity |].
    exact (@recover_data_keeps_entries (Sim.kernel Trace.repaired_cfg) 2
             Trace.lists7 ls' err (Sim.boot Trace.repaired_cfg) w' H).
  - assert (Hv : option_map (fun x => fst (fst x))
                   (recover_data (K := Sim.kernel Trace.repaired_cfg) 2 Trace.lists7
                      (Sim.boot Trace.repaired_cfg)) = Some 0)
      by (vm_compute; reflexivity).
    rewrite H in Hv. discriminate Hv.
Defined.

(** One block of the repair pass: the block at 100 is the last fsynced
    node of inode 7, so its entry leaves the inode list. *)
Lemma recover_data_block_moves_entry_witness :
  exists v ls' w',
    recover_data_block (K := Sim.kernel Trace.repaired_cfg) 2 Trace.lists7 100
      Trace.dnode7 0 (Sim.boot Trace.repaired_cfg) = Some (inr v, ls', w') /\
    inode_list ls' = [] /\
    tmp_inode_list ls' = [Trace.entry7] /\
    get_fsync_inode (inode_list ls') 7 = None.
Proof.
  destruct (recover_data_block (K := Sim.kernel Trace.repaired_cfg) 2 Trace.lists7 100
              Trace.dnode7 0 (Sim.boot Trace.repaired_cfg))
    as [[[[e | v] ls'] w'] |] eqn:H.
  - assert (Hv : option_map (fun x => fst (fst x))
                   (recover_data_block (K := Sim.kernel Trace.repaired_cfg) 2
                      Trace.lists7 100 Trace.dnode7 0 (Sim.boot Trace.repaired_cfg))
                 = Some (inr 0)) by (vm_compute; reflexivity).
    rewrite H in Hv. discriminate Hv.
  - exists v, ls', w'. split; [reflexivity |].
    destruct (@recover_data_block_moves_entry (Sim.kernel Trace.repaired_cfg) 2
                Trace.lists7 ls' 100 Trace.dnode7 0 (inr v)
                (Sim.boot Trace.repaired_cfg) w' H) as (Hmove & _).
    destruct (Hmove eq_refl) as (Hi & Ht & Hg).
    split; [exact Hi |]. split; [exact Ht |].
    apply Hg. repeat constructor. intros [].
  - assert (Hv : option_map (fun x => fst (fst x))
                   (recover_data_block (K := Sim.kernel Trace.repaired_cfg) 2
                      Trace.lists7 100 Trace.dnode7 0 (Sim.boot Trace.repaired_cfg))
                 = Some (inr 0)) by (vm_compute; reflexivity).
    rewrite H in Hv. discriminate Hv.
Defined.

(** The owner of inode 50 changes and the quota transfer is refused:
    recover_inode stops after three calls. *)
Lemma recover_inode_failure_witness :
  exists w',
    recover_inode (K := Sim.kernel Trace.refused_cfg) {| i_ino := 50 |}
      Trace.chowned_page (Sim.boot Trace.refused_cfg) = Some (- ENOMEM, w') /\
    ((exists attr s1 s2,
        w_trace w'
        = [Ev (w_st (Sim.boot Trace.refused_cfg))
             (inode_store {| i_ino := 50 |} fld_i_mode 420) tt;
           Ev s1 (dquot_transfer {| i_ino := 50 |} attr) (- ENOMEM);
           Ev s2 (set_sbi_flag SBI_QUOTA_NEED_REPAIR) tt]) \/
     (exists pre kprojid s1 s2 s3,
        w_trace w'
        = Ev (w_st (Sim.boot Trace.refused_cfg))
            (inode_store {| i_ino := 50 |} fld_i_mode 420) tt
          :: pre ++ [Ev s1 (i_uid_write {| i_ino := 50 |} 1000) tt;
                     Ev s2 (i_gid_write {| i_ino := 50 |} 0) tt;
                     Ev s3 (f3fs_transfer_project_quota {| i_ino := 50 |} kprojid)
                       (- ENOMEM)] /\
        (pre = [] \/
         exists attr s, pre = [Ev s (dquot_transfer {| i_ino := 50 |} attr) 0]))).
Proof.
  assert (Hv : option_map fst
                 (recover_inode (K := Sim.kernel Trace.refused_cfg) {| i_ino := 50 |}
                    Trace.chowned_page (Sim.boot Trace.refused_cfg)) = Some (- ENOMEM))
    by (vm_compute; reflexivity).
  destruct (recover_inode (K := Sim.kernel Trace.refused_cfg) {| i_ino := 50 |}
              Trace.chowned_page (Sim.boot Trace.refused_cfg)) as [[r w'] |] eqn:H;
    [| discriminate Hv].
  cbn in Hv. injection Hv as ->.
  exists w'. split; [reflexivity |].
  refine (proj2 (@recover_inode_failure (Sim.kernel Trace.refused_cfg)
                   {| i_ino := 50 |} Trace.chowned_page
                   (Sim.boot Trace.refused_cfg) w' (- ENOMEM) (w_trace w')
                   H eq_refl) _).
  discriminate.
Defined.

(** The repair pass on the log of S6 succeeds and ends with the allocation
    of new segments. *)
Lemma recover_data_allocates_witness :
  exists ls' w',
    recover_data (K := Sim.kernel Trace.repaired_cfg) 2 Trace.lists7
      (Sim.boot Trace.repaired_cfg) = Some (0, ls', w') /\
    exists l0 s, w_trace w' = l0 ++ [Ev s f3fs_allocate_new_segments tt].
Proof.
  assert (Hv : option_map (fun x => fst (fst x))
                 (recover_data (K := Sim.kernel Trace.repaired_cfg) 2 Trace.lists7
                    (Sim.boot Trace.repaired_cfg)) = Some 0)
    by (vm_compute; reflexivity).
  destruct (recover_data (K := Sim.kernel Trace.repaired_cfg) 2 Trace.lists7
              (Sim.boot Trace.repaired_cfg)) as [[[err ls'] w'] |] eqn:H;
    [| discriminate Hv].
  cbn in Hv. injection Hv as ->.
  exists ls', w'. split; [reflexivity |].
  exact (proj1 (@recover_data_allocates (Sim.kernel Trace.repaired_cfg) 2
                  Trace.lists7 ls' 0 (Sim.boot Trace.repaired_cfg) w' (w_trace w')
                  H eq_refl) eq_refl).
Defined.


(** The read-ahead window of the test kernel lies between 1 and 256
    blocks. *)
Lemma readahead_window_bounded_witness :
  all_calls (K := Sim.kernel Trace.fsynced_cfg) ra_bounded
    (find_fsync_dnodes 2 [] false) /\
  all_calls (K := Sim.kernel Trace.fsynced_cfg) ra_bounded
    (recover_data 2 Trace.lists7) /\
  adjust_por_ra_blocks (K := Sim.kernel Trace.fsynced_cfg) 256 100 101 = 256 /\
  adjust_por_ra_blocks (K := Sim.kernel Trace.fsynced_cfg) 1 100 107 = 1.
Proof.
  destruct (@readahead_window_bounded (Sim.kernel Trace.fsynced_cfg) 2 false []
              Trace.lists7) as (Hf & Hr & Ha).
  - cbn. lia.
  - cbn. lia.
  - split; [exact Hf |]. split; [exact Hr |].
    split; [apply (Ha 256 100 101) | apply (Ha 1 100 107)]; cbn; lia.
Defined.

(** The name recorded for inode 50 has 300 bytes: its parent, directory 5,
    is added to the directory list and the repair fails without a lookup. *)
Lemma recover_dentry_name_too_long_witness :
  exists dl' w',
    recover_dentry (K := Sim.kernel Trace.fsynced_cfg) 2 {| i_ino := 50 |}
      Trace.long_page [] (Sim.boot Trace.fsynced_cfg)
      = Some (- ENAMETOOLONG, dl', w') /\
    filter directory_action (calls (w_trace w')) = [] /\
    exists entry,
      dl' = [entry] /\
      calls (w_trace w')
      = [Act (f3fs_iget_retry 5); Act (f3fs_dquot_initialize (e_inode entry))].
Proof.
  assert (Hv : option_map (fun x => (fst (fst x), length (snd (fst x))))
                 (recover_dentry (K := Sim.kernel Trace.fsynced_cfg) 2 {| i_ino := 50 |}
                    Trace.long_page [] (Sim.boot Trace.fsynced_cfg))
               = Some (- ENAMETOOLONG, 1%nat)) by (vm_compute; reflexivity).
  destruct (recover_dentry (K := Sim.kernel Trace.fsynced_cfg) 2 {| i_ino := 50 |}
              Trace.long_page [] (Sim.boot Trace.fsynced_cfg))
    as [[[err dl'] w'] |] eqn:H; [| discriminate Hv].
  cbn [option_map fst snd] in Hv. injection Hv as -> Hn.
  exists dl', w'. split; [reflexivity |].
  destruct (@recover_dentry_name_too_long (Sim.kernel Trace.fsynced_cfg) 2
              {| i_ino := 50 |} Trace.long_page [] dl'
              (Sim.boot Trace.fsynced_cfg) w' (- ENAMETOOLONG) (w_trace w'))
    as (Hdir & Hcase).
  - vm_compute. reflexivity.
  - exact H.
  - reflexivity.
  - split; [exact Hdir |].
    destruct Hcase as [(Hdl & _) | (_ & Hentry)].
    + rewrite Hdl in Hn. discriminate Hn.
    + exact Hentry.
Defined.
